(** * Preference scoring and selection engine of the anecdote bot

    A shallow embedding of [database_sqlite.py] (class [Database]) and
    [recommendations.py] (class [ThemeBasedRecommender]), followed by the
    properties of the scoring and selection engine and, after them, by
    further properties of the engine and of the methods of [Database]
    around it (users, ratings, favorites, submitted jokes, statistics).

    Conventions of the embedding.
    - Python floats are modelled by exact rationals [Q]; equalities between
      scores and probabilities are therefore stated with [==] ([Qeq]).
    - SQLite integers (row ids, counters) are [Z].
    - A table with a primary key that the code upserts ([user_preferences])
      is a [gmap] from the key; tables that are only scanned are lists of
      rows in storage order.
    - A Python [dict] whose iteration order matters is an association list.
    - [random] and [ORDER BY RANDOM()] draw from an explicit record of
      draws, one field per call site.
    - [print] appends to an explicit log. *)

From Stdlib Require Import ZArith QArith Qminmax Lqa Lia List Bool.
From Stdlib Require Import Sorted Permutation.
From stdpp Require Import gmap strings list fin_maps.
Import ListNotations.

(** ** Python built-ins on numbers *)

Module Py.

(** [max(a, b)]: the first argument unless the second is strictly larger. *)
Definition max (a b : Q) : Q := if Qlt_le_dec a b then b else a.

(** [min(a, b)]: the first argument unless the second is strictly smaller. *)
Definition min (a b : Q) : Q := if Qlt_le_dec b a then b else a.

(** [x or d] on a float: [d] when [x] is [None] or [0.0]. *)
Definition float_or (x : option Q) (d : Q) : Q :=
  match x with
  | Some q => if Qeq_bool q 0 then d else q
  | None => d
  end.

(** [x or d] on an int. *)
Definition int_or (x : option Z) (d : Z) : Z :=
  match x with
  | Some z => if Z.eqb z 0 then d else z
  | None => d
  end.

(** [sum(xs)] of a list of floats, left to right from [0]. *)
Definition sum (xs : list Q) : Q := fold_left Qplus xs 0%Q.

End Py.

(** ** Console output

    Every [print] of the two modules, in the order of the source. *)

Inductive msg : Type :=
  | MsgDbError                            (* get_connection: rollback *)
  | MsgRandomJokeError                    (* get_random_joke, except *)
  | MsgJokeThemesError                    (* get_joke_themes, except *)
  | MsgPreferencesError                   (* get_user_preferences, except *)
  | MsgUpdateError                        (* update_user_preference, except *)
  | MsgInteractionsError                  (* get_user_interactions, except *)
  | MsgNoPreferences (user_id : Z)
  | MsgExploring (user_id : Z)
  | MsgExplorationShown (user_id : Z)
  | MsgProbabilities (user_id : Z)
  | MsgThemeProbability (theme_id : Z) (prob : Q)
  | MsgAllZero (user_id : Z)
  | MsgThemeChosen (theme_id user_id : Z)
  | MsgJokeFound (joke_id theme_id : Z)
  | MsgJokeNotFound (theme_id : Z)
  | MsgFallback (joke_id : Z)
  | MsgRecommendError (user_id : Z)
  | MsgRecommendDbError
  | MsgViewHistoryError
  | MsgNoProfile (user_id : Z).

(** ** database_sqlite.py *)

Module Database.

(** *** Tables *)

Record theme_row := { t_id : Z; t_name : string; t_emoji : string }.

Record joke_row := { j_id : Z; j_text : string; j_is_approved : bool }.

(** [joke_themes.weight] is [REAL DEFAULT 1.0] without [NOT NULL]. *)
Record joke_theme_row :=
  { jt_joke_id : Z; jt_theme_id : Z; jt_weight : option Q }.

(** A row of [user_preferences], keyed by [(user_id, theme_id)]. *)
Record pref_row := { up_score : Q; up_interactions : Z }.

Record interaction_row :=
  { i_user_id : Z; i_joke_id : Z; i_liked : bool }.

Record db :=
  { themes : list theme_row;
    jokes : list joke_row;
    joke_themes : list joke_theme_row;
    user_preferences : gmap (Z * Z) pref_row;
    interactions : list interaction_row }.

Definition set_user_preferences (d : db) (p : gmap (Z * Z) pref_row) : db :=
  {| themes := themes d; jokes := jokes d; joke_themes := joke_themes d;
     user_preferences := p; interactions := interactions d |}.

(** *** Storage failures and [get_connection]

    A call of a [Database] method meets one of four storage conditions:
    the store works, [sqlite3.connect] raises, the first
    [cursor.execute] of the connection block raises, or [conn.commit()]
    raises at the end of a block that has written. *)

Inductive fault := NoFault | ConnectFails | ExecuteFails | CommitFails.

(** A statement run inside a connection block: a value or [sqlite3.Error]. *)
Inductive sql (A : Type) : Type :=
  | SqlOk (a : A)
  | SqlError.
Arguments SqlOk {A} a.
Arguments SqlError {A}.

Definition sql_bind {A B} (m : sql A) (k : A -> sql B) : sql B :=
  match m with
  | SqlOk a => k a
  | SqlError => SqlError
  end.

(** [cursor.execute(...)] under the storage condition [f]. *)
Definition execute {A} (f : fault) (r : sql A) : sql A :=
  match f with
  | ExecuteFails => SqlError
  | _ => r
  end.

(** [conn.commit()], run by the context manager once the body has
    returned.  sqlite3 opens a transaction before the first statement
    that writes; a block that only reads has none, and its commit does
    nothing.  A block that has written commits, and this raises under
    [CommitFails]. *)
Definition commit_raises (f : fault) (wrote : bool) : bool :=
  match f with
  | CommitFails => wrote
  | _ => false
  end.

(** [with get_connection() as conn: body], where every path of [body]
    ends in [return]; [wrote] tells from the value returned whether the
    path has written.  A failing [connect] raises out of the block.  An
    error raised by [body] is caught by the context manager (rollback and
    a message) and not raised again, so the block ends normally without a
    value.  An error raised by the commit is caught in the same way,
    after the [return]: the value [body] returned is still the method's,
    and the writes are rolled back.  The result is what is printed, the
    value returned from the block, and whether its writes are
    committed. *)
Definition with_connection {A} (f : fault) (wrote : A -> bool)
    (body : sql A) : sql (list msg * option A * bool) :=
  match f with
  | ConnectFails => SqlError
  | _ =>
      match body with
      | SqlOk a =>
          if commit_raises f (wrote a)
          then SqlOk ([MsgDbError], Some a, false)
          else SqlOk ([], Some a, true)
      | SqlError => SqlOk ([MsgDbError], None, false)
      end
  end.

(** [try: with get_connection() ...  except sqlite3.Error: print(m);
    return dflt], for a method whose block only reads.  [None] is the
    [None] of a method that falls off its end. *)
Definition method {A} (f : fault) (m : msg) (dflt : A) (body : sql A)
  : list msg * option A :=
  match with_connection f (fun _ => false) body with
  | SqlOk (out, r, _) => (out, r)
  | SqlError => ([m], Some dflt)
  end.

(** *** get_random_joke *)

(** What the method returns: [{"id": ..., "text": ...}]; the recommender
    adds the three theme keys. *)
Record joke_view :=
  { jv_id : Z; jv_text : string; jv_theme : option (Z * string * string) }.

(** The text of the query, as far as name resolution and filtering see it. *)
Inductive from_clause :=
  | FromJokes                 (* FROM jokes *)
  | FromJokesJoinThemes.      (* FROM jokes j JOIN joke_themes jt ON j.id = jt.joke_id *)

Inductive qualifier := Bare | QualJ | QualJT.

Inductive condition :=
  | IsApproved (q : qualifier)                 (* [q.]is_approved = 1 *)
  | ThemeIdIs (q : qualifier) (theme_id : Z)   (* [q.]theme_id = ? *)
  | IdNotIn (q : qualifier) (ids : list Z).    (* [q.]id NOT IN (...) *)

Record query := { q_from : from_clause; q_where : list condition }.

(** Does the column a condition names exist in the FROM clause? *)
Definition resolves (fc : from_clause) (c : condition) : bool :=
  match fc, c with
  | FromJokes, IsApproved Bare => true
  | FromJokes, IdNotIn Bare _ => true
  | FromJokes, _ => false
  | FromJokesJoinThemes, IsApproved (Bare | QualJ) => true
  | FromJokesJoinThemes, ThemeIdIs (Bare | QualJT) _ => true
  | FromJokesJoinThemes, IdNotIn (Bare | QualJ) _ => true
  | FromJokesJoinThemes, _ => false
  end.

Definition source_rows (d : db) (fc : from_clause)
  : list (joke_row * option joke_theme_row) :=
  match fc with
  | FromJokes => List.map (fun j => (j, None)) (jokes d)
  | FromJokesJoinThemes =>
      List.flat_map
        (fun j =>
           List.map (fun jt => (j, Some jt))
             (List.filter (fun jt => Z.eqb (j_id j) (jt_joke_id jt))
                (joke_themes d)))
        (jokes d)
  end.

Definition holds (c : condition) (r : joke_row * option joke_theme_row) : bool :=
  match c with
  | IsApproved _ => j_is_approved (fst r)
  | ThemeIdIs _ t =>
      match snd r with
      | Some jt => Z.eqb (jt_theme_id jt) t
      | None => false
      end
  | IdNotIn _ ids => negb (existsb (Z.eqb (j_id (fst r))) ids)
  end.

(** The rows the WHERE clause keeps, or [sqlite3.OperationalError] (no
    such column). *)
Definition select_rows (d : db) (q : query) : sql (list joke_row) :=
  if forallb (resolves (q_from q)) (q_where q)
  then SqlOk
         (List.map fst
            (List.filter (fun r => forallb (fun c => holds c r) (q_where q))
               (source_rows d (q_from q))))
  else SqlError.

(** [ORDER BY RANDOM() LIMIT 1] then [fetchone()]: one of the rows, each
    with the same chance; [pick] is the draw. *)
Definition random_row {A} (pick : nat) (rows : list A) : option A :=
  match rows with
  | [] => None
  | _ => nth_error rows (pick mod length rows)
  end.

(** [if theme_id:] *)
Definition theme_given (theme_id : option Z) : option Z :=
  match theme_id with
  | Some t => if Z.eqb t 0 then None else Some t
  | None => None
  end.

(** The two base queries and the exclusion clause appended to either. *)
Definition build_query (excluded_ids : option (list Z)) (theme_id : option Z)
  : query :=
  let base :=
    match theme_given theme_id with
    | Some t =>
        {| q_from := FromJokesJoinThemes;
           q_where := [IsApproved QualJ; ThemeIdIs QualJT t] |}
    | None =>
        {| q_from := FromJokes; q_where := [IsApproved Bare] |}
    end in
  match excluded_ids with
  | Some ((_ :: _) as ids) =>
      {| q_from := q_from base;
         q_where := q_where base ++ [IdNotIn QualJ ids] |}
  | _ => base
  end.

Definition get_random_joke (d : db) (f : fault) (pick : nat)
    (excluded_ids : option (list Z)) (theme_id : option Z)
  : list msg * option joke_view :=
  let body :=
    sql_bind (execute f (select_rows d (build_query excluded_ids theme_id)))
      (fun rows =>
         SqlOk
           (match random_row pick rows with
            | Some row =>
                Some {| jv_id := j_id row; jv_text := j_text row;
                        jv_theme := None |}
            | None => None
            end)) in
  match method f MsgRandomJokeError None body with
  | (out, Some r) => (out, r)
  | (out, None) => (out, None)
  end.

(** *** get_joke_themes *)

(** One row of the themes-of-a-joke query: [t.id, t.name, t.emoji,
    jt.weight]. *)
Record joke_theme :=
  { th_id : Z; th_name : string; th_emoji : string; th_weight : option Q }.

(** [FROM themes t JOIN joke_themes jt ON t.id = jt.theme_id
    WHERE jt.joke_id = ?] *)
Definition joke_theme_rows (d : db) (joke_id : Z) : list joke_theme :=
  List.flat_map
    (fun jt =>
       List.map
         (fun t => {| th_id := t_id t; th_name := t_name t;
                      th_emoji := t_emoji t; th_weight := jt_weight jt |})
         (List.filter (fun t => Z.eqb (t_id t) (jt_theme_id jt)) (themes d)))
    (List.filter (fun jt => Z.eqb (jt_joke_id jt) joke_id) (joke_themes d)).

Definition get_joke_themes (d : db) (f : fault) (joke_id : Z)
  : list msg * option (list joke_theme) :=
  method f MsgJokeThemesError []
    (execute f (SqlOk (joke_theme_rows d joke_id))).

(** *** get_user_preferences *)

(** The value the preferences dict holds for a theme.  A field is [None]
    when the dict has no such key: the recommender reads the dict with
    [.get(key, default)]. *)
Record theme_data :=
  { td_name : option string; td_emoji : option string;
    td_score : option Q; td_interactions : option Z }.

(** A Python dict with integer keys, in insertion order. *)
Definition dict (V : Type) : Type := list (Z * V).

(** [d[k] = v]: replaces the value of an existing key in place, appends a
    new key. *)
Fixpoint dict_set {V} (d : dict V) (k : Z) (v : V) : dict V :=
  match d with
  | [] => [(k, v)]
  | (k', v') :: d' =>
      if Z.eqb k' k then (k, v) :: d' else (k', v') :: dict_set d' k v
  end.

Fixpoint dict_get {V} (d : dict V) (k : Z) : option V :=
  match d with
  | [] => None
  | (k', v') :: d' => if Z.eqb k' k then Some v' else dict_get d' k
  end.

(** [ORDER BY t.id]: insertion of a row before the first row with a larger
    id. *)
Fixpoint insert_by_id (t : theme_row) (ts : list theme_row) : list theme_row :=
  match ts with
  | [] => [t]
  | t' :: ts' =>
      if Z.leb (t_id t) (t_id t') then t :: ts else t' :: insert_by_id t ts'
  end.

Definition order_by_id (ts : list theme_row) : list theme_row :=
  List.fold_right insert_by_id [] ts.

(** [FROM themes t LEFT JOIN user_preferences up ON t.id = up.theme_id
    AND up.user_id = ?]: one row per theme, with NULL score and
    interactions for a theme the user has no row for. *)
Definition preference_rows (d : db) (user_id : Z)
  : list (theme_row * option pref_row) :=
  List.map (fun t => (t, user_preferences d !! (user_id, t_id t)))
    (order_by_id (themes d)).

Definition preferences_of_rows (rows : list (theme_row * option pref_row))
  : dict theme_data :=
  List.fold_left
    (fun prefs row =>
       dict_set prefs (t_id (fst row))
         {| td_name := Some (t_name (fst row));
            td_emoji := Some (t_emoji (fst row));
            td_score := Some (Py.float_or (up_score <$> snd row) 0%Q);
            td_interactions :=
              Some (Py.int_or (up_interactions <$> snd row) 0%Z) |})
    rows [].

Definition get_user_preferences (d : db) (f : fault) (user_id : Z)
  : list msg * option (dict theme_data) :=
  method f MsgPreferencesError []
    (sql_bind (execute f (SqlOk (preference_rows d user_id)))
       (fun rows => SqlOk (preferences_of_rows rows))).

(** *** update_user_preference *)

Definition _update_single_theme_preference (f : fault)
    (prefs : gmap (Z * Z) pref_row) (user_id : Z) (theme : joke_theme)
    (liked : bool) : sql (gmap (Z * Z) pref_row) :=
  let theme_id := th_id theme in
  let weight := Py.float_or (th_weight theme) 1%Q in
  sql_bind (execute f (SqlOk (prefs !! (user_id, theme_id))))
    (fun row =>
       let current_score :=
         match row with
         | Some r => up_score r
         | None => 0%Q
         end in
       let delta := ((1 # 10) * weight)%Q in
       let new_score :=
         if liked
         then Py.min 1%Q (current_score + delta)%Q
         else Py.max (- (1))%Q (current_score - delta)%Q in
       execute f
         (SqlOk
            (<[(user_id, theme_id) :=
                 {| up_score := new_score;
                    up_interactions :=
                      match prefs !! (user_id, theme_id) with
                      | Some r => (up_interactions r + 1)%Z
                      | None => 1%Z
                      end |}]> prefs))).

(** [for theme in themes: self._update_single_theme_preference(...)] *)
Fixpoint update_each_theme (f : fault) (prefs : gmap (Z * Z) pref_row)
    (user_id : Z) (themes : list joke_theme) (liked : bool)
  : sql (gmap (Z * Z) pref_row) :=
  match themes with
  | [] => SqlOk prefs
  | theme :: rest =>
      sql_bind (_update_single_theme_preference f prefs user_id theme liked)
        (fun prefs' => update_each_theme f prefs' user_id rest liked)
  end.

(** [f] is the storage condition of the method's own connection, [ft]
    that of the connection [get_joke_themes] opens.  The block has
    written exactly on the path that returns [True].  The store after
    the call is the committed one, or the one before the call after a
    rollback. *)
Definition update_user_preference (d : db) (f ft : fault)
    (user_id joke_id : Z) (liked : bool)
  : list msg * option bool * db :=
  let (out_t, themes) := get_joke_themes d ft joke_id in
  let body :=
    match themes with
    | None | Some [] => SqlOk (false, user_preferences d)
    | Some ths =>
        sql_bind (update_each_theme f (user_preferences d) user_id ths liked)
          (fun prefs' => SqlOk (true, prefs'))
    end in
  match with_connection f fst body with
  | SqlOk (out, Some (r, prefs'), true) =>
      (out_t ++ out, Some r, set_user_preferences d prefs')
  | SqlOk (out, Some (r, _), false) => (out_t ++ out, Some r, d)
  | SqlOk (out, None, _) => (out_t ++ out, None, d)
  | SqlError => ([MsgUpdateError], Some false, d)
  end.

(** *** get_user_interactions *)

Definition get_user_interactions (d : db) (f : fault) (user_id : Z)
  : list msg * option (list Z) :=
  method f MsgInteractionsError []
    (execute f
       (SqlOk
          (List.map i_joke_id
             (List.filter (fun i => Z.eqb (i_user_id i) user_id)
                (interactions d))))).

End Database.

(** ** recommendations.py *)

Module Recommender.
Import Database.

(** *** Exceptions *)

Inductive exn := ValueError | TypeError | KeyError | AttributeError | IndexError.

Inductive result (A : Type) : Type :=
  | Ok (a : A)
  | Raise (e : exn).
Arguments Ok {A} a.
Arguments Raise {A} e.

(** *** The recommender object *)

Record recommender :=
  { themes_count : Z;
    learning_rate : Q;
    exploration_rate : Q;
    user_view_history : gmap Z (gset Z) }.

(** [__init__] *)
Definition init : recommender :=
  {| themes_count := 5; learning_rate := 1 # 10; exploration_rate := 1 # 10;
     user_view_history := ∅ |}.

Definition set_user_view_history (self : recommender) (h : gmap Z (gset Z))
  : recommender :=
  {| themes_count := themes_count self; learning_rate := learning_rate self;
     exploration_rate := exploration_rate self; user_view_history := h |}.

(** *** The environment of one call

    The storage condition met by each call of a [Database] method, and
    the value of each random draw. *)

Record storage :=
  { st_preferences : fault;      (* get_user_preferences *)
    st_interactions : fault;     (* get_user_interactions *)
    st_explore : fault;          (* get_random_joke of the exploration *)
    st_theme : fault;            (* get_random_joke within the chosen theme *)
    st_fallback : fault;         (* get_random_joke of _get_fallback_joke *)
    st_plain : fault }.          (* get_random_joke() without arguments *)

Record draws :=
  { explore_u : Q;               (* random.random() of _try_exploration_joke *)
    jitter : nat -> Q;           (* random.uniform(-0.05, 0.05), per weight *)
    choice_u : Q;                (* random.random() inside random.choices *)
    pick_explore : nat;          (* ORDER BY RANDOM() of each query *)
    pick_theme : nat;
    pick_fallback : nat;
    pick_plain : nat }.

(** *** random.choices

    CPython: cumulative weights, then [bisect] of [random() * total] in
    them with [hi = n - 1]. *)

Fixpoint accumulate_from (acc : Q) (ws : list Q) : list Q :=
  match ws with
  | [] => []
  | w :: ws' => (acc + w)%Q :: accumulate_from (acc + w)%Q ws'
  end.

Definition accumulate (ws : list Q) : list Q :=
  match ws with
  | [] => []
  | w :: ws' => w :: accumulate_from w ws'
  end.

(** [bisect(a, x, 0, hi)] on a non-decreasing [a]: the first index below
    [hi] whose element exceeds [x], else [hi]. *)
Fixpoint bisect (a : list Q) (x : Q) (hi : nat) : nat :=
  match hi, a with
  | S hi', e :: a' => if Qlt_le_dec x e then O else S (bisect a' x hi')
  | _, _ => O
  end.

Definition choices (population : list Z) (weights : list Q) (u : Q)
  : result Z :=
  let n := length population in
  let cum_weights := accumulate weights in
  if negb (Nat.eqb (length cum_weights) n) then Raise ValueError else
  match List.last (List.map Some cum_weights) None with
  | None => Raise IndexError
  | Some total =>
      if Qle_bool total 0 then Raise ValueError else
      match nth_error population (bisect cum_weights (u * total)%Q (n - 1)) with
      | Some x => Ok x
      | None => Raise IndexError
      end
  end.

(** *** Candidate queries *)

Definition view_history_of (self : recommender) (user_id : Z) : list Z :=
  match (user_view_history self !! user_id : option (gset Z)) with
  | Some s => elements s
  | None => []
  end.

(** [Database.get_random_joke] raises neither [ValueError] nor
    [AttributeError], so the [except] clause of this method is never
    entered. *)
Definition _get_random_joke_with_exclusions (self : recommender) (d : db)
    (f : fault) (pick : nat) (user_id : Z) (theme_id : option Z)
  : list msg * option joke_view :=
  let excluded_ids := view_history_of self user_id in
  get_random_joke d f pick (Some excluded_ids) theme_id.

(** *** _update_view_history

    [set(None)] and [s.update(None)] raise [TypeError] before anything is
    stored; the method catches [AttributeError] only.  The order in which
    [list] enumerates a Python set is left to the implementation;
    [elements] fixes one. *)
Definition _update_view_history (self : recommender) (d : db) (f : fault)
    (user_id : Z) : list msg * result recommender :=
  let (out, viewed_ids) := get_user_interactions d f user_id in
  match viewed_ids with
  | None => (out, Raise TypeError)
  | Some ids =>
      let merged : gset Z :=
        match (user_view_history self !! user_id : option (gset Z)) with
        | None => list_to_set ids
        | Some s => s ∪ list_to_set ids
        end in
      let trimmed : gset Z :=
        if Nat.ltb 100 (size merged)
        then
          let l := elements merged in
          list_to_set (drop (length l - 50) l)
        else merged in
      (out,
       Ok (set_user_view_history self
             (<[user_id := trimmed]> (user_view_history self))))
  end.

Definition _try_exploration_joke (self : recommender) (d : db)
    (st : storage) (r : draws) (user_id : Z)
  : list msg * option joke_view :=
  if Qlt_le_dec (explore_u r) (exploration_rate self)
  then
    let (out, joke) :=
      _get_random_joke_with_exclusions self d (st_explore st)
        (pick_explore r) user_id None in
    (MsgExploring user_id :: out, joke)
  else ([], None).

Definition _get_fallback_joke (self : recommender) (d : db)
    (st : storage) (r : draws) (user_id : Z)
  : list msg * option joke_view :=
  let (out, joke) :=
    _get_random_joke_with_exclusions self d (st_fallback st)
      (pick_fallback r) user_id None in
  match joke with
  | Some j => (out ++ [MsgFallback (jv_id j)], joke)
  | None => (out, joke)
  end.

Definition _search_joke_in_theme (self : recommender) (d : db)
    (st : storage) (r : draws) (user_id theme_id : Z)
    (preferences : dict theme_data)
  : list msg * result (option joke_view) :=
  let (out, joke) :=
    _get_random_joke_with_exclusions self d (st_theme st) (pick_theme r)
      user_id (Some theme_id) in
  match joke, dict_get preferences theme_id with
  | Some j, Some data =>
      match td_name data, td_emoji data with
      | Some name, Some emoji =>
          (out,
           Ok (Some {| jv_id := jv_id j; jv_text := jv_text j;
                       jv_theme := Some (theme_id, name, emoji) |}))
      | _, _ => (out, Raise KeyError)
      end
  | _, _ => (out, Ok joke)
  end.

(** *** Theme probabilities *)

Definition _calculate_theme_probability (theme_data : theme_data) : Q :=
  let score := default 0%Q (td_score theme_data) in
  let interactions := default 0%Z (td_interactions theme_data) in
  let probability := ((score + 1) / 2)%Q in
  let probability :=
    if Z.ltb interactions 5 then Py.max probability (3 # 10) else probability in
  let probability :=
    if Qlt_le_dec score (- (1 # 2)) then (probability * (3 # 10))%Q
    else probability in
  probability.

Definition _normalize_probabilities (theme_probabilities : list (Z * Q))
  : list (Z * Q) :=
  match theme_probabilities with
  | [] => []
  | _ =>
      let total_prob := Py.sum (List.map snd theme_probabilities) in
      if Qlt_le_dec 0 total_prob
      then List.map (fun tp => (fst tp, (snd tp / total_prob)%Q))
             theme_probabilities
      else List.map
             (fun tp =>
                (fst tp,
                 (1 / inject_Z (Z.of_nat (length theme_probabilities)))%Q))
             theme_probabilities
  end.

(** The loop of [_calculate_theme_probabilities]: the themes whose
    probability is positive, in the order of the dict. *)
Fixpoint positive_probabilities (preferences : dict theme_data)
  : list (Z * Q) :=
  match preferences with
  | [] => []
  | (theme_id, data) :: rest =>
      let probability := _calculate_theme_probability data in
      if Qlt_le_dec 0 probability
      then (theme_id, probability) :: positive_probabilities rest
      else positive_probabilities rest
  end.

Definition _calculate_theme_probabilities (preferences : dict theme_data)
  : list (Z * Q) :=
  _normalize_probabilities (positive_probabilities preferences).

Definition _choose_theme_by_probability (r : draws)
    (theme_probabilities : list (Z * Q)) : result Z :=
  let themes := List.map fst theme_probabilities in
  let weights := List.map snd theme_probabilities in
  let weights :=
    if Nat.ltb 1 (length themes)
    then List.map (fun w => Py.max w (1 # 100))
           (imap (fun i w => (w + jitter r i)%Q) weights)
    else weights in
  choices themes weights (choice_u r).

(** *** get_recommended_joke *)

(** The body of the [try]. *)
Definition recommend_body (self : recommender) (d : db) (st : storage)
    (r : draws) (user_id : Z)
  : list msg * recommender * result (option joke_view) :=
  let (o1, preferences) := get_user_preferences d (st_preferences st) user_id in
  match preferences with
  | None | Some [] =>
      let (o2, joke) := get_random_joke d (st_plain st) (pick_plain r) None None in
      (o1 ++ MsgNoPreferences user_id :: o2, self, Ok joke)
  | Some preferences =>
      let (o2, updated) := _update_view_history self d (st_interactions st) user_id in
      match updated with
      | Raise e => (o1 ++ o2, self, Raise e)
      | Ok self =>
          let (o3, joke) := _try_exploration_joke self d st r user_id in
          match joke with
          | Some j =>
              (o1 ++ o2 ++ o3 ++ [MsgExplorationShown user_id], self,
               Ok (Some j))
          | None =>
              let theme_probabilities :=
                _calculate_theme_probabilities preferences in
              match theme_probabilities with
              | [] =>
                  let (o4, joke) := _get_fallback_joke self d st r user_id in
                  (o1 ++ o2 ++ o3 ++ MsgAllZero user_id :: o4, self, Ok joke)
              | _ =>
                  let o4 :=
                    MsgProbabilities user_id
                      :: List.map
                           (fun tp => MsgThemeProbability (fst tp) (snd tp))
                           theme_probabilities in
                  match _choose_theme_by_probability r theme_probabilities with
                  | Raise e => (o1 ++ o2 ++ o3 ++ o4, self, Raise e)
                  | Ok chosen_theme =>
                      let o5 := [MsgThemeChosen chosen_theme user_id] in
                      let (o6, found) :=
                        _search_joke_in_theme self d st r user_id
                          chosen_theme preferences in
                      match found with
                      | Raise e =>
                          (o1 ++ o2 ++ o3 ++ o4 ++ o5 ++ o6, self, Raise e)
                      | Ok (Some j) =>
                          (o1 ++ o2 ++ o3 ++ o4 ++ o5 ++ o6
                             ++ [MsgJokeFound (jv_id j) chosen_theme],
                           self, Ok (Some j))
                      | Ok None =>
                          let (o7, joke) :=
                            _get_fallback_joke self d st r user_id in
                          (o1 ++ o2 ++ o3 ++ o4 ++ o5 ++ o6
                             ++ MsgJokeNotFound chosen_theme :: o7,
                           self, Ok joke)
                      end
                  end
              end
          end
      end
  end.

(** The [try] with its two [except] clauses; any other exception leaves
    the method. *)
Definition get_recommended_joke (self : recommender) (d : db) (st : storage)
    (r : draws) (user_id : Z)
  : list msg * recommender * result (option joke_view) :=
  match recommend_body self d st r user_id with
  | (out, self', Raise (ValueError | TypeError | KeyError)) =>
      let (o, joke) := get_random_joke d (st_plain st) (pick_plain r) None None in
      (out ++ MsgRecommendError user_id :: o, self', Ok joke)
  | (out, self', Raise AttributeError) =>
      (out ++ [MsgRecommendDbError], self', Ok None)
  | other => other
  end.

(** *** get_user_profile *)

Record theme_profile :=
  { tp_id : Z; tp_name : string; tp_emoji : string;
    tp_score : Q; tp_interactions : Z }.

Record profile :=
  { profile_themes : list theme_profile;
    total_interactions : Z;
    favorite_theme : option Z;
    least_favorite_theme : option Z;
    most_interacted_theme : option Z }.

(** [sorted(xs, key=lambda x: x['score'], reverse=True)]: descending and
    stable, so that entries of equal score keep their order. *)
Fixpoint insert_by_score (x : theme_profile) (xs : list theme_profile)
  : list theme_profile :=
  match xs with
  | [] => [x]
  | y :: ys =>
      if Qlt_le_dec (tp_score x) (tp_score y)
      then y :: insert_by_score x ys
      else x :: xs
  end.

Definition sorted_by_score_desc (xs : list theme_profile)
  : list theme_profile :=
  List.fold_right insert_by_score [] xs.

(** The variables the loop of [_create_user_profile] carries. *)
Record profile_loop :=
  { acc : profile; max_score : Q; min_score : Q; max_interactions : Z }.

Definition profile_step (s : profile_loop) (item : Z * theme_data)
  : profile_loop :=
  let theme_id := fst item in
  let data := snd item in
  let theme_profile :=
    {| tp_id := theme_id;
       tp_name := default "Неизвестно"%string (td_name data);
       tp_emoji := default "❓"%string (td_emoji data);
       tp_score := default 0%Q (td_score data);
       tp_interactions := default 0%Z (td_interactions data) |} in
  let score := default 0%Q (td_score data) in
  let interactions := default 0%Z (td_interactions data) in
  let p := acc s in
  let raise_max := Qlt_le_dec (max_score s) score in
  let lower_min := Qlt_le_dec score (min_score s) in
  let raise_int := Z.ltb (max_interactions s) interactions in
  {| acc :=
       {| profile_themes := profile_themes p ++ [theme_profile];
          total_interactions := (total_interactions p + interactions)%Z;
          favorite_theme :=
            if raise_max then Some theme_id else favorite_theme p;
          least_favorite_theme :=
            if lower_min then Some theme_id else least_favorite_theme p;
          most_interacted_theme :=
            if raise_int then Some theme_id else most_interacted_theme p |};
     max_score := if raise_max then score else max_score s;
     min_score := if lower_min then score else min_score s;
     max_interactions :=
       if raise_int then interactions else max_interactions s |}.

Definition profile_start : profile_loop :=
  {| acc :=
       {| profile_themes := []; total_interactions := 0;
          favorite_theme := None; least_favorite_theme := None;
          most_interacted_theme := None |};
     max_score := - (1); min_score := 1; max_interactions := -1 |}.

Definition _create_user_profile (preferences : dict theme_data) : profile :=
  let p := acc (List.fold_left profile_step preferences profile_start) in
  {| profile_themes := sorted_by_score_desc (profile_themes p);
     total_interactions := total_interactions p;
     favorite_theme := favorite_theme p;
     least_favorite_theme := least_favorite_theme p;
     most_interacted_theme := most_interacted_theme p |}.

(** Nothing in the [try] of this method raises. *)
Definition get_user_profile (d : db) (f : fault) (user_id : Z)
  : list msg * option profile :=
  let (out, preferences) := get_user_preferences d f user_id in
  match preferences with
  | None | Some [] => (out ++ [MsgNoProfile user_id], None)
  | Some preferences => (out, Some (_create_user_profile preferences))
  end.

End Recommender.

(** ** database_sqlite.py: the methods around the engine *)

Module Bookkeeping.
Import Database.

(** *** Console output of these methods *)

Inductive note : Type :=
  | Printed (m : msg)                    (* a line of the methods above *)
  | NoteUserCreated (first_name : string) (user_id : Z)
  | NoteUserError                        (* get_or_create_user, except *)
  | NoteJokeAdded (joke_id : Z) (themes : list Z)
  | NoteAddJokeError                     (* add_user_joke, except *)
  | NoteAddInteractionError              (* add_interaction, except *)
  | NoteFavoriteError                    (* add_favorite, except *)
  | NoteFavoritesError                   (* get_user_favorites, except *)
  | NotePendingCountError                (* get_pending_jokes_count, except *)
  | NoteStatisticsError.                 (* get_themes_statistics, except *)

(** [try: with get_connection() ... except sqlite3.Error: print(n);
    return dflt], for a method that reads. *)
Definition reading {A} (f : fault) (n : note) (dflt : A) (body : sql A)
  : list note * option A :=
  match with_connection f (fun _ => false) body with
  | SqlOk (out, r, _) => (List.map Printed out, r)
  | SqlError => ([n], Some dflt)
  end.

(** Whether a path of a writing method has written: it has when it
    yields tables to commit. *)
Definition has_written {A S} (r : A * list note * option S) : bool :=
  match snd r with
  | Some _ => true
  | None => false
  end.

(** The same for a method that writes: [body] yields the value to return,
    what it printed and, when it has written, the tables to commit; after
    a rollback the tables are those before the call. *)
Definition writing {A S} (f : fault) (n : note) (dflt : A) (before : S)
    (body : sql (A * list note * option S)) : list note * option A * S :=
  match with_connection f has_written body with
  | SqlOk (out, Some (r, printed, Some after), true) =>
      (printed ++ List.map Printed out, Some r, after)
  | SqlOk (out, Some (r, printed, _), _) =>
      (printed ++ List.map Printed out, Some r, before)
  | SqlOk (out, None, _) => (List.map Printed out, None, before)
  | SqlError => ([n], Some dflt, before)
  end.

(** *** add_interaction *)

Definition set_interactions (d : db) (rows : list interaction_row) : db :=
  {| themes := themes d; jokes := jokes d; joke_themes := joke_themes d;
     user_preferences := user_preferences d; interactions := rows |}.

Definition rated_pair (user_id joke_id : Z) (i : interaction_row) : bool :=
  Z.eqb (i_user_id i) user_id && Z.eqb (i_joke_id i) joke_id.

(** [INSERT OR REPLACE INTO interactions]: the rows in conflict on
    [UNIQUE(user_id, joke_id)] are deleted and the new row gets a new id,
    after every other row. *)
Definition add_interaction (d : db) (f : fault) (user_id joke_id : Z)
    (liked : bool) : list note * option bool * db :=
  writing f NoteAddInteractionError false d
    (sql_bind
       (execute f
          (SqlOk
             (List.filter (fun i => negb (rated_pair user_id joke_id i))
                (interactions d)
              ++ [ {| i_user_id := user_id; i_joke_id := joke_id;
                      i_liked := liked |} ])))
       (fun rows => SqlOk (true, [], Some (set_interactions d rows)))).

(** *** get_themes_statistics *)

Record theme_stat := { ts_name : string; ts_total : Z; ts_approved : Z }.

(** The rows of [themes t LEFT JOIN joke_themes jt ON t.id = jt.theme_id]
    in the group of [theme_id] whose [jt.joke_id] is not NULL. *)
Definition links_in_group (d : db) (theme_id : Z) : list joke_theme_row :=
  List.flat_map
    (fun t : theme_row =>
       List.filter (fun jt => Z.eqb (t_id t) (jt_theme_id jt)) (joke_themes d))
    (List.filter (fun t => Z.eqb (t_id t) theme_id) (themes d)).

(** [SELECT COUNT(DISTINCT jt.joke_id) FROM joke_themes jt JOIN jokes j
    ON jt.joke_id = j.id WHERE jt.theme_id = ? AND j.is_approved = 1] *)
Definition approved_in_theme (d : db) (theme_id : Z) : list Z :=
  remove_dups
    (List.map jt_joke_id
       (List.filter
          (fun jt =>
             Z.eqb (jt_theme_id jt) theme_id
             && existsb
                  (fun j => Z.eqb (jt_joke_id jt) (j_id j) && j_is_approved j)
                  (jokes d))
          (joke_themes d))).

(** [GROUP BY t.id]: one group per id, in the order of the ids; the name
    is that of a row of the group. *)
Definition statistics_rows (d : db) : list theme_stat :=
  List.map
    (fun theme_id =>
       {| ts_name :=
            match List.find (fun t => Z.eqb (t_id t) theme_id) (themes d) with
            | Some t => t_name t
            | None => EmptyString
            end;
          ts_total := Z.of_nat (length (links_in_group d theme_id));
          ts_approved := Z.of_nat (length (approved_in_theme d theme_id)) |})
    (remove_dups (List.map t_id (order_by_id (themes d)))).

Definition get_themes_statistics (d : db) (f : fault)
  : list note * option (list theme_stat) :=
  reading f NoteStatisticsError []
    (execute f (SqlOk (statistics_rows d))).

(** *** The whole database

    The tables and columns the engine does not read: the author and the
    status of a joke, the users, the favorites, and the counters of the
    two AUTOINCREMENT keys the methods below draw from. *)

Record joke_record :=
  { jr_joke : joke_row; jr_author_id : option Z; jr_status : string }.

Record user_row :=
  { u_id : Z; u_telegram_id : Z; u_username : option string;
    u_first_name : string; u_last_name : option string }.

Record favorite_row := { f_user_id : Z; f_joke_id : Z; f_created_at : Z }.

Record store :=
  { s_themes : list theme_row;
    s_jokes : list joke_record;
    s_jokes_seq : Z;
    s_joke_themes : list joke_theme_row;
    s_users : list user_row;
    s_users_seq : Z;
    s_user_preferences : gmap (Z * Z) pref_row;
    s_interactions : list interaction_row;
    s_favorites : list favorite_row }.

(** What the methods of the engine see of the store. *)
Definition engine_view (s : store) : db :=
  {| themes := s_themes s;
     jokes := List.map jr_joke (s_jokes s);
     joke_themes := s_joke_themes s;
     user_preferences := s_user_preferences s;
     interactions := s_interactions s |}.

(** The id of a row inserted into an AUTOINCREMENT table: one more than
    the largest id the table holds or has ever held. *)
Definition next_rowid (seq : Z) (ids : list Z) : Z :=
  (Z.max seq (List.fold_right Z.max 0 ids) + 1)%Z.

(** *** get_or_create_user *)

(** The dict the method returns. *)
Record user_info :=
  { ui_id : Z; ui_telegram_id : Z; ui_username : option string;
    ui_first_name : string; ui_last_name : option string }.

(** [INSERT INTO user_preferences (user_id, theme_id, score) VALUES
    (?, ?, 0.0)] for each theme id: an existing row for the key violates
    the primary key. *)
Fixpoint insert_neutral_rows (f : fault) (prefs : gmap (Z * Z) pref_row)
    (user_id : Z) (theme_ids : list Z) : sql (gmap (Z * Z) pref_row) :=
  match theme_ids with
  | [] => SqlOk prefs
  | theme_id :: rest =>
      sql_bind
        (execute f
           (match prefs !! (user_id, theme_id) with
            | Some _ => SqlError
            | None =>
                SqlOk (<[(user_id, theme_id) :=
                           {| up_score := 0; up_interactions := 0 |}]> prefs)
            end))
        (fun prefs' => insert_neutral_rows f prefs' user_id rest)
  end.

Definition get_or_create_user (s : store) (f : fault) (telegram_id : Z)
    (username : option string) (first_name : string)
    (last_name : option string) : list note * option user_info * store :=
  let info (id : Z) :=
    {| ui_id := id; ui_telegram_id := telegram_id; ui_username := username;
       ui_first_name := first_name; ui_last_name := last_name |} in
  writing f NoteUserError (info telegram_id) s
    (sql_bind
       (execute f
          (SqlOk
             (List.find (fun u => Z.eqb (u_telegram_id u) telegram_id)
                (s_users s))))
       (fun row =>
          match row with
          | Some u => SqlOk (info (u_id u), [], None)
          | None =>
              let user_id :=
                next_rowid (s_users_seq s) (List.map u_id (s_users s)) in
              sql_bind
                (insert_neutral_rows f (s_user_preferences s) user_id
                   [1; 2; 3; 4; 5]%Z)
                (fun prefs =>
                   SqlOk
                     (info user_id,
                      [NoteUserCreated first_name user_id],
                      Some
                      {| s_themes := s_themes s;
                         s_jokes := s_jokes s;
                         s_jokes_seq := s_jokes_seq s;
                         s_joke_themes := s_joke_themes s;
                         s_users :=
                           s_users s
                           ++ [ {| u_id := user_id;
                                   u_telegram_id := telegram_id;
                                   u_username := username;
                                   u_first_name := first_name;
                                   u_last_name := last_name |} ];
                         s_users_seq := user_id;
                         s_user_preferences := prefs;
                         s_interactions := s_interactions s;
                         s_favorites := s_favorites s |}))
          end)).

(** *** classify_joke *)

(** [word in text] *)
Fixpoint occurs (word text : string) : bool :=
  String.prefix word text
  || match text with
     | EmptyString => false
     | String _ rest => occurs word rest
     end.

(** The keyword table, in the order of the dict. *)
Definition keywords : list (Z * list string) :=
  [ (1%Z, [ "работа"; "офис"; "начальник"; "коллега"; "зарплата";
            "совещание"; "отчет"; "дедлайн" ]);
    (2%Z, [ "студент"; "универ"; "сессия"; "экзамен"; "зачет"; "препод";
            "лекция"; "институт"; "общежитие" ]);
    (3%Z, [ "кот"; "собака"; "мышь"; "медведь"; "съел"; "поймал";
            "корова"; "попугай" ]);
    (4%Z, [ "смерть"; "умер"; "Штирлиц"; "Мюллер"; "бар"; "проститутка";
            "негр" ]);
    (5%Z, []) ].

Section Classification.

(** [str.lower] *)
Variable lower : string -> string.

(** [any(word in joke_text_lower for word in words)] *)
Definition mentions (joke_text_lower : string) (words : list string) : bool :=
  existsb (fun word => occurs word joke_text_lower) words.

Definition classify_joke (joke_text : string) : list Z :=
  let joke_text_lower := lower joke_text in
  let themes :=
    List.map fst
      (List.filter (fun kw => mentions joke_text_lower (snd kw)) keywords) in
  match themes with
  | [] => [5%Z]
  | _ => themes
  end.

(** *** add_user_joke *)

(** The dict the method returns; [None] after a failure of either kind. *)
Record added_joke :=
  { aj_joke_id : Z; aj_author_username : string; aj_author_name : string }.

(** [INSERT INTO joke_themes (joke_id, theme_id) VALUES (?, ?)] for each
    theme: the weight is the default 1.0, and an existing link for the key
    violates the primary key. *)
Fixpoint insert_links (f : fault) (links : list joke_theme_row)
    (joke_id : Z) (theme_ids : list Z) : sql (list joke_theme_row) :=
  match theme_ids with
  | [] => SqlOk links
  | theme_id :: rest =>
      sql_bind
        (execute f
           (if existsb
                 (fun jt =>
                    Z.eqb (jt_joke_id jt) joke_id
                    && Z.eqb (jt_theme_id jt) theme_id)
                 links
            then SqlError
            else
              SqlOk
                (links
                 ++ [ {| jt_joke_id := joke_id; jt_theme_id := theme_id;
                         jt_weight := Some 1%Q |} ])))
        (fun links' => insert_links f links' joke_id rest)
  end.

Definition add_user_joke (s : store) (f : fault) (text : string)
    (author_id : Z) : list note * option added_joke * store :=
  let '(out, r, s') :=
    writing f NoteAddJokeError None s
    (sql_bind
       (execute f
          (SqlOk
             (next_rowid (s_jokes_seq s)
                (List.map (fun j => j_id (jr_joke j)) (s_jokes s)))))
       (fun joke_id =>
          let themes := classify_joke text in
          sql_bind (insert_links f (s_joke_themes s) joke_id themes)
            (fun links =>
               SqlOk
                 (Some {| aj_joke_id := joke_id;
                          aj_author_username := "user";
                          aj_author_name := "Пользователь" |},
                  [NoteJokeAdded joke_id themes],
                  Some
                  {| s_themes := s_themes s;
                     s_jokes :=
                       s_jokes s
                       ++ [ {| jr_joke :=
                                 {| j_id := joke_id; j_text := text;
                                    j_is_approved := false |};
                               jr_author_id := Some author_id;
                               jr_status := "pending" |} ];
                     s_jokes_seq := joke_id;
                     s_joke_themes := links;
                     s_users := s_users s;
                     s_users_seq := s_users_seq s;
                     s_user_preferences := s_user_preferences s;
                     s_interactions := s_interactions s;
                     s_favorites := s_favorites s |})))) in
  (out, match r with Some (Some added) => Some added | _ => None end, s').

End Classification.

(** *** get_pending_jokes_count *)

Definition pending_jokes (s : store) : list joke_record :=
  List.filter (fun j => String.eqb (jr_status j) "pending") (s_jokes s).

Definition get_pending_jokes_count (s : store) (f : fault)
  : list note * option Z :=
  reading f NotePendingCountError 0%Z
    (execute f (SqlOk (Z.of_nat (length (pending_jokes s))))).

(** *** add_favorite *)

Definition set_favorites (s : store) (rows : list favorite_row) : store :=
  {| s_themes := s_themes s; s_jokes := s_jokes s;
     s_jokes_seq := s_jokes_seq s; s_joke_themes := s_joke_themes s;
     s_users := s_users s; s_users_seq := s_users_seq s;
     s_user_preferences := s_user_preferences s;
     s_interactions := s_interactions s; s_favorites := rows |}.

Definition marks (user_id joke_id : Z) (fav : favorite_row) : bool :=
  Z.eqb (f_user_id fav) user_id && Z.eqb (f_joke_id fav) joke_id.

(** [now] is the CURRENT_TIMESTAMP of the insertion. *)
Definition add_favorite (s : store) (f : fault) (now : Z)
    (user_id joke_id : Z) : list note * option (bool * string) * store :=
  writing f NoteFavoriteError (false, "❌ Ошибка"%string) s
    (sql_bind
       (execute f (SqlOk (existsb (marks user_id joke_id) (s_favorites s))))
       (fun present =>
          if present
          then
            execute f
              (SqlOk
                 ((false, "❌ Удалено из избранного"%string), [],
                  Some
                    (set_favorites s
                       (List.filter
                          (fun fav => negb (marks user_id joke_id fav))
                          (s_favorites s)))))
          else
            execute f
              (SqlOk
                 ((true, "⭐ Добавлено в избранное"%string), [],
                  Some
                    (set_favorites s
                       (s_favorites s
                        ++ [ {| f_user_id := user_id; f_joke_id := joke_id;
                                f_created_at := now |} ])))))).

(** *** get_user_favorites *)

(** [ORDER BY f.created_at DESC]; rows of one timestamp keep the order of
    the join. *)
Fixpoint insert_by_time (x : Z * joke_view) (xs : list (Z * joke_view))
  : list (Z * joke_view) :=
  match xs with
  | [] => [x]
  | y :: ys =>
      if Z.ltb (fst x) (fst y) then y :: insert_by_time x ys else x :: xs
  end.

(** [FROM jokes j JOIN favorites f ON j.id = f.joke_id WHERE f.user_id = ?
    AND j.is_approved = 1] *)
Definition favorite_rows (s : store) (user_id : Z) : list (Z * joke_view) :=
  List.flat_map
    (fun j =>
       List.map
         (fun fav =>
            (f_created_at fav,
             {| jv_id := j_id (jr_joke j); jv_text := j_text (jr_joke j);
                jv_theme := None |}))
         (List.filter
            (fun fav =>
               Z.eqb (j_id (jr_joke j)) (f_joke_id fav)
               && Z.eqb (f_user_id fav) user_id
               && j_is_approved (jr_joke j))
            (s_favorites s)))
    (s_jokes s).

Definition get_user_favorites (s : store) (f : fault) (user_id : Z)
  : list note * option (list joke_view) :=
  reading f NoteFavoritesError []
    (execute f
       (SqlOk
          (List.map snd
             (List.fold_right insert_by_time [] (favorite_rows s user_id))))).

End Bookkeeping.

(** ** Vocabulary of the properties *)

Module Spec.
Import Database Recommender.

(** [theme_data.get('score', 0)] and [theme_data.get('interactions', 0)]. *)
Definition score_of (data : theme_data) : Q := default 0%Q (td_score data).

Definition interactions_of (data : theme_data) : Z :=
  default 0%Z (td_interactions data).


(** The two components of what [update_user_preference] leaves behind. *)
Definition update_result (d : db) (f ft : fault) (user_id joke_id : Z)
    (liked : bool) : option bool :=
  snd (fst (update_user_preference d f ft user_id joke_id liked)).

Definition update_store (d : db) (f ft : fault) (user_id joke_id : Z)
    (liked : bool) : db :=
  snd (update_user_preference d f ft user_id joke_id liked).

(** The row the two statements of [_update_single_theme_preference] store,
    from the row they read. *)
Definition rated_row (row : option pref_row) (weight : option Q)
    (liked : bool) : pref_row :=
  let current_score := match row with Some r => up_score r | None => 0%Q end in
  let delta := ((1 # 10) * Py.float_or weight 1)%Q in
  {| up_score :=
       if liked then Py.min 1 (current_score + delta)
       else Py.max (- (1)) (current_score - delta);
     up_interactions :=
       match row with Some r => (up_interactions r + 1)%Z | None => 1%Z end |}.

(** [themes.id] and [joke_themes (joke_id, theme_id)] are primary keys. *)
Definition primary_keys (d : db) : Prop :=
  List.NoDup (List.map t_id (themes d)) /\
  List.NoDup
    (List.map (fun jt => (jt_joke_id jt, jt_theme_id jt)) (joke_themes d)).




(** A feedback event: who rated what, and the storage conditions the call
    of [update_user_preference] meets. *)
Record feedback :=
  { fb_user : Z; fb_joke : Z; fb_liked : bool;
    fb_storage : fault; fb_themes_storage : fault }.

Definition record_feedback (d : db) (ev : feedback) : db :=
  update_store d (fb_storage ev) (fb_themes_storage ev)
    (fb_user ev) (fb_joke ev) (fb_liked ev).

(** The store after each event of a sequence. *)
Fixpoint stores_after (d : db) (evs : list feedback) : list db :=
  match evs with
  | [] => []
  | ev :: rest =>
      let d' := record_feedback d ev in
      d' :: stores_after d' rest
  end.

Definition approved_jokes (d : db) : list joke_row :=
  List.filter j_is_approved (jokes d).

Definition view_of_row (row : joke_row) : joke_view :=
  {| jv_id := j_id row; jv_text := j_text row; jv_theme := None |}.

(** [not preferences] in [get_recommended_joke] and [get_user_profile]. *)
Definition no_preference_entries (d : db) (f : fault) (user_id : Z) : Prop :=
  match snd (get_user_preferences d f user_id) with
  | None | Some [] => True
  | Some (_ :: _) => False
  end.

(** A read under [f] fails: the connection cannot be opened, or the
    statement raises.  A block that only reads has nothing to commit, so
    under [CommitFails] it works. *)
Definition read_fails (f : fault) : Prop :=
  f = ConnectFails \/ f = ExecuteFails.

(** The order of the themes of a profile: score descending. *)
Definition by_score_desc (x y : theme_profile) : Prop :=
  (tp_score y <= tp_score x)%Q.

(** The entry [_create_user_profile] builds for an item of the dict. *)
Definition profile_entry (item : Z * theme_data) : theme_profile :=
  {| tp_id := fst item;
     tp_name := default "Неизвестно"%string (td_name (snd item));
     tp_emoji := default "❓"%string (td_emoji (snd item));
     tp_score := score_of (snd item);
     tp_interactions := interactions_of (snd item) |}.

(** The loop variables of [_create_user_profile] after the items [l]. *)
Definition loop_after (l : dict theme_data) : profile_loop :=
  List.fold_left profile_step l profile_start.

End Spec.

(** ** Stores and environments used as instances *)

Module Examples.
Import Database Recommender Spec.

Definition work : theme_row :=
  {| t_id := 1; t_name := "Работа"; t_emoji := "💻" |}.

Definition school : theme_row :=
  {| t_id := 2; t_name := "Школьные"; t_emoji := "🎓" |}.

(** Two themes; joke 1 belongs to both (weights 1.0 and 0.5), joke 2 to
    the second (default weight), joke 3 awaits moderation.  User 7 has
    rated joke 1 and has a preference row; user 8 has neither. *)
Definition catalog : db :=
  {| themes := [work; school];
     jokes :=
       [ {| j_id := 1; j_text := "Де спас Ито"; j_is_approved := true |};
         {| j_id := 2; j_text := "Буличка"; j_is_approved := true |};
         {| j_id := 3; j_text := "На модерации"; j_is_approved := false |} ];
     joke_themes :=
       [ {| jt_joke_id := 1; jt_theme_id := 1; jt_weight := Some 1%Q |};
         {| jt_joke_id := 1; jt_theme_id := 2; jt_weight := Some (1 # 2)%Q |};
         {| jt_joke_id := 2; jt_theme_id := 2; jt_weight := None |} ];
     user_preferences :=
       {[ (7%Z, 1%Z) := {| up_score := 1; up_interactions := 12 |} ]};
     interactions :=
       [ {| i_user_id := 7; i_joke_id := 1; i_liked := true |} ] |}.


(** One theme, one joke in it, and a user who is neutral about it. *)
Definition single_theme : db :=
  {| themes := [work];
     jokes := [ {| j_id := 1; j_text := "Де спас Ито"; j_is_approved := true |} ];
     joke_themes :=
       [ {| jt_joke_id := 1; jt_theme_id := 1; jt_weight := Some 1%Q |} ];
     user_preferences :=
       {[ (7%Z, 1%Z) := {| up_score := 0; up_interactions := 0 |} ]};
     interactions := [] |}.

Definition rates (liked : bool) : feedback :=
  {| fb_user := 7; fb_joke := 1; fb_liked := liked;
     fb_storage := NoFault; fb_themes_storage := NoFault |}.

Definition all_working : storage :=
  {| st_preferences := NoFault; st_interactions := NoFault;
     st_explore := NoFault; st_theme := NoFault; st_fallback := NoFault;
     st_plain := NoFault |}.

Definition exploration_query_fails : storage :=
  {| st_preferences := NoFault; st_interactions := NoFault;
     st_explore := ExecuteFails; st_theme := NoFault;
     st_fallback := NoFault; st_plain := NoFault |}.

(** No exploration; the second theme is drawn, then its second joke; an
    unfiltered draw would return the first approved joke. *)
Definition exploiting : draws :=
  {| explore_u := 1 # 2; jitter := fun _ => 0%Q; choice_u := 9 # 10;
     pick_explore := 0; pick_theme := 1; pick_fallback := 0;
     pick_plain := 0 |}.

(** The same draws with the exploration taken. *)
Definition exploring : draws :=
  {| explore_u := 0; jitter := fun _ => 0%Q; choice_u := 9 # 10;
     pick_explore := 0; pick_theme := 1; pick_fallback := 0;
     pick_plain := 0 |}.

Definition strongly_disliked : theme_data :=
  {| td_name := Some "Работа"%string; td_emoji := Some "💻"%string;
     td_score := Some (- (1))%Q; td_interactions := Some 5%Z |}.

Definition disliked_newcomer : theme_data :=
  {| td_name := Some "Школьные"%string; td_emoji := Some "🎓"%string;
     td_score := Some (- (9 # 10))%Q; td_interactions := Some 0%Z |}.

End Examples.

(** ** Vocabulary of the properties of the whole database *)

Module Invariants.
Import Database Recommender Spec Bookkeeping.

(** [joke_id] is among the ids [get_random_joke] is told to leave out. *)
Definition excluded_from (excluded_ids : option (list Z)) (joke_id : Z) : Prop :=
  match excluded_ids with
  | Some ids => In joke_id ids
  | None => False
  end.

(** A row of [joke_themes] links the joke to the theme. *)
Definition linked (d : db) (joke_id theme_id : Z) : Prop :=
  exists jt, In jt (joke_themes d) /\ jt_joke_id jt = joke_id /\
             jt_theme_id jt = theme_id.

(** What the recommender may hand out: an approved row of [jokes], linked
    to the theme it is labelled with. *)
Definition served (d : db) (joke : joke_view) : Prop :=
  exists row,
    In row (jokes d) /\ j_is_approved row = true /\
    jv_id joke = j_id row /\ jv_text joke = j_text row /\
    forall t name emoji,
      jv_theme joke = Some (t, name, emoji) -> t <> 0%Z ->
      linked d (j_id row) t.

(** The item of the preferences dict for a row of [themes]. *)
Definition preference_entry (d : db) (user_id : Z) (t : theme_row)
  : Z * theme_data :=
  (t_id t,
   {| td_name := Some (t_name t);
      td_emoji := Some (t_emoji t);
      td_score :=
        Some (Py.float_or (up_score <$> user_preferences d !! (user_id, t_id t)) 0%Q);
      td_interactions :=
        Some (Py.int_or
                (up_interactions <$> user_preferences d !! (user_id, t_id t))
                0%Z) |}).

Definition by_id (a b : theme_row) : Prop := (t_id a <= t_id b)%Z.

(** The interactions the store holds for a user and a theme. *)
Definition stored_interactions (d : db) (user_id : Z) (t : theme_row) : Z :=
  match user_preferences d !! (user_id, t_id t) with
  | Some row => up_interactions row
  | None => 0%Z
  end.

Definition total (counts : list Z) : Z := List.fold_right Z.add 0%Z counts.

(** The jokes a user has rated, as [interactions] lists them. *)
Definition rated_by (d : db) (user_id : Z) : list Z :=
  List.map i_joke_id
    (List.filter (fun i => Z.eqb (i_user_id i) user_id) (interactions d)).

(** The view history of a user merged with the rated jokes. *)
Definition seen (self : recommender) (d : db) (user_id : Z) : gset Z :=
  list_to_set (view_history_of self user_id) ∪ list_to_set (rated_by d user_id).

(** A row is still there, with at least as many interactions. *)
Definition kept_row (before after : gmap (Z * Z) pref_row) : Prop :=
  forall key row,
    before !! key = Some row ->
    exists row',
      after !! key = Some row' /\
      (up_interactions row <= up_interactions row')%Z.

(** [interactions] holds at most one row per user and joke. *)
Definition one_verdict_per_pair (d : db) : Prop :=
  List.NoDup (List.map (fun i => (i_user_id i, i_joke_id i)) (interactions d)).

(** The store after the two calls [process_like_dislike] (main.py) makes
    for a rating, with working storage: [add_interaction], then
    [update_user_preference]. *)
Definition rate_joke (d : db) (user_id joke_id : Z) (liked : bool) : db :=
  update_store (snd (add_interaction d NoFault user_id joke_id liked))
    NoFault NoFault user_id joke_id liked.

Definition is_favorite (s : store) (user_id joke_id : Z) : Prop :=
  exists fav, In fav (s_favorites s) /\ f_user_id fav = user_id /\
              f_joke_id fav = joke_id.

(** [favorites] holds at most one row per user and joke. *)
Definition one_mark_per_pair (s : store) : Prop :=
  List.NoDup (List.map (fun fav => (f_user_id fav, f_joke_id fav)) (s_favorites s)).

(** The entry of the favorites list for a row of [jokes]. *)
Definition favorite_view (j : joke_record) : joke_view :=
  {| jv_id := j_id (jr_joke j); jv_text := j_text (jr_joke j);
     jv_theme := None |}.

(** The list [get_user_favorites] returns with working storage. *)
Definition favorites_of (s : store) (user_id : Z) : list joke_view :=
  default [] (snd (get_user_favorites s NoFault user_id)).

(** The themes whose keyword list [m] accepts, in the order of the table:
    the list [classify_joke] builds before its default. *)
Definition themes_mentioned (m : list string -> bool)
    (table : list (Z * list string)) : list Z :=
  List.map fst (List.filter (fun kw => m (snd kw)) table).

Definition joke_ids (s : store) : list Z :=
  List.map (fun j => j_id (jr_joke j)) (s_jokes s).

(** Every link of [joke_themes] refers to a row of [jokes]. *)
Definition links_refer_to_jokes (s : store) : Prop :=
  forall jt, In jt (s_joke_themes s) -> In (jt_joke_id jt) (joke_ids s).

Definition pending_count (s : store) : Z := Z.of_nat (length (pending_jokes s)).

(** The id and the row [add_user_joke] inserts. *)
Definition new_joke_id (s : store) : Z := next_rowid (s_jokes_seq s) (joke_ids s).

Definition pending_record (s : store) (text : string) (author_id : Z)
  : joke_record :=
  {| jr_joke := {| j_id := new_joke_id s; j_text := text;
                   j_is_approved := false |};
     jr_author_id := Some author_id;
     jr_status := "pending" |}.

Definition user_ids (s : store) : list Z := List.map u_id (s_users s).

(** A row of [users] with this telegram id and this id. *)
Definition registered (s : store) (telegram_id id : Z) : Prop :=
  exists u, In u (s_users s) /\ u_telegram_id u = telegram_id /\ u_id u = id.

(** [users.telegram_id] is UNIQUE. *)
Definition telegram_ids_unique (s : store) : Prop :=
  List.NoDup (List.map u_telegram_id (s_users s)).

(** Every row of [user_preferences] belongs to a row of [users]. *)
Definition preferences_refer_to_users (s : store) : Prop :=
  forall user_id theme_id row,
    s_user_preferences s !! (user_id, theme_id) = Some row ->
    In user_id (user_ids s).

(** The id [get_or_create_user] gives a new row of [users]. *)
Definition new_user_id (s : store) : Z :=
  next_rowid (s_users_seq s) (user_ids s).

Definition neutral_row : pref_row := {| up_score := 0; up_interactions := 0 |}.

(** [range(1, 6)] *)
Definition initial_themes : list Z := [1; 2; 3; 4; 5]%Z.

End Invariants.

(** ** Further instances *)

Module Scenarios.
Import Database Recommender Spec Bookkeeping Invariants.

Definition bulichka : joke_view :=
  {| jv_id := 2; jv_text := "Буличка"; jv_theme := None |}.

Definition liked_theme : theme_data :=
  {| td_name := Some "Работа"%string; td_emoji := Some "💻"%string;
     td_score := Some (1 # 2)%Q; td_interactions := Some 7%Z |}.

Definition neutral_theme : theme_data :=
  {| td_name := Some "Школьные"%string; td_emoji := Some "🎓"%string;
     td_score := Some 0%Q; td_interactions := Some 7%Z |}.

(** [Examples.catalog] with the tables the engine does not read: user 7
    (telegram id 700) has marked joke 2. *)
Definition shop : store :=
  {| s_themes := themes Examples.catalog;
     s_jokes :=
       List.map
         (fun j =>
            {| jr_joke := j; jr_author_id := None;
               jr_status := if j_is_approved j then "approved" else "pending" |})
         (jokes Examples.catalog);
     s_jokes_seq := 3;
     s_joke_themes := joke_themes Examples.catalog;
     s_users :=
       [ {| u_id := 7; u_telegram_id := 700; u_username := None;
            u_first_name := "Ира"; u_last_name := None |} ];
     s_users_seq := 7;
     s_user_preferences := user_preferences Examples.catalog;
     s_interactions := interactions Examples.catalog;
     s_favorites := [ {| f_user_id := 7; f_joke_id := 2; f_created_at := 10 |} ] |}.

(** The same store with a row of [user_preferences] left over for the id
    the next user will get. *)
Definition shop_with_stale_row : store :=
  {| s_themes := s_themes shop; s_jokes := s_jokes shop;
     s_jokes_seq := s_jokes_seq shop; s_joke_themes := s_joke_themes shop;
     s_users := s_users shop; s_users_seq := s_users_seq shop;
     s_user_preferences :=
       <[(8%Z, 3%Z) := {| up_score := 1 # 10; up_interactions := 1 |}]>
         (s_user_preferences shop);
     s_interactions := s_interactions shop;
     s_favorites := s_favorites shop |}.

(** [str.lower] on texts that hold no upper-case letter. *)
Definition lower_case_already (text : string) : string := text.

End Scenarios.

Import Database Recommender Spec.

(** * Properties *)

(** Case analysis on every comparison of [Py.max] and [Py.min]. *)
Ltac py_cases :=
  unfold Py.max, Py.min in *;
  repeat match goal with
         | |- context [Qlt_le_dec ?a ?b] => destruct (Qlt_le_dec a b)
         | H : context [Qlt_le_dec ?a ?b] |- _ => destruct (Qlt_le_dec a b)
         end.

(** [NoDup] of a list of distinct literals. *)
Ltac nodup_list :=
  repeat (apply List.NoDup_cons; [cbn; intuition congruence |]);
  apply List.NoDup_nil.

(** ** Theme probabilities *)

Section ThemeProbability.

Lemma half_spec (x : Q) : (x / 2 == x * (1 # 2))%Q.
Proof. unfold Qdiv. reflexivity. Qed.

(** C2, as the code has it.  With fewer than five interactions the floor
    0.3 holds for every score from -0.5 up; below -0.5 the dampening is
    applied after the floor and the probability is 0.3 * 0.3 = 0.09. *)
Theorem floor_then_dampening (data : theme_data) :
  (interactions_of data < 5)%Z ->
  (- (1 # 2) <= score_of data ->
   3 # 10 <= _calculate_theme_probability data)%Q /\
  (score_of data < - (1 # 2) ->
   _calculate_theme_probability data == 9 # 100)%Q.
Proof.
  intros Hi.
  unfold _calculate_theme_probability, score_of, interactions_of in *.
  apply Z.ltb_lt in Hi. rewrite Hi.
  set (s := default 0%Q (td_score data)).
  assert (Hh := half_spec (s + 1)).
  split; intros Hs; py_cases; try lra.
Qed.

Lemma floor_then_dampening_witness :
  (interactions_of Examples.disliked_newcomer < 5)%Z /\
  (_calculate_theme_probability Examples.disliked_newcomer == 9 # 100)%Q.
Proof.
  split; [reflexivity |].
  apply (floor_then_dampening Examples.disliked_newcomer); reflexivity.
Defined.

(** C2 as stated fails: a theme with no interactions and score -0.9 gets
    0.09, below the floor. *)
Lemma floor_loses_to_dampening :
  (interactions_of Examples.disliked_newcomer < 5)%Z /\
  ~ (3 # 10 <= _calculate_theme_probability Examples.disliked_newcomer)%Q.
Proof. split; [reflexivity |]. vm_compute. intros H. apply H. reflexivity. Qed.

Lemma normalize_keeps_themes (tps : list (Z * Q)) :
  List.map fst (_normalize_probabilities tps) = List.map fst tps.
Proof.
  destruct tps as [|tp tps]; [reflexivity |].
  unfold _normalize_probabilities.
  destruct (Qlt_le_dec 0 _); rewrite List.map_map; reflexivity.
Qed.

Lemma positive_probabilities_spec
    (preferences : dict theme_data) (theme_id : Z) (p : Q) :
  In (theme_id, p) (positive_probabilities preferences) <->
  exists data, In (theme_id, data) preferences /\
               p = _calculate_theme_probability data /\ (0 < p)%Q.
Proof.
  induction preferences as [|[t d] rest IH]; simpl.
  - split; [tauto | intros (? & [] & _)].
  - destruct (Qlt_le_dec 0 (_calculate_theme_probability d)) as [Hp | Hn];
      simpl; rewrite IH; split.
    + intros [Heq | (data & Hin & Hp' & Hpos)].
      * inversion Heq; subst. exists d. auto.
      * exists data. auto.
    + intros (data & [Heq | Hin] & Hp' & Hpos).
      * inversion Heq; subst. auto.
      * right. exists data. auto.
    + intros (data & Hin & Hp' & Hpos). exists data. auto.
    + intros (data & [Heq | Hin] & Hp' & Hpos).
      * inversion Heq; subst. lra.
      * exists data. auto.
Qed.




End ThemeProbability.

(** ** Normalization *)

Section Normalization.

Lemma sum_from (xs : list Q) (a : Q) :
  (fold_left Qplus xs a == a + Py.sum xs)%Q.
Proof.
  unfold Py.sum. revert a.
  induction xs as [|x xs IH]; intros a; simpl.
  - lra.
  - rewrite (IH (a + x)%Q), (IH (0 + x)%Q). lra.
Qed.

Lemma sum_cons (x : Q) (xs : list Q) : (Py.sum (x :: xs) == x + Py.sum xs)%Q.
Proof. unfold Py.sum at 1. simpl. rewrite sum_from. lra. Qed.

Lemma sum_scaled (c : Q) (tps : list (Z * Q)) :
  (Py.sum (List.map (fun tp => snd tp * c) tps)
   == Py.sum (List.map snd tps) * c)%Q.
Proof.
  induction tps as [|tp tps IH]; simpl.
  - unfold Py.sum. simpl. lra.
  - rewrite !sum_cons, IH. ring.
Qed.

Lemma sum_constant (c : Q) (tps : list (Z * Q)) :
  (Py.sum (List.map (fun _ => c) tps)
   == inject_Z (Z.of_nat (length tps)) * c)%Q.
Proof.
  induction tps as [|tp tps IH].
  - unfold Py.sum. simpl. ring.
  - cbn [List.map length]. rewrite sum_cons, IH, Nat2Z.inj_succ.
    unfold Z.succ. rewrite inject_Z_plus. ring.
Qed.

Lemma normalize_unfold (tps : list (Z * Q)) :
  tps <> [] ->
  _normalize_probabilities tps =
  let total_prob := Py.sum (List.map snd tps) in
  if Qlt_le_dec 0 total_prob
  then List.map (fun tp => (fst tp, (snd tp / total_prob)%Q)) tps
  else List.map
         (fun tp => (fst tp, (1 / inject_Z (Z.of_nat (length tps)))%Q)) tps.
Proof. destruct tps; [congruence | reflexivity]. Qed.

(** C8.  The normalized probabilities of a non-empty list sum to 1: each
    is divided by the total when the total is positive, and each is 1/n
    when the total is zero. *)
Theorem normalized_sum_to_one (tps : list (Z * Q)) :
  tps <> [] ->
  let total := Py.sum (List.map snd tps) in
  (Py.sum (List.map snd (_normalize_probabilities tps)) == 1)%Q /\
  ((0 < total)%Q ->
   _normalize_probabilities tps
   = List.map (fun tp => (fst tp, (snd tp / total)%Q)) tps) /\
  ((total == 0)%Q ->
   _normalize_probabilities tps
   = List.map
       (fun tp => (fst tp, (1 / inject_Z (Z.of_nat (length tps)))%Q)) tps).
Proof.
  intros Hne total. rewrite (normalize_unfold tps Hne). cbv zeta. fold total.
  destruct (Qlt_le_dec 0 total) as [Hpos | Hnonpos].
  - split; [| split; [reflexivity | intros H0; lra]].
    rewrite List.map_map. cbn [snd fst]. unfold Qdiv.
    rewrite (sum_scaled (/ total) tps). fold total.
    field. lra.
  - split; [| split; [intros H0; lra | reflexivity]].
    rewrite List.map_map. cbn [snd fst].
    rewrite (sum_constant (1 / inject_Z (Z.of_nat (length tps))) tps).
    assert (Hlen : (0 < inject_Z (Z.of_nat (length tps)))%Q).
    { destruct tps as [|tp tps']; [congruence |].
      unfold Qlt, inject_Z. simpl. lia. }
    field. lra.
Qed.

Lemma normalized_sum_to_one_witness :
  (Py.sum
     (List.map snd
        (_normalize_probabilities [(1%Z, 9 # 10); (2%Z, 1 # 20); (3%Z, 3 # 10)]))
   == 1)%Q /\
  (Py.sum (List.map snd (_normalize_probabilities [(1%Z, 0%Q); (2%Z, 0%Q)]))
   == 1)%Q.
Proof.
  split.
  - apply (normalized_sum_to_one [(1%Z, 9 # 10); (2%Z, 1 # 20); (3%Z, 3 # 10)]).
    discriminate.
  - apply (normalized_sum_to_one [(1%Z, 0%Q); (2%Z, 0%Q)]). discriminate.
Defined.

End Normalization.

(** ** Candidate queries *)

Section CandidateQueries.

Variable d : db.

(** C5.  Without a theme and with a non-empty exclusion list the query
    names [j.id] while its FROM clause defines no [j]: the statement
    fails, the error is swallowed, and the method returns [None] whatever
    the catalog holds. *)
Theorem exclusions_without_theme_find_nothing
    (f : fault) (pick : nat) (excluded_ids : list Z) :
  excluded_ids <> [] ->
  select_rows d (build_query (Some excluded_ids) None) = SqlError /\
  snd (get_random_joke d f pick (Some excluded_ids) None) = None.
Proof.
  intros Hne. destruct excluded_ids as [|i ids]; [congruence |].
  split; [reflexivity |]. destruct f; reflexivity.
Qed.



Lemma failed_query_finds_nothing (f : fault) (pick : nat)
    (excluded_ids : option (list Z)) (theme_id : option Z) :
  read_fails f ->
  snd (get_random_joke d f pick excluded_ids theme_id) = None.
Proof.
  intros [-> | ->]; reflexivity.
Qed.

Lemma source_rows_jokes
    (fc : from_clause) (r : joke_row * option joke_theme_row) :
  In r (source_rows d fc) -> In (fst r) (jokes d).
Proof.
  destruct fc; cbn; intros H.
  - apply in_map_iff in H as (j & <- & Hj). exact Hj.
  - apply in_flat_map in H as (j & Hj & Hr).
    apply in_map_iff in Hr as (jt & <- & _). exact Hj.
Qed.

Lemma built_query_wants_approved
    (excluded_ids : option (list Z)) (theme_id : option Z) :
  exists q rest,
    q_where (build_query excluded_ids theme_id) = IsApproved q :: rest.
Proof.
  unfold build_query.
  destruct (theme_given theme_id), excluded_ids as [[|i ids]|]; cbn; eauto.
Qed.

Lemma empty_catalog_rows
    (excluded_ids : option (list Z)) (theme_id : option Z) :
  approved_jokes d = [] ->
  select_rows d (build_query excluded_ids theme_id) = SqlError \/
  select_rows d (build_query excluded_ids theme_id) = SqlOk [].
Proof.
  intros Hnone. unfold select_rows.
  destruct (forallb _ _); [right | left; reflexivity].
  destruct (built_query_wants_approved excluded_ids theme_id)
    as (q & rest & ->).
  f_equal.
  replace (List.filter _ _) with (@nil (joke_row * option joke_theme_row));
    [reflexivity |].
  symmetry.
  assert (Hrows := source_rows_jokes
                     (q_from (build_query excluded_ids theme_id))).
  induction (source_rows d _) as [|r rows IH]; [reflexivity |].
  cbn [List.filter forallb holds].
  assert (Hr : j_is_approved (fst r) = false).
  { destruct (j_is_approved (fst r)) eqn:E; [| reflexivity].
    assert (Hin : In (fst r) (approved_jokes d)).
    { apply filter_In. split; [apply Hrows; left; reflexivity | exact E]. }
    rewrite Hnone in Hin. destruct Hin. }
  rewrite Hr. cbn. apply IH. intros r' Hr'. apply Hrows. right. exact Hr'.
Qed.

Lemma empty_catalog_finds_nothing (f : fault) (pick : nat)
    (excluded_ids : option (list Z)) (theme_id : option Z) :
  approved_jokes d = [] ->
  snd (get_random_joke d f pick excluded_ids theme_id) = None.
Proof.
  intros Hnone. unfold get_random_joke, method, with_connection, execute.
  destruct (empty_catalog_rows excluded_ids theme_id Hnone) as [-> | ->];
    destruct f; reflexivity.
Qed.

End CandidateQueries.

Lemma exclusions_without_theme_witness :
  snd (get_random_joke Examples.catalog NoFault 0 None None)
  = Some {| jv_id := 1; jv_text := "Де спас Ито"; jv_theme := None |} /\
  snd (get_random_joke Examples.catalog NoFault 0 (Some [3%Z]) None) = None.
Proof.
  split; [reflexivity |].
  apply (exclusions_without_theme_find_nothing Examples.catalog NoFault 0 [3%Z]).
  discriminate.
Defined.

(** ** The update rule *)

Section UpdateRule.

Lemma set_user_preferences_same (d : db) :
  set_user_preferences d (user_preferences d) = d.
Proof. destruct d; reflexivity. Qed.

Lemma single_update_stores
    (prefs : gmap (Z * Z) pref_row) (user_id : Z) (theme : joke_theme)
    (liked : bool) :
  _update_single_theme_preference NoFault prefs user_id theme liked
  = SqlOk
      (<[(user_id, th_id theme) :=
           rated_row (prefs !! (user_id, th_id theme)) (th_weight theme) liked]>
         prefs).
Proof. reflexivity. Qed.

Lemma single_update_cases
    (f : fault) (prefs : gmap (Z * Z) pref_row) (user_id : Z)
    (theme : joke_theme) (liked : bool) :
  _update_single_theme_preference f prefs user_id theme liked = SqlError \/
  _update_single_theme_preference f prefs user_id theme liked
  = SqlOk
      (<[(user_id, th_id theme) :=
           rated_row (prefs !! (user_id, th_id theme)) (th_weight theme) liked]>
         prefs).
Proof. destruct f; [right | right | left | right]; reflexivity. Qed.


Lemma float_or_nonzero (w : Q) : ~ (w == 0)%Q -> Py.float_or (Some w) 1 = w.
Proof.
  intros H. simpl. destruct (Qeq_bool w 0) eqn:E; [| reflexivity].
  apply Qeq_bool_iff in E. contradiction.
Qed.


Lemma py_min_Qmin (a b : Q) : (Py.min a b == Qmin a b)%Q.
Proof.
  unfold Py.min. destruct (Qlt_le_dec b a) as [H | H].
  - rewrite Q.min_r; [reflexivity | lra].
  - rewrite Q.min_l; [reflexivity | exact H].
Qed.

Lemma py_max_Qmax (a b : Q) : (Py.max a b == Qmax a b)%Q.
Proof.
  unfold Py.max. destruct (Qlt_le_dec a b) as [H | H].
  - rewrite Q.max_r; [reflexivity | lra].
  - rewrite Q.max_l; [reflexivity | exact H].
Qed.

End UpdateRule.

Section UpdateLoop.

Variables (user_id : Z) (liked : bool).


Lemma update_each_theme_rows (ths : list joke_theme) :
  List.NoDup (List.map th_id ths) ->
  forall prefs : gmap (Z * Z) pref_row,
  exists prefs' : gmap (Z * Z) pref_row,
    update_each_theme NoFault prefs user_id ths liked = SqlOk prefs' /\
    (forall th, In th ths ->
       prefs' !! (user_id, th_id th)
       = Some (rated_row (prefs !! (user_id, th_id th)) (th_weight th) liked)) /\
    (forall key, (forall th, In th ths -> key <> (user_id, th_id th)) ->
       prefs' !! key = prefs !! key).
Proof.
  induction ths as [|th ths IH]; intros Hnd prefs.
  - exists prefs. split; [reflexivity | split].
    + intros th [].
    + reflexivity.
  - cbn [List.map] in Hnd. apply List.NoDup_cons_iff in Hnd as [Hfresh Hnd].
    cbn [update_each_theme]. rewrite single_update_stores. cbn [sql_bind].
    destruct (IH Hnd
                (<[(user_id, th_id th) :=
                     rated_row (prefs !! (user_id, th_id th))
                       (th_weight th) liked]> prefs))
      as (prefs' & Hrun & Hseen & Hother).
    exists prefs'. split; [exact Hrun | split].
    + intros th' [<- | Hin'].
      * rewrite Hother.
        -- apply lookup_insert_eq.
        -- intros th'' Hin'' Heq. apply Hfresh.
           apply in_map_iff. exists th''. split; [congruence | exact Hin''].
      * rewrite (Hseen th' Hin'). rewrite lookup_insert_ne; [reflexivity |].
        intros Heq. apply Hfresh.
        apply in_map_iff. exists th'. split; [congruence | exact Hin'].
    + intros key Hkey. rewrite Hother.
      * rewrite lookup_insert_ne; [reflexivity |].
        intros Heq. apply (Hkey th); [left; reflexivity | congruence].
      * intros th' Hin'. apply Hkey. right. exact Hin'.
Qed.

End UpdateLoop.

Section Tables.

Variable d : db.

Lemma no_links_no_rows (joke_id : Z) :
  List.Forall (fun jt => jt_joke_id jt <> joke_id) (joke_themes d) ->
  joke_theme_rows d joke_id = [].
Proof.
  unfold joke_theme_rows. intros H.
  induction H as [|jt jts Hjt _ IH]; [reflexivity |].
  cbn [List.filter].
  destruct (Z.eqb_spec (jt_joke_id jt) joke_id); [contradiction | exact IH].
Qed.

Lemma joke_theme_rows_weight (joke_id : Z) (th : joke_theme) :
  In th (joke_theme_rows d joke_id) ->
  exists jt, In jt (joke_themes d) /\ jt_joke_id jt = joke_id /\
             jt_theme_id jt = th_id th /\ jt_weight jt = th_weight th.
Proof.
  unfold joke_theme_rows. intros H.
  apply in_flat_map in H as (jt & Hjt & Hth).
  apply filter_In in Hjt as [Hjt Hj].
  apply in_map_iff in Hth as (t & <- & Ht).
  apply filter_In in Ht as [_ Ht].
  exists jt. cbn. repeat split; [exact Hjt | lia | lia].
Qed.

Lemma no_theme_of_fresh_id (k : Z) (ts : list theme_row) :
  ~ In k (List.map t_id ts) ->
  List.filter (fun t => Z.eqb (t_id t) k) ts = [].
Proof.
  induction ts as [|t ts IH]; intros Hfresh; [reflexivity |].
  cbn [List.filter]. cbn [List.map In] in Hfresh.
  destruct (Z.eqb_spec (t_id t) k) as [E | _]; [tauto |].
  apply IH. tauto.
Qed.

Lemma theme_of_id_unique (k : Z) (ts : list theme_row) :
  List.NoDup (List.map t_id ts) ->
  (length (List.filter (fun t => Z.eqb (t_id t) k) ts) <= 1)%nat.
Proof.
  induction ts as [|t ts IH]; intros Hnd; [cbn; lia |].
  cbn [List.map] in Hnd. apply List.NoDup_cons_iff in Hnd as [Hfresh Hnd].
  cbn [List.filter].
  destruct (Z.eqb_spec (t_id t) k) as [E | Hne]; [| auto].
  rewrite <- E, (no_theme_of_fresh_id (t_id t) ts Hfresh). cbn. lia.
Qed.

Lemma joke_theme_rows_NoDup (joke_id : Z) :
  primary_keys d -> List.NoDup (List.map th_id (joke_theme_rows d joke_id)).
Proof.
  intros [Hthemes Hlinks]. unfold joke_theme_rows.
  induction (joke_themes d) as [|jt jts IH]; [constructor |].
  cbn in Hlinks. apply List.NoDup_cons_iff in Hlinks as [Hfresh Hlinks].
  specialize (IH Hlinks). cbn [List.filter].
  destruct (Z.eqb_spec (jt_joke_id jt) joke_id) as [Hj | _]; [| exact IH].
  cbn [List.flat_map]. rewrite List.map_app, List.map_map. cbn [th_id].
  assert (Hone := theme_of_id_unique (jt_theme_id jt) (themes d) Hthemes).
  destruct (List.filter (fun t => Z.eqb (t_id t) (jt_theme_id jt)) (themes d))
    as [|t [|t' rest]] eqn:Ef; cbn in Hone; [exact IH | | lia].
  cbn. apply List.NoDup_cons_iff. split; [| exact IH].
  intros Hin. apply in_map_iff in Hin as (th & Hid & Hth).
  apply in_flat_map in Hth as (jt' & Hjt' & Hth).
  apply filter_In in Hjt' as [Hjt' Hj'].
  apply in_map_iff in Hth as (t'' & <- & Ht'').
  apply filter_In in Ht'' as [_ Ht'']. cbn in Hid.
  assert (Ht : t_id t = jt_theme_id jt).
  { assert (Hin : In t (List.filter
                          (fun t => Z.eqb (t_id t) (jt_theme_id jt))
                          (themes d)))
      by (rewrite Ef; left; reflexivity).
    apply filter_In in Hin as [_ Hin]. lia. }
  apply Hfresh. apply in_map_iff. exists jt'.
  split; [| exact Hjt']. f_equal; lia.
Qed.

(** C6.  With no theme link for the joke the update reports [False] and
    the store is the one before the call, under every storage
    condition. *)
Theorem unclassified_update_is_noop
    (f ft : fault) (user_id joke_id : Z) (liked : bool) :
  List.Forall (fun jt => jt_joke_id jt <> joke_id) (joke_themes d) ->
  update_result d f ft user_id joke_id liked = Some false /\
  update_store d f ft user_id joke_id liked = d.
Proof.
  intros H. apply no_links_no_rows in H.
  unfold update_result, update_store, update_user_preference,
    get_joke_themes, method, with_connection, execute.
  rewrite H.
  destruct ft, f; cbn; rewrite ?set_user_preferences_same; auto.
Qed.

Lemma update_store_cases (f ft : fault) (user_id joke_id : Z) (liked : bool) :
  update_store d f ft user_id joke_id liked = d \/
  exists prefs' : gmap (Z * Z) pref_row,
    update_each_theme f (user_preferences d) user_id
      (joke_theme_rows d joke_id) liked = SqlOk prefs' /\
    update_store d f ft user_id joke_id liked = set_user_preferences d prefs'.
Proof.
  unfold update_store, update_user_preference, get_joke_themes, method,
    with_connection, execute.
  destruct ft; cbn [sql_bind fst snd commit_raises];
    try (left; destruct f; cbn; rewrite ?set_user_preferences_same;
         reflexivity).
  all: destruct (joke_theme_rows d joke_id) as [|th ths] eqn:Erows;
    [left; destruct f; cbn; rewrite ?set_user_preferences_same; reflexivity |].
  all: destruct f; try (left; reflexivity).
  all: destruct (update_each_theme _ (user_preferences d) user_id
                   (th :: ths) liked) as [prefs'|] eqn:Erun; cbn;
    try (left; reflexivity).
  all: right; exists prefs'; split; reflexivity.
Qed.

End Tables.

Lemma unclassified_update_witness :
  update_result Examples.catalog NoFault NoFault 7 3 true = Some false /\
  update_store Examples.catalog NoFault NoFault 7 3 true = Examples.catalog.
Proof.
  apply (unclassified_update_is_noop Examples.catalog NoFault NoFault 7 3 true).
  repeat constructor; discriminate.
Defined.

(** ** Sequences of feedback events *)

Section FeedbackSequences.




End FeedbackSequences.

(** ** One event, several themes *)

Section LinkedThemes.

(** C7.  One call updates the row of every theme linked to the joke and
    no other row: the score moves by 0.1 * weight, up and capped at 1 when
    liked, down and capped at -1 otherwise, and the interaction count
    grows by one, starting at 1 where there was no row. *)
Theorem feedback_updates_each_linked_theme
    (d : db) (user_id joke_id : Z) (liked : bool) :
  primary_keys d ->
  joke_theme_rows d joke_id <> [] ->
  let d' := update_store d NoFault NoFault user_id joke_id liked in
  update_result d NoFault NoFault user_id joke_id liked = Some true /\
  (forall th w,
      In th (joke_theme_rows d joke_id) ->
      th_weight th = Some w -> ~ (w == 0)%Q ->
      let before := user_preferences d !! (user_id, th_id th) in
      let current_score :=
        match before with Some r => up_score r | None => 0%Q end in
      let delta := ((1 # 10) * w)%Q in
      exists row,
        user_preferences d' !! (user_id, th_id th) = Some row /\
        (up_score row
         == if liked then Qmin 1 (current_score + delta)
            else Qmax (- (1)) (current_score - delta))%Q /\
        up_interactions row
        = match before with
          | Some r => (up_interactions r + 1)%Z
          | None => 1%Z
          end) /\
  (forall key,
      (forall th, In th (joke_theme_rows d joke_id) ->
                  key <> (user_id, th_id th)) ->
      user_preferences d' !! key = user_preferences d !! key).
Proof.
  intros Hkeys Hne d'.
  destruct (update_each_theme_rows user_id liked (joke_theme_rows d joke_id)
              (joke_theme_rows_NoDup d joke_id Hkeys) (user_preferences d))
    as (prefs' & Hrun & Hseen & Hother).
  assert (Hcall : update_user_preference d NoFault NoFault user_id joke_id liked
                  = ([], Some true, set_user_preferences d prefs')).
  { unfold update_user_preference, get_joke_themes, method, with_connection,
      execute.
    destruct (joke_theme_rows d joke_id) as [|th ths]; [congruence |].
    cbn [commit_raises]. rewrite Hrun. reflexivity. }
  unfold d', update_result, update_store. rewrite Hcall.
  cbn [fst snd set_user_preferences user_preferences].
  split; [reflexivity | split; [| exact Hother]].
  intros th w Hin Hw Hnz. cbv zeta.
  exists (rated_row (user_preferences d !! (user_id, th_id th))
            (th_weight th) liked).
  split; [exact (Hseen th Hin) | split].
  - unfold rated_row. cbn [up_score]. rewrite Hw, (float_or_nonzero w Hnz).
    destruct liked; [apply py_min_Qmin | apply py_max_Qmax].
  - reflexivity.
Qed.

(** The scenario of C7: user 8, who has no row yet, likes joke 1, linked
    to the two themes with weights 1.0 and 0.5. *)
Lemma feedback_two_themes_witness :
  let d' := update_store Examples.catalog NoFault NoFault 8 1 true in
  update_result Examples.catalog NoFault NoFault 8 1 true = Some true /\
  exists first second,
    user_preferences d' !! (8%Z, 1%Z) = Some first /\
    (up_score first == 0 + (1 # 10))%Q /\ up_interactions first = 1%Z /\
    user_preferences d' !! (8%Z, 2%Z) = Some second /\
    (up_score second == 0 + (1 # 20))%Q /\ up_interactions second = 1%Z.
Proof.
  assert (Hkeys : primary_keys Examples.catalog) by (split; nodup_list).
  assert (Hne : joke_theme_rows Examples.catalog 1 <> []) by discriminate.
  destruct (feedback_updates_each_linked_theme Examples.catalog 8 1 true
              Hkeys Hne)
    as (Hres & Hrows & _).
  destruct (Hrows {| th_id := 1; th_name := "Работа"; th_emoji := "💻";
                     th_weight := Some 1%Q |} 1%Q)
    as (first & Hf1 & Hf2 & Hf3);
    [left; reflexivity | reflexivity | discriminate |].
  destruct (Hrows {| th_id := 2; th_name := "Школьные"; th_emoji := "🎓";
                     th_weight := Some (1 # 2)%Q |} (1 # 2)%Q)
    as (second & Hs1 & Hs2 & Hs3);
    [right; left; reflexivity | reflexivity | discriminate |].
  split; [exact Hres |].
  exists first, second.
  repeat split; [exact Hf1 | | exact Hf3 | exact Hs1 | | exact Hs3].
  - rewrite Hf2. reflexivity.
  - rewrite Hs2. reflexivity.
Defined.

End LinkedThemes.

(** ** The weighted draw of a theme *)

Section RandomChoice.

Lemma accumulate_from_length (ws : list Q) (acc : Q) :
  length (accumulate_from acc ws) = length ws.
Proof. revert acc. induction ws as [|w ws IH]; intros acc; cbn; auto. Qed.

Lemma accumulate_length (ws : list Q) : length (accumulate ws) = length ws.
Proof. destruct ws; cbn; [| rewrite accumulate_from_length]; reflexivity. Qed.

Lemma bisect_bound (a : list Q) (x : Q) (hi : nat) : (bisect a x hi <= hi)%nat.
Proof.
  revert a. induction hi as [|hi IH]; intros [|e a]; cbn; try lia.
  destruct (Qlt_le_dec x e); [lia |]. specialize (IH a). lia.
Qed.

Lemma last_some (xs : list Q) :
  xs <> [] -> exists total, List.last (List.map Some xs) None = Some total.
Proof.
  induction xs as [|x xs IH]; [congruence |]. intros _.
  destruct xs as [|y ys]; [exists x; reflexivity |].
  destruct IH as [total Ht]; [discriminate |].
  exists total. exact Ht.
Qed.

Lemma choices_raises (population : list Z) (weights : list Q) (u : Q) (e : exn) :
  population <> [] -> length weights = length population ->
  choices population weights u = Raise e -> e = ValueError.
Proof.
  intros Hne Hlen. unfold choices.
  rewrite accumulate_length, Hlen, Nat.eqb_refl. cbn [negb].
  destruct (last_some (accumulate weights)) as [total ->].
  { intros E. apply (f_equal (@length Q)) in E.
    rewrite accumulate_length, Hlen in E. destruct population; [congruence | discriminate]. }
  destruct (Qle_bool total 0); [congruence |].
  destruct (nth_error population _) eqn:En; [discriminate |].
  apply nth_error_None in En.
  assert (Hb := bisect_bound (accumulate weights) (u * total) (length population - 1)).
  destruct population; [congruence | cbn in *; lia].
Qed.

Lemma choose_theme_raises (r : draws) (tps : list (Z * Q)) (e : exn) :
  tps <> [] ->
  _choose_theme_by_probability r tps = Raise e -> e = ValueError.
Proof.
  intros Hne. unfold _choose_theme_by_probability.
  apply choices_raises.
  - destruct tps; [congruence | discriminate].
  - destruct (Nat.ltb 1 _).
    + rewrite List.length_map, length_imap, !List.length_map. reflexivity.
    + rewrite !List.length_map. reflexivity.
Qed.

End RandomChoice.

(** ** When the preferences dict is empty *)

Section Preferences.

Variable d : db.

Lemma dict_set_nonempty {V} (prefs : dict V) (k : Z) (v : V) :
  dict_set prefs k v <> [].
Proof. destruct prefs as [|[k' v'] rest]; cbn; [| destruct (Z.eqb k' k)]; discriminate. Qed.

Lemma preferences_of_rows_empty (rows : list (theme_row * option pref_row)) :
  preferences_of_rows rows = [] <-> rows = [].
Proof.
  unfold preferences_of_rows. split; [| intros ->; reflexivity].
  destruct rows as [|row rows]; [reflexivity |]. cbn [List.fold_left].
  intros H. exfalso. revert H.
  generalize (dict_set_nonempty (@nil (Z * theme_data)) (t_id (fst row))
    {| td_name := Some (t_name (fst row)); td_emoji := Some (t_emoji (fst row));
       td_score := Some (Py.float_or (up_score <$> snd row) 0%Q);
       td_interactions := Some (Py.int_or (up_interactions <$> snd row) 0%Z) |}).
  generalize (dict_set (@nil (Z * theme_data)) (t_id (fst row))
    {| td_name := Some (t_name (fst row)); td_emoji := Some (t_emoji (fst row));
       td_score := Some (Py.float_or (up_score <$> snd row) 0%Q);
       td_interactions := Some (Py.int_or (up_interactions <$> snd row) 0%Z) |}).
  induction rows as [|row' rows IH]; intros prefs Hne; cbn [List.fold_left].
  - exact Hne.
  - apply IH. apply dict_set_nonempty.
Qed.

Lemma insert_by_id_nonempty (t : theme_row) (ts : list theme_row) :
  insert_by_id t ts <> [].
Proof. destruct ts; cbn; [| destruct (Z.leb _ _)]; discriminate. Qed.

Lemma order_by_id_empty (ts : list theme_row) : order_by_id ts = [] <-> ts = [].
Proof.
  split; [| intros ->; reflexivity].
  destruct ts as [|t ts]; [reflexivity |]. cbn.
  intros H. exfalso. exact (insert_by_id_nonempty _ _ H).
Qed.

Lemma no_preference_entries_iff (f : fault) (user_id : Z) :
  no_preference_entries d f user_id <-> themes d = [] \/ read_fails f.
Proof.
  unfold no_preference_entries, get_user_preferences, method, with_connection,
    execute, read_fails.
  destruct f; cbn;
    try (split; [intros _; right; auto | exact (fun _ => I)]).
  all: destruct (preferences_of_rows (preference_rows d user_id))
         as [|p ps] eqn:E.
  1,3: split; [intros _; left | exact (fun _ => I)];
       apply preferences_of_rows_empty in E; unfold preference_rows in E;
       apply map_eq_nil in E; apply order_by_id_empty; exact E.
  all: split; [tauto |]; intros [Ht | [Hf | Hf]]; [| congruence | congruence];
       assert (E' : preferences_of_rows (preference_rows d user_id) = [])
         by (apply preferences_of_rows_empty; unfold preference_rows;
             rewrite Ht; reflexivity);
       congruence.
Qed.

End Preferences.

(** ** Paths of get_recommended_joke *)

Section Recommend.

Variables (self : recommender) (d : db) (st : storage) (r : draws) (user_id : Z).

Lemma fallback_when_no_entries :
  no_preference_entries d (st_preferences st) user_id ->
  get_recommended_joke self d st r user_id
  = (fst (get_user_preferences d (st_preferences st) user_id)
       ++ MsgNoPreferences user_id
            :: fst (get_random_joke d (st_plain st) (pick_plain r) None None),
     self,
     Ok (snd (get_random_joke d (st_plain st) (pick_plain r) None None))).
Proof.
  unfold no_preference_entries, get_recommended_joke, recommend_body.
  destruct (get_user_preferences d (st_preferences st) user_id)
    as [o1 [[|p ps]|]]; cbn [fst snd]; intros H; try contradiction;
    destruct (get_random_joke d (st_plain st) (pick_plain r) None None);
    reflexivity.
Qed.

Lemma view_history_read_fails :
  st_interactions st = ExecuteFails ->
  _update_view_history self d (st_interactions st) user_id
  = ([MsgDbError], Raise TypeError).
Proof. intros ->. reflexivity. Qed.

Lemma view_history_raises (f : fault) (e : exn) :
  snd (_update_view_history self d f user_id) = Raise e -> e = TypeError.
Proof.
  unfold _update_view_history.
  destruct (get_user_interactions d f user_id) as [o [ids|]]; cbn [snd];
    congruence.
Qed.

Lemma search_raises (self' : recommender) (theme_id : Z)
    (preferences : dict theme_data) (e : exn) :
  snd (_search_joke_in_theme self' d st r user_id theme_id preferences)
  = Raise e -> e = KeyError.
Proof.
  unfold _search_joke_in_theme.
  destruct (_get_random_joke_with_exclusions _ _ _ _ _ _) as [out [j|]];
    cbn [snd]; [| discriminate].
  destruct (dict_get preferences theme_id) as [data|]; [| discriminate].
  destruct (td_name data), (td_emoji data); cbn [snd]; congruence.
Qed.

Lemma recommend_body_raises (e : exn) :
  snd (recommend_body self d st r user_id) = Raise e ->
  e = ValueError \/ e = TypeError \/ e = KeyError.
Proof.
  unfold recommend_body.
  destruct (get_user_preferences d (st_preferences st) user_id)
    as [o1 [[|p ps]|]];
    try (destruct (get_random_joke d (st_plain st) (pick_plain r) None None);
         cbn [snd]; discriminate).
  destruct (_update_view_history self d (st_interactions st) user_id)
    as [o2 [self'|e']] eqn:Eview.
  2:{ cbn [snd]. intros [= <-]. right. left.
      apply (view_history_raises (st_interactions st)).
      rewrite Eview. reflexivity. }
  destruct (_try_exploration_joke self' d st r user_id) as [o3 [j|]];
    [cbn [snd]; discriminate |].
  destruct (_calculate_theme_probabilities (p :: ps)) as [|tp tps] eqn:Etp.
  { destruct (_get_fallback_joke self' d st r user_id). cbn [snd]. discriminate. }
  destruct (_choose_theme_by_probability r (tp :: tps)) as [chosen|e'] eqn:Ech.
  2:{ cbn [snd]. intros [= <-]. left.
      apply (choose_theme_raises r (tp :: tps)); [discriminate | exact Ech]. }
  destruct (_search_joke_in_theme self' d st r user_id chosen (p :: ps))
    as [o6 [[j|]|e']] eqn:Es.
  - cbn [snd]. discriminate.
  - destruct (_get_fallback_joke self' d st r user_id). cbn [snd]. discriminate.
  - cbn [snd]. intros [= <-]. right. right.
    apply (search_raises self' chosen (p :: ps)). rewrite Es. reflexivity.
Qed.

Lemma recommend_returns :
  exists joke, snd (get_recommended_joke self d st r user_id) = Ok joke.
Proof.
  unfold get_recommended_joke.
  assert (Hraise := recommend_body_raises).
  destruct (recommend_body self d st r user_id) as [[out self'] [joke|e]].
  - exists joke. reflexivity.
  - cbn [snd] in Hraise.
    destruct (Hraise e eq_refl) as [-> | [-> | ->]];
      destruct (get_random_joke d (st_plain st) (pick_plain r) None None)
        as [o joke]; exists joke; reflexivity.
Qed.

Lemma failed_reads_degrade :
  read_fails (st_preferences st) \/ st_interactions st = ExecuteFails ->
  snd (get_recommended_joke self d st r user_id)
  = Ok (snd (get_random_joke d (st_plain st) (pick_plain r) None None)).
Proof.
  intros H.
  destruct (get_user_preferences d (st_preferences st) user_id)
    as [o1 [[|p ps]|]] eqn:Eprefs.
  1,3: rewrite fallback_when_no_entries;
         [reflexivity | unfold no_preference_entries; rewrite Eprefs; exact I].
  destruct H as [Hp | Hi].
  - exfalso.
    assert (Hno : no_preference_entries d (st_preferences st) user_id)
      by (apply no_preference_entries_iff; right; exact Hp).
    unfold no_preference_entries in Hno. rewrite Eprefs in Hno. exact Hno.
  - unfold get_recommended_joke, recommend_body.
    rewrite Eprefs, (view_history_read_fails Hi).
    destruct (get_random_joke d (st_plain st) (pick_plain r) None None).
    reflexivity.
Qed.

End Recommend.

Section EmptyCatalog.

Variables (d : db) (st : storage) (r : draws) (user_id : Z).
Hypothesis Hnone : approved_jokes d = [].

Lemma with_exclusions_nothing (self : recommender) (f : fault) (pick : nat)
    (theme_id : option Z) :
  snd (_get_random_joke_with_exclusions self d f pick user_id theme_id) = None.
Proof. apply empty_catalog_finds_nothing. exact Hnone. Qed.

Lemma exploration_nothing (self : recommender) :
  snd (_try_exploration_joke self d st r user_id) = None.
Proof.
  unfold _try_exploration_joke.
  destruct (Qlt_le_dec _ _); [| reflexivity].
  assert (H := with_exclusions_nothing self (st_explore st) (pick_explore r) None).
  destruct (_get_random_joke_with_exclusions _ _ _ _ _ _). exact H.
Qed.

Lemma fallback_nothing (self : recommender) :
  snd (_get_fallback_joke self d st r user_id) = None.
Proof.
  unfold _get_fallback_joke.
  assert (H := with_exclusions_nothing self (st_fallback st) (pick_fallback r) None).
  destruct (_get_random_joke_with_exclusions _ _ _ _ _ _) as [out joke].
  cbn [snd] in H. subst joke. reflexivity.
Qed.

Lemma search_nothing (self : recommender) (theme_id : Z)
    (preferences : dict theme_data) :
  snd (_search_joke_in_theme self d st r user_id theme_id preferences)
  = Ok None.
Proof.
  unfold _search_joke_in_theme.
  assert (H := with_exclusions_nothing self (st_theme st) (pick_theme r)
                 (Some theme_id)).
  destruct (_get_random_joke_with_exclusions _ _ _ _ _ _) as [out joke].
  cbn [snd] in H. subst joke. reflexivity.
Qed.

Lemma empty_catalog_recommends_nothing (self : recommender) :
  snd (get_recommended_joke self d st r user_id) = Ok None.
Proof.
  assert (Hplain := empty_catalog_finds_nothing d (st_plain st) (pick_plain r)
                      None None Hnone).
  unfold get_recommended_joke, recommend_body.
  destruct (get_random_joke d (st_plain st) (pick_plain r) None None)
    as [op plain]. cbn [snd] in Hplain. subst plain.
  destruct (get_user_preferences d (st_preferences st) user_id)
    as [o1 [[|p ps]|]]; try reflexivity.
  assert (Hv := view_history_raises self d user_id (st_interactions st)).
  destruct (_update_view_history self d (st_interactions st) user_id)
    as [o2 [self'|e]].
  2:{ rewrite (Hv e eq_refl). reflexivity. }
  assert (He := exploration_nothing self').
  destruct (_try_exploration_joke self' d st r user_id) as [o3 joke].
  cbn [snd] in He. subst joke.
  assert (Hf := fallback_nothing self').
  destruct (_get_fallback_joke self' d st r user_id) as [ofb joke].
  cbn [snd] in Hf. subst joke.
  destruct (_calculate_theme_probabilities (p :: ps)) as [|tp tps];
    [reflexivity |].
  assert (Hc := choose_theme_raises r (tp :: tps)).
  destruct (_choose_theme_by_probability r (tp :: tps)) as [chosen|e].
  2:{ rewrite (Hc e); [reflexivity | discriminate | reflexivity]. }
  assert (Hs := search_nothing self' chosen (p :: ps)).
  destruct (_search_joke_in_theme self' d st r user_id chosen (p :: ps))
    as [o6 found].
  cbn [snd] in Hs. subst found. reflexivity.
Qed.

End EmptyCatalog.

(** ** The no-preference fallback *)

Section NoPreferenceFallback.




End NoPreferenceFallback.

(** ** The user profile *)

Section UserProfile.

Lemma insert_by_score_perm (x : theme_profile) (xs : list theme_profile) :
  Permutation (insert_by_score x xs) (x :: xs).
Proof.
  induction xs as [|y ys IH]; cbn; [reflexivity |].
  destruct (Qlt_le_dec (tp_score x) (tp_score y)); [| reflexivity].
  rewrite IH. apply perm_swap.
Qed.

Lemma sorted_by_score_desc_perm (xs : list theme_profile) :
  Permutation (sorted_by_score_desc xs) xs.
Proof.
  induction xs as [|x xs IH]; cbn; [reflexivity |].
  rewrite insert_by_score_perm. constructor. exact IH.
Qed.

Lemma insert_by_score_sorted (x : theme_profile) (xs : list theme_profile) :
  StronglySorted by_score_desc xs ->
  StronglySorted by_score_desc (insert_by_score x xs).
Proof.
  induction 1 as [|y ys Hs IH Hy]; cbn.
  - constructor; constructor.
  - destruct (Qlt_le_dec (tp_score x) (tp_score y)) as [Hlt | Hle].
    + constructor; [exact IH |].
      apply List.Forall_forall. intros z Hz.
      apply (Permutation_in _ (insert_by_score_perm x ys)) in Hz.
      destruct Hz as [<- | Hz].
      * unfold by_score_desc. lra.
      * rewrite List.Forall_forall in Hy. exact (Hy z Hz).
    + constructor; [constructor; assumption |].
      constructor; [exact Hle |].
      rewrite List.Forall_forall in Hy |- *. intros z Hz.
      specialize (Hy z Hz). unfold by_score_desc in *. lra.
Qed.

Lemma sorted_by_score_desc_sorted (xs : list theme_profile) :
  StronglySorted by_score_desc (sorted_by_score_desc xs).
Proof.
  induction xs as [|x xs IH]; cbn; [constructor |].
  apply insert_by_score_sorted. exact IH.
Qed.


Lemma loop_after_snoc (l : dict theme_data) (x : Z * theme_data) :
  loop_after (l ++ [x]) = profile_step (loop_after l) x.
Proof. unfold loop_after. rewrite List.fold_left_app. reflexivity. Qed.

Lemma loop_themes (l : dict theme_data) :
  profile_themes (acc (loop_after l)) = List.map profile_entry l.
Proof.
  induction l as [|x l IH] using rev_ind; [reflexivity |].
  rewrite loop_after_snoc, List.map_app. cbn. rewrite IH. reflexivity.
Qed.

Lemma loop_favorite (l : dict theme_data) :
  let s := loop_after l in
  (forall t d, In (t, d) l -> (score_of d <= max_score s)%Q) /\
  ((favorite_theme (acc s) = None /\ max_score s = (- (1))%Q) \/
   exists t d, In (t, d) l /\ favorite_theme (acc s) = Some t /\
               max_score s = score_of d /\ (- (1) < score_of d)%Q).
Proof.
  induction l as [|[t d] l IH] using rev_ind.
  - split; [intros t d [] | left; split; reflexivity].
  - rewrite loop_after_snoc. destruct IH as [Hbound Hfav].
    unfold profile_step. cbn [fst snd acc max_score favorite_theme].
    fold (score_of d).
    destruct (Qlt_le_dec (max_score (loop_after l)) (score_of d)) as [Hlt | Hle].
    + split.
      * intros t' d' Hin. apply in_app_or in Hin as [Hin | [[= -> ->] | []]].
        -- specialize (Hbound t' d' Hin). lra.
        -- lra.
      * right. exists t, d.
        repeat split; [apply in_or_app; right; left; reflexivity |].
        destruct Hfav as [[_ Hm] | (t0 & d0 & _ & _ & Hm & Hpos)];
          rewrite Hm in Hlt; lra.
    + split.
      * intros t' d' Hin. apply in_app_or in Hin as [Hin | [[= -> ->] | []]].
        -- exact (Hbound t' d' Hin).
        -- exact Hle.
      * destruct Hfav as [Hnone | (t0 & d0 & Hin & Hf & Hm & Hpos)];
          [left; exact Hnone |].
        right. exists t0, d0. repeat split; try assumption.
        apply in_or_app. left. exact Hin.
Qed.

Lemma loop_least_favorite (l : dict theme_data) :
  let s := loop_after l in
  (forall t d, In (t, d) l -> (min_score s <= score_of d)%Q) /\
  ((least_favorite_theme (acc s) = None /\ min_score s = 1%Q) \/
   exists t d, In (t, d) l /\ least_favorite_theme (acc s) = Some t /\
               min_score s = score_of d /\ (score_of d < 1)%Q).
Proof.
  induction l as [|[t d] l IH] using rev_ind.
  - split; [intros t d [] | left; split; reflexivity].
  - rewrite loop_after_snoc. destruct IH as [Hbound Hfav].
    unfold profile_step. cbn [fst snd acc min_score least_favorite_theme].
    fold (score_of d).
    destruct (Qlt_le_dec (score_of d) (min_score (loop_after l))) as [Hlt | Hle].
    + split.
      * intros t' d' Hin. apply in_app_or in Hin as [Hin | [[= -> ->] | []]].
        -- specialize (Hbound t' d' Hin). lra.
        -- lra.
      * right. exists t, d.
        repeat split; [apply in_or_app; right; left; reflexivity |].
        destruct Hfav as [[_ Hm] | (t0 & d0 & _ & _ & Hm & Hpos)];
          rewrite Hm in Hlt; lra.
    + split.
      * intros t' d' Hin. apply in_app_or in Hin as [Hin | [[= -> ->] | []]].
        -- exact (Hbound t' d' Hin).
        -- exact Hle.
      * destruct Hfav as [Hnone | (t0 & d0 & Hin & Hf & Hm & Hpos)];
          [left; exact Hnone |].
        right. exists t0, d0. repeat split; try assumption.
        apply in_or_app. left. exact Hin.
Qed.

Lemma loop_most_interacted (l : dict theme_data) :
  (forall t d, In (t, d) l -> (0 <= interactions_of d)%Z) ->
  let s := loop_after l in
  (forall t d, In (t, d) l -> (interactions_of d <= max_interactions s)%Z) /\
  ((l = [] /\ max_interactions s = (-1)%Z) \/
   exists t d, In (t, d) l /\ most_interacted_theme (acc s) = Some t /\
               max_interactions s = interactions_of d).
Proof.
  induction l as [|[t d] l IH] using rev_ind; intros Hcount.
  - split; [intros t d [] | left; split; reflexivity].
  - rewrite loop_after_snoc.
    destruct IH as [Hbound Hmost].
    { intros t' d' Hin. apply (Hcount t' d'). apply in_or_app. left. exact Hin. }
    assert (Hd : (0 <= interactions_of d)%Z)
      by (apply (Hcount t d); apply in_or_app; right; left; reflexivity).
    unfold profile_step.
    cbn [fst snd acc max_interactions most_interacted_theme].
    fold (interactions_of d).
    destruct (Z.ltb_spec (max_interactions (loop_after l)) (interactions_of d))
      as [Hlt | Hle].
    + split.
      * intros t' d' Hin. apply in_app_or in Hin as [Hin | [[= -> ->] | []]].
        -- specialize (Hbound t' d' Hin). lia.
        -- lia.
      * right. exists t, d.
        repeat split. apply in_or_app. right. left. reflexivity.
    + split.
      * intros t' d' Hin. apply in_app_or in Hin as [Hin | [[= -> ->] | []]].
        -- exact (Hbound t' d' Hin).
        -- exact Hle.
      * destruct Hmost as [[_ Hm] | (t0 & d0 & Hin & Hf & Hm)]; [lia |].
        right. exists t0, d0. repeat split; try assumption.
        apply in_or_app. left. exact Hin.
Qed.

(** X26.  What the profile reports away from the bounds of the score
    range, and what it leaves out at them: the themes are sorted by score
    descending, the most interacted theme attains the largest count, the
    favorite (least favorite) theme attains the largest (smallest) score
    whenever some score is above -1 (below 1), and it is missing when
    every score is at the bound. *)
Lemma profile_away_from_bounds (preferences : dict theme_data) :
  preferences <> [] ->
  (forall t d, In (t, d) preferences -> (0 <= interactions_of d)%Z) ->
  let p := _create_user_profile preferences in
  StronglySorted by_score_desc (profile_themes p) /\
  Permutation (profile_themes p) (List.map profile_entry preferences) /\
  (exists t d,
      In (t, d) preferences /\ most_interacted_theme p = Some t /\
      forall t' d', In (t', d') preferences ->
                    (interactions_of d' <= interactions_of d)%Z) /\
  ((exists t d, In (t, d) preferences /\ (- (1) < score_of d)%Q) ->
   exists t d,
     In (t, d) preferences /\ favorite_theme p = Some t /\
     forall t' d', In (t', d') preferences -> (score_of d' <= score_of d)%Q) /\
  ((exists t d, In (t, d) preferences /\ (score_of d < 1)%Q) ->
   exists t d,
     In (t, d) preferences /\ least_favorite_theme p = Some t /\
     forall t' d', In (t', d') preferences -> (score_of d <= score_of d')%Q) /\
  ((forall t d, In (t, d) preferences -> (score_of d <= - (1))%Q) ->
   favorite_theme p = None) /\
  ((forall t d, In (t, d) preferences -> (1 <= score_of d)%Q) ->
   least_favorite_theme p = None).
Proof.
  intros Hne Hcount p.
  destruct (loop_favorite preferences) as [Hmax Hfav].
  destruct (loop_least_favorite preferences) as [Hmin Hleast].
  destruct (loop_most_interacted preferences Hcount) as [Hint Hmost].
  unfold p, _create_user_profile.
  cbn [profile_themes favorite_theme least_favorite_theme most_interacted_theme].
  fold (loop_after preferences). rewrite loop_themes.
  split; [apply sorted_by_score_desc_sorted |].
  split; [apply sorted_by_score_desc_perm |].
  split; [| split; [| split; [| split]]].
  - destruct Hmost as [[Hnil _] | (t & d & Hin & Hm & Heq)]; [contradiction |].
    exists t, d. repeat split; [exact Hin | exact Hm |].
    intros t' d' Hin'. rewrite <- Heq. exact (Hint t' d' Hin').
  - intros (t0 & d0 & Hin0 & Hpos0).
    destruct Hfav as [[_ Hm] | (t & d & Hin & Hf & Heq & _)].
    + specialize (Hmax t0 d0 Hin0). rewrite Hm in Hmax. lra.
    + exists t, d. repeat split; [exact Hin | exact Hf |].
      intros t' d' Hin'. rewrite <- Heq. exact (Hmax t' d' Hin').
  - intros (t0 & d0 & Hin0 & Hpos0).
    destruct Hleast as [[_ Hm] | (t & d & Hin & Hf & Heq & _)].
    + specialize (Hmin t0 d0 Hin0). rewrite Hm in Hmin. lra.
    + exists t, d. repeat split; [exact Hin | exact Hf |].
      intros t' d' Hin'. rewrite <- Heq. exact (Hmin t' d' Hin').
  - intros Hall.
    destruct Hfav as [[Hf _] | (t & d & Hin & _ & _ & Hpos)]; [exact Hf |].
    specialize (Hall t d Hin). lra.
  - intros Hall.
    destruct Hleast as [[Hf _] | (t & d & Hin & _ & _ & Hpos)]; [exact Hf |].
    specialize (Hall t d Hin). lra.
Qed.

(** C10 at the bounds of the score range.  After eleven dislikes the only
    theme of the user has score -1, the maximum over the themes, and the
    profile names no favorite theme; after eleven likes it has score 1,
    the minimum over the themes, and the profile names no least favorite
    theme. *)
Theorem favorite_missing_at_lower_bound :
  (exists p,
      snd (get_user_profile
             (List.last
                (stores_after Examples.single_theme
                   (List.repeat (Examples.rates false) 11))
                Examples.single_theme)
             NoFault 7) = Some p /\
      List.map tp_id (profile_themes p) = [1%Z] /\
      List.Forall (fun t => (tp_score t == - (1))%Q) (profile_themes p) /\
      favorite_theme p = None) /\
  (exists p,
      snd (get_user_profile
             (List.last
                (stores_after Examples.single_theme
                   (List.repeat (Examples.rates true) 11))
                Examples.single_theme)
             NoFault 7) = Some p /\
      List.map tp_id (profile_themes p) = [1%Z] /\
      List.Forall (fun t => (tp_score t == 1)%Q) (profile_themes p) /\
      least_favorite_theme p = None).
Proof.
  split; eexists; (split; [vm_compute; reflexivity |]);
    (split; [reflexivity |]); (split; [| reflexivity]);
    repeat constructor.
Qed.

End UserProfile.

(** * Further properties of the code *)

Import Bookkeeping Invariants.

(** ** get_random_joke: the rows it can return *)

Section Candidates.

Variable d : db.

Lemma random_row_In {A} (pick : nat) (rows : list A) (x : A) :
  random_row pick rows = Some x -> In x rows.
Proof.
  unfold random_row. destruct rows as [|y ys]; [discriminate |].
  apply nth_error_In.
Qed.

Lemma random_row_reaches {A} (rows : list A) (x : A) :
  In x rows -> exists pick, random_row pick rows = Some x.
Proof.
  intros Hin. apply In_nth_error in Hin as [n Hn].
  exists n. unfold random_row. destruct rows as [|y ys]; [destruct n; discriminate |].
  assert (Hlt : (n < length (y :: ys))%nat)
    by (apply nth_error_Some; congruence).
  rewrite Nat.mod_small; assumption.
Qed.

Lemma selected_row (q : query) (rows : list joke_row) (row : joke_row) :
  select_rows d q = SqlOk rows ->
  (In row rows <->
   exists jt, In (row, jt) (source_rows d (q_from q)) /\
              forallb (fun c => holds c (row, jt)) (q_where q) = true).
Proof.
  unfold select_rows. destruct (forallb _ _); [| discriminate].
  intros [= <-]. rewrite in_map_iff. split.
  - intros ([row' jt] & <- & Hin). apply filter_In in Hin as [Hin Hc].
    exists jt. auto.
  - intros (jt & Hin & Hc). exists (row, jt). split; [reflexivity |].
    apply filter_In. auto.
Qed.

Lemma joined_row (row : joke_row) (jt : option joke_theme_row) :
  In (row, jt) (source_rows d FromJokesJoinThemes) <->
  In row (jokes d) /\
  exists l, jt = Some l /\ In l (joke_themes d) /\ jt_joke_id l = j_id row.
Proof.
  cbn. rewrite in_flat_map. split.
  - intros (j & Hj & Hin). apply in_map_iff in Hin as (l & [= <- <-] & Hl).
    apply filter_In in Hl as [Hl He]. split; [exact Hj |].
    exists l. repeat split; [exact Hl | lia].
  - intros (Hj & l & -> & Hl & He). exists row. split; [exact Hj |].
    apply in_map_iff. exists l. split; [reflexivity |].
    apply filter_In. split; [exact Hl | lia].
Qed.

Lemma not_among (x : Z) (ids : list Z) :
  negb (existsb (Z.eqb x) ids) = true <-> ~ In x ids.
Proof.
  rewrite negb_true_iff, <- not_true_iff_false, existsb_exists.
  split; intros H Hin; apply H.
  - exists x. split; [exact Hin | apply Z.eqb_refl].
  - destruct Hin as (y & Hy & He). apply Z.eqb_eq in He. subst. exact Hy.
Qed.

Lemma built_rows (excluded_ids : option (list Z)) (theme_id : option Z)
    (rows : list joke_row) (row : joke_row) :
  select_rows d (build_query excluded_ids theme_id) = SqlOk rows ->
  (In row rows <->
   In row (jokes d) /\ j_is_approved row = true /\
   ~ excluded_from excluded_ids (j_id row) /\
   (forall t, theme_given theme_id = Some t -> linked d (j_id row) t)).
Proof.
  intros Es. rewrite (selected_row _ _ _ Es). clear rows Es.
  unfold build_query, linked.
  destruct (theme_given theme_id) as [t|];
    destruct excluded_ids as [[|i ids]|]; cbn [q_from q_where app forallb holds
                                               fst snd excluded_from];
    rewrite ?andb_true_r.
  all: (split; [intros (jt & Hsrc & Hc) | intros (Hj & Ha & He & Ht)]).
  (* theme, empty exclusion list *)
  - apply joined_row in Hsrc as (Hj & l & -> & Hl & Hjl).
    apply andb_true_iff in Hc as [Ha Hc]. cbn [fst snd] in Hc. rewrite ?andb_true_r in Hc.
    repeat split; [exact Hj | exact Ha | tauto |].
    intros t' [= <-]. exists l. repeat split; [exact Hl | exact Hjl | lia].
  - destruct (Ht t eq_refl) as (l & Hl & Hjl & Htl).
    exists (Some l). split; [apply joined_row; eauto |].
    rewrite Ha. cbn [andb fst snd]. rewrite ?andb_true_r. apply Z.eqb_eq. exact Htl.
  (* theme, exclusions *)
  - apply joined_row in Hsrc as (Hj & l & -> & Hl & Hjl).
    apply andb_true_iff in Hc as [Ha Hc].
    apply andb_true_iff in Hc as [Hc Hx]. cbn [fst snd] in Hc, Hx.
    rewrite ?andb_true_r in Hx.
    repeat split; [exact Hj | exact Ha | apply not_among; exact Hx |].
    intros t' [= <-]. exists l. repeat split; [exact Hl | exact Hjl | lia].
  - destruct (Ht t eq_refl) as (l & Hl & Hjl & Htl).
    exists (Some l). split; [apply joined_row; eauto |].
    rewrite Ha. cbn [andb fst snd]. rewrite ?andb_true_r.
    apply andb_true_iff. split; [apply Z.eqb_eq; exact Htl |].
    apply not_among. exact He.
  (* theme, no exclusion argument *)
  - apply joined_row in Hsrc as (Hj & l & -> & Hl & Hjl).
    apply andb_true_iff in Hc as [Ha Hc]. cbn [fst snd] in Hc. rewrite ?andb_true_r in Hc.
    repeat split; [exact Hj | exact Ha | tauto |].
    intros t' [= <-]. exists l. repeat split; [exact Hl | exact Hjl | lia].
  - destruct (Ht t eq_refl) as (l & Hl & Hjl & Htl).
    exists (Some l). split; [apply joined_row; eauto |].
    rewrite Ha. cbn [andb fst snd]. rewrite ?andb_true_r. apply Z.eqb_eq. exact Htl.
  (* no theme, empty exclusion list *)
  - apply in_map_iff in Hsrc as (j & [= <- <-] & Hj).
    repeat split; [exact Hj | exact Hc | tauto | discriminate].
  - exists None. split; [apply in_map_iff; eauto | exact Ha].
  (* no theme, exclusions: the clause names [j.id] *)
  - apply in_map_iff in Hsrc as (j & [= <- <-] & Hj).
    apply andb_true_iff in Hc as [Ha Hx]. cbn [fst snd] in Hx. rewrite ?andb_true_r in Hx.
    repeat split; [exact Hj | exact Ha | apply not_among; exact Hx | discriminate].
  - exists None. split; [apply in_map_iff; eauto |].
    rewrite Ha. cbn [andb fst snd]. rewrite ?andb_true_r. apply not_among. exact He.
  (* no theme, no exclusion argument *)
  - apply in_map_iff in Hsrc as (j & [= <- <-] & Hj).
    repeat split; [exact Hj | exact Hc | tauto | discriminate].
  - exists None. split; [apply in_map_iff; eauto | exact Ha].
Qed.

Lemma drawn_row (f : fault) (pick : nat) (excluded_ids : option (list Z))
    (theme_id : option Z) (joke : joke_view) :
  snd (get_random_joke d f pick excluded_ids theme_id) = Some joke ->
  exists row,
    joke = view_of_row row /\ In row (jokes d) /\ j_is_approved row = true /\
    ~ excluded_from excluded_ids (j_id row) /\
    (forall t, theme_given theme_id = Some t -> linked d (j_id row) t).
Proof.
  unfold get_random_joke, method, with_connection.
  destruct f; cbn [execute sql_bind]; try discriminate.
  all: destruct (select_rows d (build_query excluded_ids theme_id))
         as [rows|] eqn:Es;
       cbn [sql_bind snd commit_raises]; [| discriminate].
  all: destruct (random_row pick rows) as [row|] eqn:Er; [| discriminate].
  all: intros [= <-]; apply random_row_In in Er.
  all: apply (built_rows _ _ _ _ Es) in Er as (Hj & Ha & He & Ht).
  all: exists row; auto.
Qed.

(** X1.  Whatever the storage condition, the draw, the exclusion list and
    the theme, a joke [get_random_joke] returns is a row of [jokes] that is
    approved, is not among the excluded ids and, when a theme is given, is
    linked to that theme by a row of [joke_themes]; its theme keys are
    unset. *)
Theorem random_joke_is_a_candidate
    (f : fault) (pick : nat) (excluded_ids : option (list Z))
    (theme_id : option Z) (joke : joke_view) :
  snd (get_random_joke d f pick excluded_ids theme_id) = Some joke ->
  exists row,
    In row (jokes d) /\ joke = view_of_row row /\
    j_is_approved row = true /\
    ~ excluded_from excluded_ids (j_id row) /\
    (forall t, theme_given theme_id = Some t -> linked d (j_id row) t).
Proof.
  intros Hdrawn.
  destruct (drawn_row f pick excluded_ids theme_id joke Hdrawn)
    as (row & Hview & Hrow & Happroved & Hkept & Hlinked).
  exists row. repeat split; assumption.
Qed.

(** X2.  With working storage and a theme id other than 0, the query with
    a theme finds every candidate: when some approved row of [jokes] is
    linked to the theme and not excluded, the method never returns [None],
    and each such row is the result of some draw. *)
Theorem themed_query_finds_every_candidate
    (pick : nat) (excluded_ids : option (list Z)) (theme_id : Z)
    (row : joke_row) :
  theme_id <> 0%Z ->
  In row (jokes d) -> j_is_approved row = true ->
  ~ excluded_from excluded_ids (j_id row) ->
  linked d (j_id row) theme_id ->
  snd (get_random_joke d NoFault pick excluded_ids (Some theme_id)) <> None /\
  exists pick',
    snd (get_random_joke d NoFault pick' excluded_ids (Some theme_id))
    = Some (view_of_row row).
Proof.
  intros Hnz Hj Ha He Hl.
  assert (Hgiven : theme_given (Some theme_id) = Some theme_id).
  { cbn. destruct (Z.eqb_spec theme_id 0); [contradiction | reflexivity]. }
  assert (Hq : exists rows,
             select_rows d (build_query excluded_ids (Some theme_id)) = SqlOk rows).
  { unfold select_rows, build_query. rewrite Hgiven.
    destruct excluded_ids as [[|i ids]|]; cbn; eauto. }
  destruct Hq as [rows Es].
  assert (Hin : In row rows).
  { apply (built_rows _ _ _ _ Es). repeat split; try assumption.
    intros t Ht. rewrite Hgiven in Ht. injection Ht as <-. exact Hl. }
  unfold get_random_joke, method, with_connection. cbn [execute].
  rewrite Es. cbn [sql_bind snd]. split.
  - destruct rows as [|r0 rs]; [destruct Hin |].
    unfold random_row.
    destruct (nth_error (r0 :: rs) (pick mod length (r0 :: rs))) eqn:En;
      [discriminate |].
    apply nth_error_None in En.
    assert (pick mod length (r0 :: rs) < length (r0 :: rs))%nat
      by (apply Nat.mod_upper_bound; discriminate).
    lia.
  - destruct (random_row_reaches rows row Hin) as [pick' Hp].
    exists pick'. rewrite Hp. reflexivity.
Qed.

End Candidates.

Lemma random_joke_is_a_candidate_witness :
  exists row,
    In row (jokes Examples.catalog) /\ Scenarios.bulichka = view_of_row row /\
    j_is_approved row = true /\
    ~ excluded_from (Some [1%Z]) (j_id row) /\
    (forall t, theme_given (Some 2%Z) = Some t ->
               linked Examples.catalog (j_id row) t).
Proof.
  apply (random_joke_is_a_candidate Examples.catalog NoFault 0
           (Some [1%Z]) (Some 2%Z)).
  reflexivity.
Defined.

Lemma themed_query_finds_every_candidate_witness :
  snd (get_random_joke Examples.catalog NoFault 5 (Some [1%Z]) (Some 2%Z))
  <> None /\
  exists pick',
    snd (get_random_joke Examples.catalog NoFault pick' (Some [1%Z]) (Some 2%Z))
    = Some
        (view_of_row
           {| j_id := 2; j_text := "Буличка"; j_is_approved := true |}).
Proof.
  apply (themed_query_finds_every_candidate Examples.catalog 5 (Some [1%Z]) 2
           {| j_id := 2; j_text := "Буличка"; j_is_approved := true |}).
  - discriminate.
  - right. left. reflexivity.
  - reflexivity.
  - cbn. intros [H | []]. discriminate H.
  - exists {| jt_joke_id := 2; jt_theme_id := 2; jt_weight := None |}.
    split; [| split; reflexivity]. right. right. left. reflexivity.
Defined.

(** ** Theme probabilities: range, order and the draw *)
Section ProbabilityShape.

(** X3.  For a score within [-1, 1] the probability
    [_calculate_theme_probability] computes lies within [0, 1], whatever
    the number of interactions. *)
Theorem probability_within_unit (data : theme_data) :
  (- (1) <= score_of data)%Q -> (score_of data <= 1)%Q ->
  (0 <= _calculate_theme_probability data)%Q /\
  (_calculate_theme_probability data <= 1)%Q.
Proof.
  unfold _calculate_theme_probability, score_of. intros Hlo Hhi.
  set (s := default 0%Q (td_score data)) in *.
  assert (Hh := half_spec (s + 1)).
  destruct (Z.ltb _ 5); py_cases; split; lra.
Qed.

(** X4.  Between two themes with the same number of interactions, the one
    with the higher score never gets the lower probability: the floor and
    the dampening keep the order of the scores. *)
Theorem probability_grows_with_score (worse better : theme_data) :
  interactions_of worse = interactions_of better ->
  (score_of worse <= score_of better)%Q ->
  (_calculate_theme_probability worse
   <= _calculate_theme_probability better)%Q.
Proof.
  unfold _calculate_theme_probability, score_of, interactions_of.
  intros -> Hs.
  set (a := default 0%Q (td_score worse)) in *.
  set (b := default 0%Q (td_score better)) in *.
  assert (Ha := half_spec (a + 1)). assert (Hb := half_spec (b + 1)).
  destruct (Z.ltb _ 5); py_cases; lra.
Qed.

End ProbabilityShape.

Lemma probability_within_unit_witness :
  (0 <= _calculate_theme_probability Examples.disliked_newcomer)%Q /\
  (_calculate_theme_probability Examples.disliked_newcomer <= 1)%Q.
Proof.
  apply (probability_within_unit Examples.disliked_newcomer);
    vm_compute; discriminate.
Defined.

Lemma probability_grows_with_score_witness :
  (_calculate_theme_probability Scenarios.neutral_theme
   <= _calculate_theme_probability Scenarios.liked_theme)%Q.
Proof.
  apply (probability_grows_with_score Scenarios.neutral_theme
           Scenarios.liked_theme).
  - reflexivity.
  - vm_compute. discriminate.
Defined.

Section ThemeDraw.

Lemma accumulate_from_last (ws : list Q) (acc : Q) (dflt : option Q) :
  List.Forall (fun w => (0 < w)%Q) ws -> (0 < acc)%Q ->
  (forall x, dflt = Some x -> (0 < x)%Q) ->
  forall total,
    List.last (List.map Some (accumulate_from acc ws)) dflt = Some total ->
    (0 < total)%Q.
Proof.
  intros Hws. revert acc.
  induction Hws as [|w ws Hw _ IH]; intros acc Hacc Hd total.
  - cbn. apply Hd.
  - cbn [accumulate_from List.map List.last].
    destruct (List.map Some (accumulate_from (acc + w) ws)) eqn:E.
    + intros [= <-]. lra.
    + rewrite <- E. apply (IH (acc + w)%Q); [lra | exact Hd].
Qed.

Lemma accumulate_last (ws : list Q) (total : Q) :
  List.Forall (fun w => (0 < w)%Q) ws ->
  List.last (List.map Some (accumulate ws)) None = Some total ->
  (0 < total)%Q.
Proof.
  intros Hws. destruct Hws as [|w ws Hw Hws]; [discriminate |].
  cbn [accumulate List.map List.last].
  destruct (List.map Some (accumulate_from w ws)) eqn:E.
  - intros [= <-]. exact Hw.
  - rewrite <- E. apply (accumulate_from_last ws w None Hws Hw). discriminate.
Qed.

Lemma choices_draws (population : list Z) (weights : list Q) (u : Q) :
  population <> [] -> length weights = length population ->
  List.Forall (fun w => (0 < w)%Q) weights ->
  exists x, choices population weights u = Ok x /\ In x population.
Proof.
  intros Hne Hlen Hpos. unfold choices.
  rewrite accumulate_length, Hlen, Nat.eqb_refl. cbn [negb].
  destruct (last_some (accumulate weights)) as [total Ht].
  { intros E. apply (f_equal (@length Q)) in E.
    rewrite accumulate_length, Hlen in E.
    destruct population; [congruence | discriminate]. }
  rewrite Ht. assert (Hpos' := accumulate_last weights total Hpos Ht).
  destruct (Qle_bool total 0) eqn:Ele.
  { apply Qle_bool_iff in Ele. lra. }
  destruct (nth_error population _) as [x|] eqn:En.
  - exists x. split; [reflexivity |]. apply nth_error_In in En. exact En.
  - apply nth_error_None in En.
    assert (Hb := bisect_bound (accumulate weights) (u * total)
                    (length population - 1)).
    destruct population; [congruence | cbn in *; lia].
Qed.

Lemma positive_probabilities_positive (preferences : dict theme_data) :
  List.Forall (fun tp => (0 < snd tp)%Q) (positive_probabilities preferences).
Proof.
  apply List.Forall_forall. intros [t p] Hin.
  apply positive_probabilities_spec in Hin as (data & _ & _ & Hp). exact Hp.
Qed.

Lemma sum_positive (tps : list (Z * Q)) :
  tps <> [] -> List.Forall (fun tp => (0 < snd tp)%Q) tps ->
  (0 < Py.sum (List.map snd tps))%Q.
Proof.
  intros Hne H. induction H as [|tp tps Hp Hrest IH]; [congruence |].
  cbn [List.map]. rewrite sum_cons.
  destruct tps as [|tp' tps'].
  - unfold Py.sum. cbn. lra.
  - assert (0 < Py.sum (List.map snd (tp' :: tps')))%Q by (apply IH; discriminate).
    lra.
Qed.

Lemma normalized_candidates_in_unit (preferences : dict theme_data) :
  List.Forall (fun tp => (0 < snd tp)%Q /\ (snd tp <= 1)%Q)
    (_calculate_theme_probabilities preferences).
Proof.
  unfold _calculate_theme_probabilities.
  assert (Hpos := positive_probabilities_positive preferences).
  destruct (positive_probabilities preferences) as [|tp tps] eqn:E;
    [constructor |].
  rewrite normalize_unfold by discriminate. cbv zeta.
  assert (Hsum := sum_positive (tp :: tps) ltac:(discriminate) Hpos).
  destruct (Qlt_le_dec 0 _) as [_ | Hle]; [| lra].
  apply List.Forall_forall. intros x Hx.
  apply in_map_iff in Hx as (y & <- & Hy). cbn [snd].
  rewrite List.Forall_forall in Hpos. assert (Hy' := Hpos y Hy).
  set (total := Py.sum (List.map snd (tp :: tps))) in *.
  assert (Hle : (snd y <= total)%Q).
  { clear -Hy Hpos. unfold total. clear total.
    induction (tp :: tps) as [|z zs IH]; [destruct Hy |].
    cbn [List.map]. rewrite sum_cons.
    assert (Hz : (0 < snd z)%Q) by (apply Hpos; left; reflexivity).
    destruct Hy as [-> | Hy].
    - destruct zs as [|z' zs'].
      + unfold Py.sum. cbn. lra.
      + assert (0 < Py.sum (List.map snd (z' :: zs')))%Q.
        { apply sum_positive; [discriminate |].
          apply List.Forall_forall. intros w Hw. apply Hpos. right. exact Hw. }
        lra.
    - assert (snd y <= Py.sum (List.map snd zs))%Q.
      { apply IH; [| exact Hy]. intros w Hw. apply Hpos. right. exact Hw. }
      lra. }
  split.
  - apply Qlt_shift_div_l; lra.
  - apply Qle_shift_div_r; lra.
Qed.

(** X5.  The candidates [_calculate_theme_probabilities] returns are the
    themes of the dict whose probability before normalization is
    positive, each once per entry and in the order of the dict; every
    probability returned lies in (0, 1]. *)
Theorem candidates_are_the_positive_themes (preferences : dict theme_data) :
  let candidates := _calculate_theme_probabilities preferences in
  List.Forall (fun tp => (0 < snd tp)%Q /\ (snd tp <= 1)%Q) candidates /\
  List.map fst candidates
  = List.map fst
      (List.filter
         (fun item =>
            if Qlt_le_dec 0 (_calculate_theme_probability (snd item))
            then true else false)
         preferences) /\
  (forall theme_id,
      In theme_id (List.map fst candidates) <->
      exists data,
        In (theme_id, data) preferences /\
        (0 < _calculate_theme_probability data)%Q).
Proof.
  intros candidates. unfold candidates.
  split; [apply normalized_candidates_in_unit |].
  assert (Hkeys := normalize_keeps_themes (positive_probabilities preferences)).
  fold (_calculate_theme_probabilities preferences) in Hkeys.
  rewrite Hkeys. split.
  - unfold positive_probabilities. clear Hkeys.
    induction preferences as [|[t data] rest IH]; [reflexivity |].
    cbn [List.map List.filter fst snd].
    destruct (Qlt_le_dec 0 (_calculate_theme_probability data));
      cbn [List.map fst]; rewrite IH; reflexivity.
  - intros theme_id. rewrite in_map_iff. split.
    + intros ([t p] & Ht & Hin). cbn in Ht. subst t.
      apply positive_probabilities_spec in Hin as (data & Hd & -> & Hp).
      exists data. split; assumption.
    + intros (data & Hd & Hp).
      exists (theme_id, _calculate_theme_probability data).
      split; [reflexivity |].
      apply positive_probabilities_spec. exists data. auto.
Qed.

(** X6.  When some theme of the dict has a positive probability, the
    weighted draw of [_choose_theme_by_probability] over the candidates
    succeeds for every outcome of the random numbers, and the theme drawn
    is one of the dict with a positive probability. *)
Theorem theme_draw_succeeds (r : draws) (preferences : dict theme_data) :
  positive_probabilities preferences <> [] ->
  exists theme_id data,
    _choose_theme_by_probability r (_calculate_theme_probabilities preferences)
    = Ok theme_id /\
    In (theme_id, data) preferences /\
    (0 < _calculate_theme_probability data)%Q.
Proof.
  intros Hne.
  assert (Hkeys := normalize_keeps_themes (positive_probabilities preferences)).
  assert (Hpos := normalized_candidates_in_unit preferences).
  fold (_calculate_theme_probabilities preferences) in Hkeys.
  set (tps := _calculate_theme_probabilities preferences) in *.
  assert (Hne' : List.map fst tps <> []).
  { rewrite Hkeys. destruct (positive_probabilities preferences);
      [congruence | discriminate]. }
  destruct (choices_draws (List.map fst tps)
              (if Nat.ltb 1 (length (List.map fst tps))
               then List.map (fun w => Py.max w (1 # 100))
                      (imap (fun i w => (w + jitter r i)%Q) (List.map snd tps))
               else List.map snd tps)
              (choice_u r) Hne')
    as (x & Hx & Hin).
  - destruct (Nat.ltb 1 _).
    + rewrite List.length_map, length_imap, !List.length_map. reflexivity.
    + rewrite !List.length_map. reflexivity.
  - destruct (Nat.ltb 1 _).
    + apply List.Forall_forall. intros w Hw.
      apply in_map_iff in Hw as (v & <- & _). py_cases; lra.
    + apply List.Forall_forall. intros w Hw.
      apply in_map_iff in Hw as (tp & <- & Htp).
      rewrite List.Forall_forall in Hpos. apply (Hpos tp Htp).
  - rewrite Hkeys in Hin. apply in_map_iff in Hin as ([t p] & Ht & Hin).
    cbn in Ht. subst t.
    apply positive_probabilities_spec in Hin as (data & Hd & -> & Hp).
    exists x, data. split; [exact Hx | split; [exact Hd | exact Hp]].
Qed.

End ThemeDraw.

Lemma theme_draw_succeeds_witness :
  exists theme_id data,
    _choose_theme_by_probability Examples.exploiting
      (_calculate_theme_probabilities
         [(1%Z, Examples.strongly_disliked);
          (2%Z, Examples.disliked_newcomer)])
    = Ok theme_id /\
    In (theme_id, data)
      [(1%Z, Examples.strongly_disliked); (2%Z, Examples.disliked_newcomer)] /\
    (0 < _calculate_theme_probability data)%Q.
Proof.
  apply (theme_draw_succeeds Examples.exploiting
           [(1%Z, Examples.strongly_disliked);
            (2%Z, Examples.disliked_newcomer)]).
  vm_compute. discriminate.
Defined.

(** ** get_user_preferences: the dict it builds *)

Section PreferencesDict.

Lemma insert_by_id_perm (t : theme_row) (ts : list theme_row) :
  Permutation (insert_by_id t ts) (t :: ts).
Proof.
  induction ts as [|t' ts IH]; cbn; [reflexivity |].
  destruct (Z.leb (t_id t) (t_id t')); [reflexivity |].
  rewrite IH. apply perm_swap.
Qed.

Lemma order_by_id_perm (ts : list theme_row) :
  Permutation (order_by_id ts) ts.
Proof.
  induction ts as [|t ts IH]; cbn; [reflexivity |].
  rewrite insert_by_id_perm. constructor. exact IH.
Qed.

Lemma insert_by_id_sorted (t : theme_row) (ts : list theme_row) :
  StronglySorted by_id ts -> StronglySorted by_id (insert_by_id t ts).
Proof.
  induction 1 as [|t' ts Hs IH Ht']; cbn.
  - constructor; constructor.
  - destruct (Z.leb_spec (t_id t) (t_id t')) as [Hle | Hlt].
    + constructor; [constructor; assumption |].
      constructor; [exact Hle |].
      rewrite List.Forall_forall in Ht' |- *. intros z Hz.
      specialize (Ht' z Hz). unfold by_id in *. lia.
    + constructor; [exact IH |].
      apply List.Forall_forall. intros z Hz.
      apply (Permutation_in _ (insert_by_id_perm t ts)) in Hz.
      destruct Hz as [<- | Hz].
      * unfold by_id. lia.
      * rewrite List.Forall_forall in Ht'. exact (Ht' z Hz).
Qed.

Lemma order_by_id_sorted (ts : list theme_row) :
  StronglySorted by_id (order_by_id ts).
Proof.
  induction ts as [|t ts IH]; cbn; [constructor |].
  apply insert_by_id_sorted. exact IH.
Qed.

Lemma sorted_ids (ts : list theme_row) :
  StronglySorted by_id ts -> StronglySorted Z.le (List.map t_id ts).
Proof.
  induction 1 as [|t ts Hs IH Ht]; cbn; constructor; [exact IH |].
  rewrite List.Forall_forall in Ht |- *. intros z Hz.
  apply in_map_iff in Hz as (t' & <- & Ht'). exact (Ht t' Ht').
Qed.

Lemma dict_set_fresh {V} (prefs : dict V) (k : Z) (v : V) :
  ~ In k (List.map fst prefs) -> dict_set prefs k v = prefs ++ [(k, v)].
Proof.
  induction prefs as [|[k' v'] rest IH]; cbn; intros Hfresh; [reflexivity |].
  destruct (Z.eqb_spec k' k) as [-> | _]; [tauto |].
  rewrite IH; [reflexivity | tauto].
Qed.

Lemma preferences_of_unique_rows (d : db) (user_id : Z) (ts : list theme_row) :
  List.NoDup (List.map t_id ts) ->
  preferences_of_rows
    (List.map (fun t => (t, user_preferences d !! (user_id, t_id t))) ts)
  = List.map (preference_entry d user_id) ts.
Proof.
  unfold preferences_of_rows.
  assert (Hgen : forall acc : dict theme_data,
             List.NoDup (List.map fst acc ++ List.map t_id ts) ->
             List.fold_left
               (fun prefs row =>
                  dict_set prefs (t_id (fst row))
                    {| td_name := Some (t_name (fst row));
                       td_emoji := Some (t_emoji (fst row));
                       td_score := Some (Py.float_or (up_score <$> snd row) 0%Q);
                       td_interactions :=
                         Some (Py.int_or (up_interactions <$> snd row) 0%Z) |})
               (List.map (fun t => (t, user_preferences d !! (user_id, t_id t))) ts)
               acc
             = acc ++ List.map (preference_entry d user_id) ts).
  { induction ts as [|t ts IH]; intros acc Hnd; cbn [List.map List.fold_left].
    - rewrite List.app_nil_r. reflexivity.
    - cbn [fst snd]. rewrite dict_set_fresh.
      + rewrite IH.
        * rewrite <- List.app_assoc. reflexivity.
        * rewrite List.map_app. cbn [List.map fst].
          rewrite <- List.app_assoc. exact Hnd.
      + intros Hin. cbn [List.map] in Hnd.
        apply List.NoDup_remove_2 in Hnd. apply Hnd.
        apply in_or_app. left. exact Hin. }
  intros Hnd. apply (Hgen []). exact Hnd.
Qed.

Lemma dict_get_unique {V} (prefs : dict V) (k : Z) (v : V) :
  List.NoDup (List.map fst prefs) -> In (k, v) prefs ->
  dict_get prefs k = Some v.
Proof.
  induction prefs as [|[k' v'] rest IH]; cbn; intros Hnd Hin; [destruct Hin |].
  apply List.NoDup_cons_iff in Hnd as [Hfresh Hnd].
  destruct (Z.eqb_spec k' k) as [-> | Hne].
  - destruct Hin as [[= ->] | Hin]; [reflexivity |].
    exfalso. apply Hfresh. apply in_map_iff. exists (k, v). auto.
  - destruct Hin as [[= -> _] | Hin]; [congruence |]. apply IH; assumption.
Qed.

(** X7.  With working storage and distinct theme ids,
    [get_user_preferences] returns one entry per row of [themes], in
    ascending order of the ids, whether or not the user has rows in
    [user_preferences]: each entry carries the name and emoji of its
    theme and the stored score and interaction count, or 0 where no row
    is stored. *)
Theorem preferences_cover_every_theme (d : db) (user_id : Z) :
  List.NoDup (List.map t_id (themes d)) ->
  exists prefs,
    snd (get_user_preferences d NoFault user_id) = Some prefs /\
    Permutation (List.map fst prefs) (List.map t_id (themes d)) /\
    StronglySorted Z.le (List.map fst prefs) /\
    forall t,
      In t (themes d) ->
      exists data,
        dict_get prefs (t_id t) = Some data /\
        td_name data = Some (t_name t) /\ td_emoji data = Some (t_emoji t) /\
        (score_of data
         == match user_preferences d !! (user_id, t_id t) with
            | Some row => up_score row
            | None => 0
            end)%Q /\
        interactions_of data
        = match user_preferences d !! (user_id, t_id t) with
          | Some row => up_interactions row
          | None => 0%Z
          end.
Proof.
  intros Hnd.
  assert (Hperm := order_by_id_perm (themes d)).
  assert (Hnd' : List.NoDup (List.map t_id (order_by_id (themes d)))).
  { apply (Permutation_NoDup (l := List.map t_id (themes d))); [| exact Hnd].
    apply Permutation_map. symmetry. exact Hperm. }
  exists (List.map (preference_entry d user_id) (order_by_id (themes d))).
  assert (Hkeys : List.map fst
                    (List.map (preference_entry d user_id) (order_by_id (themes d)))
                  = List.map t_id (order_by_id (themes d))).
  { rewrite List.map_map. reflexivity. }
  split; [| split; [| split]].
  - unfold get_user_preferences, method, with_connection, preference_rows.
    cbn [execute sql_bind snd]. rewrite (preferences_of_unique_rows d user_id _ Hnd').
    reflexivity.
  - rewrite Hkeys. apply Permutation_map. exact Hperm.
  - rewrite Hkeys. apply sorted_ids. apply order_by_id_sorted.
  - intros t Ht.
    exists (snd (preference_entry d user_id t)).
    split; [| split; [reflexivity | split; [reflexivity | split]]].
    + apply dict_get_unique; [rewrite Hkeys; exact Hnd' |].
      apply in_map_iff. exists t. split; [reflexivity |].
      apply (Permutation_in _ (Permutation_sym Hperm)). exact Ht.
    + unfold score_of. cbn.
      destruct (user_preferences d !! (user_id, t_id t)) as [row|]; cbn;
        [| reflexivity].
      destruct (Qeq_bool (up_score row) 0) eqn:E; [| reflexivity].
      apply Qeq_bool_iff in E. symmetry. exact E.
    + unfold interactions_of. cbn.
      destruct (user_preferences d !! (user_id, t_id t)) as [row|]; cbn;
        [| reflexivity].
      destruct (Z.eqb_spec (up_interactions row) 0); congruence.
Qed.

End PreferencesDict.

Lemma preferences_cover_every_theme_witness :
  exists prefs,
    snd (get_user_preferences Examples.catalog NoFault 8) = Some prefs /\
    Permutation (List.map fst prefs) (List.map t_id (themes Examples.catalog)) /\
    StronglySorted Z.le (List.map fst prefs).
Proof.
  destruct (preferences_cover_every_theme Examples.catalog 8)
    as (prefs & Hread & Hkeys & Hsorted & _); [nodup_list |].
  exists prefs. repeat split; assumption.
Defined.

(** ** _update_view_history: the history it leaves *)

Section ViewHistory.

Lemma elements_list_to_set_le (l : list Z) :
  (length (elements (list_to_set l : gset Z)) <= length l)%nat.
Proof.
  apply submseteq_length. apply NoDup_submseteq; [apply NoDup_elements |].
  intros x Hx. apply elem_of_elements, elem_of_list_to_set in Hx. exact Hx.
Qed.

Lemma history_set (self : recommender) (user_id : Z) :
  (list_to_set (view_history_of self user_id) : gset Z)
  = default ∅ (user_view_history self !! user_id).
Proof.
  unfold view_history_of.
  destruct (user_view_history self !! user_id) as [s|]; cbn.
  - apply list_to_set_elements_L.
  - reflexivity.
Qed.

Lemma interactions_read (d : db) (user_id : Z) :
  get_user_interactions d NoFault user_id = ([], Some (rated_by d user_id)).
Proof. reflexivity. Qed.

Lemma updated_history (self : recommender) (d : db) (user_id : Z) :
  exists self',
    _update_view_history self d NoFault user_id = ([], Ok self') /\
    user_view_history self'
    = <[user_id :=
          if Nat.ltb 100 (size (seen self d user_id))
          then list_to_set
                 (drop (length (elements (seen self d user_id)) - 50)
                    (elements (seen self d user_id)))
          else seen self d user_id]> (user_view_history self).
Proof.
  unfold _update_view_history. rewrite interactions_read.
  eexists. split; [reflexivity |]. cbn [user_view_history set_user_view_history].
  assert (Hm : match (user_view_history self !! user_id : option (gset Z)) with
               | None => list_to_set (rated_by d user_id)
               | Some s => s ∪ list_to_set (rated_by d user_id)
               end = seen self d user_id).
  { unfold seen. rewrite history_set.
    destruct (user_view_history self !! user_id) as [s|]; cbn; [reflexivity |].
    rewrite (left_id_L ∅ (∪)). reflexivity. }
  rewrite Hm. reflexivity.
Qed.

(** X8.  After a call of [_update_view_history] that does not raise, the
    history of the user holds at most 100 ids and the histories of the
    other users are unchanged.  With working storage it holds only ids
    that were in the history or are rated in [interactions], and all of
    them as long as they are at most 100. *)
Theorem view_history_stays_bounded
    (self self' : recommender) (d : db) (f : fault) (user_id : Z) :
  snd (_update_view_history self d f user_id) = Ok self' ->
  (length (view_history_of self' user_id) <= 100)%nat /\
  (forall other,
      other <> user_id ->
      view_history_of self' other = view_history_of self other) /\
  (f = NoFault ->
   (forall joke_id,
       In joke_id (view_history_of self' user_id) ->
       joke_id ∈ seen self d user_id) /\
   ((size (seen self d user_id) <= 100)%nat ->
    forall joke_id,
      joke_id ∈ seen self d user_id ->
      In joke_id (view_history_of self' user_id))).
Proof.
  unfold _update_view_history.
  destruct (get_user_interactions d f user_id) as [out [ids|]] eqn:Eread;
    cbn [snd]; [| discriminate].
  intros [= <-].
  set (merged := match (user_view_history self !! user_id : option (gset Z)) with
                 | None => list_to_set ids
                 | Some s => s ∪ list_to_set ids
                 end).
  assert (Hself : forall X : gset Z,
             view_history_of
               (set_user_view_history self (<[user_id := X]> (user_view_history self)))
               user_id = elements X).
  { intros X. unfold view_history_of. cbn. rewrite lookup_insert_eq. reflexivity. }
  split; [| split].
  - rewrite Hself.
    destruct (Nat.ltb_spec 100 (size merged)) as [Hbig | Hsmall].
    + etransitivity; [apply elements_list_to_set_le |].
      rewrite length_drop. unfold size, set_size in Hbig. cbn in Hbig. lia.
    + exact Hsmall.
  - intros other Hne. unfold view_history_of. cbn.
    rewrite lookup_insert_ne by congruence. reflexivity.
  - intros ->. rewrite interactions_read in Eread. injection Eread as <- <-.
    assert (Hm : merged = seen self d user_id).
    { unfold merged, seen. rewrite history_set.
      destruct (user_view_history self !! user_id) as [s|]; cbn; [reflexivity |].
      rewrite (left_id_L ∅ (∪)). reflexivity. }
    rewrite Hself, Hm. split.
    + intros joke_id Hin. apply list_elem_of_In, elem_of_elements in Hin.
      destruct (Nat.ltb 100 (size (seen self d user_id))); [| exact Hin].
      apply elem_of_list_to_set in Hin.
      apply elem_of_elements.
      rewrite <- (take_drop (length (elements (seen self d user_id)) - 50)
                    (elements (seen self d user_id))).
      apply elem_of_app. right. exact Hin.
    + intros Hsmall joke_id Hin.
      apply Nat.ltb_ge in Hsmall. rewrite Hsmall.
      apply list_elem_of_In, elem_of_elements. exact Hin.
Qed.

End ViewHistory.

Lemma view_history_stays_bounded_witness :
  exists self',
    snd (_update_view_history init Examples.catalog NoFault 7) = Ok self' /\
    (length (view_history_of self' 7) <= 100)%nat /\
    (forall other,
        other <> 7%Z -> view_history_of self' other = view_history_of init other).
Proof.
  destruct (updated_history init Examples.catalog 7) as (self' & Hcall & _).
  assert (Hok : snd (_update_view_history init Examples.catalog NoFault 7)
                = Ok self') by (rewrite Hcall; reflexivity).
  exists self'. split; [exact Hok |].
  destruct (view_history_stays_bounded init self' Examples.catalog NoFault 7 Hok)
    as (Hbound & Hothers & _).
  split; assumption.
Defined.

(** ** update_user_preference: what it leaves alone *)

Section UpdateFrame.

Lemma kept_row_refl (prefs : gmap (Z * Z) pref_row) : kept_row prefs prefs.
Proof. intros key row H. exists row. split; [exact H | lia]. Qed.

Lemma kept_row_trans (a b c : gmap (Z * Z) pref_row) :
  kept_row a b -> kept_row b c -> kept_row a c.
Proof.
  intros Hab Hbc key row H.
  destruct (Hab key row H) as (row' & H' & Hle).
  destruct (Hbc key row' H') as (row'' & H'' & Hle').
  exists row''. split; [exact H'' | lia].
Qed.

Lemma update_each_theme_keeps (f : fault) (user_id : Z) (liked : bool)
    (ths : list joke_theme) :
  forall prefs prefs' : gmap (Z * Z) pref_row,
    update_each_theme f prefs user_id ths liked = SqlOk prefs' ->
    kept_row prefs prefs' /\
    forall key,
      (forall th, In th ths -> key <> (user_id, th_id th)) ->
      prefs' !! key = prefs !! key.
Proof.
  induction ths as [|th ths IH]; intros prefs prefs' Hrun; simpl in Hrun.
  - injection Hrun as <-. split; [apply kept_row_refl | reflexivity].
  - destruct (single_update_cases f prefs user_id th liked) as [E | E];
      rewrite E in Hrun; simpl in Hrun; [discriminate |].
    apply IH in Hrun as [Hkept Hother]. split.
    + refine (kept_row_trans _ _ _ _ Hkept).
      intros key row Hrow.
      destruct (decide (key = (user_id, th_id th))) as [-> | Hne].
      * rewrite lookup_insert_eq. eexists. split; [reflexivity |].
        unfold rated_row. rewrite Hrow. cbn. lia.
      * rewrite lookup_insert_ne by congruence. exists row. split; [exact Hrow | lia].
    + intros key Hkey. rewrite Hother.
      * rewrite lookup_insert_ne; [reflexivity |].
        intros Heq. apply (Hkey th); [left; reflexivity | congruence].
      * intros th' Hin'. apply Hkey. right. exact Hin'.
Qed.

(** X9.  Over any sequence of feedback events, under any storage
    conditions, no row of [user_preferences] is ever removed and no
    interaction count ever decreases. *)
Theorem preference_rows_persist (evs : list feedback) (d : db) :
  List.Forall
    (fun d' => kept_row (user_preferences d) (user_preferences d'))
    (stores_after d evs).
Proof.
  assert (Hgen : forall d0,
             kept_row (user_preferences d) (user_preferences d0) ->
             List.Forall
               (fun d' => kept_row (user_preferences d) (user_preferences d'))
               (stores_after d0 evs)).
  { induction evs as [|ev evs IH]; intros d0 Hd0; cbn; constructor.
    - unfold record_feedback.
      destruct (update_store_cases d0 (fb_storage ev) (fb_themes_storage ev)
                  (fb_user ev) (fb_joke ev) (fb_liked ev))
        as [-> | (prefs' & Hrun & ->)]; [exact Hd0 |].
      apply update_each_theme_keeps in Hrun as [Hkept _].
      exact (kept_row_trans _ _ _ Hd0 Hkept).
    - apply IH. unfold record_feedback.
      destruct (update_store_cases d0 (fb_storage ev) (fb_themes_storage ev)
                  (fb_user ev) (fb_joke ev) (fb_liked ev))
        as [-> | (prefs' & Hrun & ->)]; [exact Hd0 |].
      apply update_each_theme_keeps in Hrun as [Hkept _].
      exact (kept_row_trans _ _ _ Hd0 Hkept). }
  apply Hgen. apply kept_row_refl.
Qed.

(** X10.  A call of [update_user_preference] changes no table but
    [user_preferences], and there no row of another user and no row of a
    theme the joke is not linked to; unless it returns [True] the store
    is exactly the one before the call. *)
Theorem update_touches_only_the_rated_themes
    (d : db) (f ft : fault) (user_id joke_id : Z) (liked : bool) :
  let d' := update_store d f ft user_id joke_id liked in
  (themes d' = themes d /\ jokes d' = jokes d /\
   joke_themes d' = joke_themes d /\ interactions d' = interactions d) /\
  (forall other theme_id,
      other <> user_id \/ ~ linked d joke_id theme_id ->
      user_preferences d' !! (other, theme_id)
      = user_preferences d !! (other, theme_id)) /\
  (update_result d f ft user_id joke_id liked <> Some true -> d' = d).
Proof.
  intros d'. split; [| split].
  - unfold d'.
    destruct (update_store_cases d f ft user_id joke_id liked)
      as [-> | (prefs' & _ & ->)]; repeat split.
  - intros other theme_id Hfar. unfold d'.
    destruct (update_store_cases d f ft user_id joke_id liked)
      as [-> | (prefs' & Hrun & ->)]; [reflexivity |].
    apply update_each_theme_keeps in Hrun as [_ Hother].
    cbn [set_user_preferences user_preferences]. apply Hother.
    intros th Hth [= -> ->]. destruct Hfar as [Hne | Hnl]; [congruence |].
    apply Hnl. apply joke_theme_rows_weight in Hth as (jt & Hjt & Hj & Ht & _).
    exists jt. auto.
  - unfold d', update_result, update_store, update_user_preference,
      get_joke_themes, method, with_connection, execute.
    destruct ft; cbn [fst snd sql_bind commit_raises];
      try (destruct f; cbn; rewrite ?set_user_preferences_same; reflexivity).
    all: destruct (joke_theme_rows d joke_id) as [|th ths];
      [destruct f; cbn; rewrite ?set_user_preferences_same; reflexivity |].
    all: destruct f; try reflexivity.
    all: destruct (update_each_theme _ (user_preferences d) user_id
                     (th :: ths) liked) as [prefs'|]; cbn;
      first [congruence | reflexivity].
Qed.

End UpdateFrame.

(** ** get_recommended_joke: what it hands out *)

Section Served.

Variables (d : db) (st : storage) (r : draws) (user_id : Z).

Lemma drawn_served (f : fault) (pick : nat) (excluded_ids : option (list Z))
    (theme_id : option Z) (joke : joke_view) :
  snd (get_random_joke d f pick excluded_ids theme_id) = Some joke ->
  served d joke.
Proof.
  intros H. apply drawn_row in H as (row & -> & Hj & Ha & _ & _).
  exists row. repeat split; try assumption. discriminate.
Qed.

Lemma exploration_served (self : recommender) (joke : joke_view) :
  snd (_try_exploration_joke self d st r user_id) = Some joke -> served d joke.
Proof.
  unfold _try_exploration_joke, _get_random_joke_with_exclusions.
  destruct (Qlt_le_dec _ _); [| discriminate].
  assert (H := drawn_served (st_explore st) (pick_explore r)
                 (Some (view_history_of self user_id)) None joke).
  destruct (get_random_joke _ _ _ _ _). exact H.
Qed.

Lemma fallback_served (self : recommender) (joke : joke_view) :
  snd (_get_fallback_joke self d st r user_id) = Some joke -> served d joke.
Proof.
  unfold _get_fallback_joke, _get_random_joke_with_exclusions.
  assert (H := drawn_served (st_fallback st) (pick_fallback r)
                 (Some (view_history_of self user_id)) None joke).
  destruct (get_random_joke _ _ _ _ _) as [out [j|]]; cbn [snd] in *;
    [exact H | discriminate].
Qed.

Lemma search_served (self : recommender) (theme_id : Z)
    (preferences : dict theme_data) (joke : joke_view) :
  snd (_search_joke_in_theme self d st r user_id theme_id preferences)
  = Ok (Some joke) ->
  served d joke /\ ~ In (jv_id joke) (view_history_of self user_id).
Proof.
  unfold _search_joke_in_theme, _get_random_joke_with_exclusions.
  assert (H := drawn_row d (st_theme st) (pick_theme r)
                 (Some (view_history_of self user_id)) (Some theme_id)).
  destruct (get_random_joke _ _ _ _ _) as [out [j|]]; cbn [snd] in *.
  2:{ destruct (dict_get preferences theme_id); discriminate. }
  destruct (H j eq_refl) as (row & -> & Hj & Ha & He & Ht). clear H.
  assert (Hplain : served d (view_of_row row)
                   /\ ~ In (jv_id (view_of_row row)) (view_history_of self user_id)).
  { split; [| exact He]. exists row. repeat split; try assumption. discriminate. }
  destruct (dict_get preferences theme_id) as [data|]; cbn [snd].
  2:{ intros [= <-]. exact Hplain. }
  destruct (td_name data), (td_emoji data); cbn [snd]; try discriminate.
  intros [= <-]. split; [| exact He].
  exists row. repeat split; try assumption.
  cbn. intros t name emoji [= <- _ _] Hnz. apply Ht.
  cbn. destruct (Z.eqb_spec theme_id 0); [contradiction | reflexivity].
Qed.

(** X11.  Whatever the storage conditions and the random draws, a joke
    [get_recommended_joke] returns is an approved row of [jokes]; when it
    carries the keys of a theme with an id other than 0, a row of
    [joke_themes] links it to that theme. *)
Theorem recommended_joke_is_approved (self : recommender) (joke : joke_view) :
  snd (get_recommended_joke self d st r user_id) = Ok (Some joke) ->
  served d joke.
Proof.
  assert (Hplain := drawn_served (st_plain st) (pick_plain r) None None joke).
  unfold get_recommended_joke, recommend_body.
  destruct (get_random_joke d (st_plain st) (pick_plain r) None None)
    as [op plain]. cbn [snd] in Hplain.
  destruct (get_user_preferences d (st_preferences st) user_id)
    as [o1 [[|p ps]|]]; cbn [snd]; try (intros [= ->]; auto).
  destruct (_update_view_history self d (st_interactions st) user_id)
    as [o2 [self'|e]].
  2:{ destruct e; cbn [snd]; try discriminate; intros [= ->]; auto. }
  assert (He := exploration_served self' joke).
  destruct (_try_exploration_joke self' d st r user_id) as [o3 [j|]];
    cbn [snd] in *.
  { intros [= ->]. auto. }
  assert (Hf := fallback_served self' joke).
  destruct (_get_fallback_joke self' d st r user_id) as [ofb fb].
  cbn [snd] in Hf.
  destruct (_calculate_theme_probabilities (p :: ps)) as [|tp tps];
    cbn [snd]; [intros [= ->]; auto |].
  destruct (_choose_theme_by_probability r (tp :: tps)) as [chosen|e].
  2:{ destruct e; cbn [snd]; try discriminate; intros [= ->]; auto. }
  assert (Hs := search_served self' chosen (p :: ps) joke).
  destruct (_search_joke_in_theme self' d st r user_id chosen (p :: ps))
    as [o6 [[j|]|e]]; cbn [snd] in *.
  - intros [= ->]. apply Hs. reflexivity.
  - intros [= ->]. auto.
  - destruct e; cbn [snd]; try discriminate; intros [= ->]; auto.
Qed.

End Served.

Lemma recommended_joke_is_approved_witness :
  served Examples.catalog
    {| jv_id := 2; jv_text := "Буличка";
       jv_theme := Some (2%Z, "Школьные"%string, "🎓"%string) |}.
Proof.
  apply (recommended_joke_is_approved Examples.catalog Examples.all_working
           Examples.exploiting 8 init).
  vm_compute. reflexivity.
Defined.

Section RatedJokes.

Lemma dict_set_In {V} (prefs : dict V) (k k' : Z) (v v' : V) :
  In (k', v') (dict_set prefs k v) -> (k', v') = (k, v) \/ In (k', v') prefs.
Proof.
  induction prefs as [|[k0 v0] rest IH]; cbn.
  - intros [H | []]. left. congruence.
  - destruct (Z.eqb k0 k).
    + intros [H | H]; [left; congruence | right; right; exact H].
    + intros [H | H]; [right; left; exact H |].
      destruct (IH H) as [E | Hin]; [left; exact E | right; right; exact Hin].
Qed.

Lemma dict_get_In {V} (prefs : dict V) (k : Z) (v : V) :
  dict_get prefs k = Some v -> In (k, v) prefs.
Proof.
  induction prefs as [|[k0 v0] rest IH]; cbn; [discriminate |].
  destruct (Z.eqb_spec k0 k) as [-> | _].
  - intros [= ->]. left. reflexivity.
  - intros H. right. apply IH. exact H.
Qed.

Lemma dict_get_key {V} (prefs : dict V) (k : Z) :
  In k (List.map fst prefs) -> exists v, dict_get prefs k = Some v.
Proof.
  induction prefs as [|[k0 v0] rest IH]; cbn; [intros [] |].
  destruct (Z.eqb_spec k0 k) as [-> | Hne]; [eauto |].
  intros [H | H]; [contradiction | apply IH; exact H].
Qed.

Lemma preferences_named (rows : list (theme_row * option pref_row))
    (k : Z) (data : theme_data) :
  In (k, data) (preferences_of_rows rows) ->
  exists name emoji, td_name data = Some name /\ td_emoji data = Some emoji.
Proof.
  unfold preferences_of_rows.
  assert (Hgen : forall acc : dict theme_data,
             (forall k' v', In (k', v') acc ->
                            exists name emoji,
                              td_name v' = Some name /\ td_emoji v' = Some emoji) ->
             In (k, data)
               (List.fold_left
                  (fun prefs row =>
                     dict_set prefs (t_id (fst row))
                       {| td_name := Some (t_name (fst row));
                          td_emoji := Some (t_emoji (fst row));
                          td_score := Some (Py.float_or (up_score <$> snd row) 0%Q);
                          td_interactions :=
                            Some (Py.int_or (up_interactions <$> snd row) 0%Z) |})
                  rows acc) ->
             exists name emoji,
               td_name data = Some name /\ td_emoji data = Some emoji).
  { induction rows as [|row rows IH]; intros acc Hacc; cbn [List.fold_left].
    - apply Hacc.
    - apply IH. intros k' v' Hin.
      apply dict_set_In in Hin as [[= -> ->] | Hin]; [cbn; eauto |].
      exact (Hacc k' v' Hin). }
  apply Hgen. intros k' v' [].
Qed.

Lemma preferences_read (d : db) (user_id : Z) :
  get_user_preferences d NoFault user_id
  = ([], Some (preferences_of_rows (preference_rows d user_id))).
Proof. reflexivity. Qed.

Lemma aliased_query_finds_nothing (d : db) (f : fault) (pick : nat)
    (excluded_ids : list Z) (theme_id : option Z) :
  excluded_ids <> [] -> theme_given theme_id = None ->
  snd (get_random_joke d f pick (Some excluded_ids) theme_id) = None.
Proof.
  intros Hne Ht. destruct excluded_ids as [|i ids]; [congruence |].
  unfold get_random_joke, method, with_connection, execute, select_rows,
    build_query.
  rewrite Ht. destruct f; reflexivity.
Qed.

Lemma draw_from_candidates (r : draws) (preferences : dict theme_data) :
  _calculate_theme_probabilities preferences <> [] ->
  exists theme_id,
    _choose_theme_by_probability r (_calculate_theme_probabilities preferences)
    = Ok theme_id /\
    In theme_id (List.map fst preferences).
Proof.
  intros Hne.
  assert (Hkeys := normalize_keeps_themes (positive_probabilities preferences)).
  assert (Hpos := normalized_candidates_in_unit preferences).
  fold (_calculate_theme_probabilities preferences) in Hkeys.
  set (tps := _calculate_theme_probabilities preferences) in *.
  assert (Hne' : List.map fst tps <> []).
  { destruct tps; [congruence | discriminate]. }
  destruct (choices_draws (List.map fst tps)
              (if Nat.ltb 1 (length (List.map fst tps))
               then List.map (fun w => Py.max w (1 # 100))
                      (imap (fun i w => (w + jitter r i)%Q) (List.map snd tps))
               else List.map snd tps)
              (choice_u r) Hne')
    as (x & Hx & Hin).
  - destruct (Nat.ltb 1 _).
    + rewrite List.length_map, length_imap, !List.length_map. reflexivity.
    + rewrite !List.length_map. reflexivity.
  - destruct (Nat.ltb 1 _).
    + apply List.Forall_forall. intros w Hw.
      apply in_map_iff in Hw as (v & <- & _). py_cases; lra.
    + apply List.Forall_forall. intros w Hw.
      apply in_map_iff in Hw as (tp & <- & Htp).
      rewrite List.Forall_forall in Hpos. apply (Hpos tp Htp).
  - exists x. split; [exact Hx |].
    rewrite Hkeys in Hin. apply in_map_iff in Hin as ([t p] & Ht & Hin).
    cbn in Ht. subst t.
    apply positive_probabilities_spec in Hin as (data & Hd & _ & _).
    apply in_map_iff. exists (x, data). auto.
Qed.

Lemma search_names_theme (d : db) (st : storage) (r : draws) (user_id : Z)
    (self : recommender) (theme_id : Z) (preferences : dict theme_data)
    (data : theme_data) (name emoji : string) :
  dict_get preferences theme_id = Some data ->
  td_name data = Some name -> td_emoji data = Some emoji ->
  snd (_search_joke_in_theme self d st r user_id theme_id preferences) = Ok None
  \/ exists joke,
       snd (_search_joke_in_theme self d st r user_id theme_id preferences)
       = Ok (Some joke) /\
       jv_theme joke = Some (theme_id, name, emoji).
Proof.
  intros Hget Hname Hemoji. unfold _search_joke_in_theme.
  destruct (_get_random_joke_with_exclusions _ _ _ _ _ _) as [out [j|]];
    [rewrite Hget | left; reflexivity].
  rewrite Hname, Hemoji. right. eexists. split; reflexivity.
Qed.

Lemma history_after_rating (self self' : recommender) (d : db) (user_id : Z) :
  rated_by d user_id <> [] ->
  _update_view_history self d NoFault user_id = ([], Ok self') ->
  view_history_of self' user_id <> [].
Proof.
  intros Hrated Hup.
  destruct (updated_history self d user_id) as (self0 & Hup0 & Hmap).
  rewrite Hup0 in Hup. injection Hup as <-.
  unfold view_history_of. rewrite Hmap, lookup_insert_eq.
  assert (Hseen : exists x, x ∈ seen self d user_id).
  { destruct (rated_by d user_id) as [|x xs] eqn:E; [congruence |].
    exists x. unfold seen. rewrite E.
    apply elem_of_union. right.
    apply elem_of_list_to_set, list_elem_of_In. left. reflexivity. }
  destruct Hseen as [x Hx].
  destruct (Nat.ltb_spec 100 (size (seen self d user_id))) as [Hbig | Hsmall].
  - intros Hnil.
    assert (Hlen : length (drop (length (elements (seen self d user_id)) - 50)
                             (elements (seen self d user_id))) = 50%nat).
    { rewrite length_drop. unfold size, set_size in Hbig. cbn in Hbig. lia. }
    destruct (drop _ _) as [|y ys] eqn:Ed; [discriminate |].
    assert (Hy : y ∈ (list_to_set (y :: ys) : gset Z))
      by (apply elem_of_list_to_set, list_elem_of_In; left; reflexivity).
    apply elem_of_elements in Hy. rewrite Hnil in Hy. inversion Hy.
  - intros Hnil. apply elem_of_elements in Hx. rewrite Hnil in Hx. inversion Hx.
Qed.

Lemma seen_jokes_are_skipped
    (self : recommender) (d : db) (st : storage) (r : draws) (user_id : Z)
    (joke : joke_view) :
  st_preferences st = NoFault -> st_interactions st = NoFault ->
  themes d <> [] -> rated_by d user_id <> [] ->
  snd (get_recommended_joke self d st r user_id) = Ok (Some joke) ->
  (exists t name emoji, jv_theme joke = Some (t, name, emoji)) /\
  ((size (seen self d user_id) <= 100)%nat ->
   jv_id joke ∉ seen self d user_id).
Proof.
  intros Hp Hi Hthemes Hrated.
  unfold get_recommended_joke, recommend_body. rewrite Hp, Hi, preferences_read.
  destruct (preferences_of_rows (preference_rows d user_id)) as [|p ps] eqn:Eprefs.
  { exfalso. apply preferences_of_rows_empty in Eprefs.
    unfold preference_rows in Eprefs. apply map_eq_nil in Eprefs.
    apply (proj1 (order_by_id_empty _)) in Eprefs. contradiction. }
  destruct (updated_history self d user_id) as (self' & Hup & Hmap).
  rewrite Hup.
  assert (Hhist := history_after_rating self self' d user_id Hrated Hup).
  assert (Hexplore : snd (_try_exploration_joke self' d st r user_id) = None).
  { unfold _try_exploration_joke, _get_random_joke_with_exclusions.
    destruct (Qlt_le_dec _ _); [| reflexivity].
    assert (H := aliased_query_finds_nothing d (st_explore st) (pick_explore r)
                   (view_history_of self' user_id) None Hhist eq_refl).
    destruct (get_random_joke _ _ _ _ _). exact H. }
  assert (Hfallback : snd (_get_fallback_joke self' d st r user_id) = None).
  { unfold _get_fallback_joke, _get_random_joke_with_exclusions.
    assert (H := aliased_query_finds_nothing d (st_fallback st) (pick_fallback r)
                   (view_history_of self' user_id) None Hhist eq_refl).
    destruct (get_random_joke _ _ _ _ _) as [out j]. cbn [snd] in H.
    subst j. reflexivity. }
  destruct (_try_exploration_joke self' d st r user_id) as [o3 explored].
  cbn [snd] in Hexplore. subst explored.
  destruct (_get_fallback_joke self' d st r user_id) as [ofb fb].
  cbn [snd] in Hfallback. subst fb.
  destruct (_calculate_theme_probabilities (p :: ps)) as [|tp tps] eqn:Etp;
    cbn [snd]; [discriminate |].
  destruct (draw_from_candidates r (p :: ps)) as (chosen & Hch & Hkey);
    [rewrite Etp; discriminate |].
  rewrite Etp in Hch. rewrite Hch.
  destruct (dict_get_key (p :: ps) chosen Hkey) as [data Hget].
  assert (Hnamed : exists name emoji,
             td_name data = Some name /\ td_emoji data = Some emoji).
  { apply (preferences_named (preference_rows d user_id) chosen).
    rewrite Eprefs. apply dict_get_In. exact Hget. }
  destruct Hnamed as (name & emoji & Hname & Hemoji).
  assert (Hsearch := search_served d st r user_id self' chosen (p :: ps) joke).
  destruct (search_names_theme d st r user_id self' chosen (p :: ps) data
              name emoji Hget Hname Hemoji)
    as [Hnone | (j & Hsome & Htheme)].
  - destruct (_search_joke_in_theme self' d st r user_id chosen (p :: ps))
      as [o6 found]. cbn [snd] in Hnone. subst found. cbn [snd]. discriminate.
  - destruct (_search_joke_in_theme self' d st r user_id chosen (p :: ps))
      as [o6 found]. cbn [snd] in Hsome, Hsearch. subst found. cbn [snd].
    intros [= <-]. split; [eauto |].
    intros Hsmall Hin.
    destruct (Hsearch eq_refl) as [_ Hnot]. apply Hnot.
    unfold view_history_of. rewrite Hmap, lookup_insert_eq.
    apply Nat.ltb_ge in Hsmall. rewrite Hsmall.
    apply list_elem_of_In, elem_of_elements. exact Hin.
Qed.

(** X12.  For a user who has rated at least one joke, with working reads
    of the preferences and the interactions and at least one theme, every
    joke [get_recommended_joke] returns comes from the search in a drawn
    theme and carries the keys of that theme: the queries of the
    exploration and of the fallback exclude the history without a theme
    and find nothing.  As long as the history and the rated jokes
    together are at most 100, the joke returned is neither rated by the
    user nor in the history. *)
Theorem rated_jokes_do_not_return
    (self : recommender) (d : db) (st : storage) (r : draws) (user_id : Z)
    (joke : joke_view) :
  st_preferences st = NoFault -> st_interactions st = NoFault ->
  themes d <> [] -> rated_by d user_id <> [] ->
  snd (get_recommended_joke self d st r user_id) = Ok (Some joke) ->
  (exists t name emoji, jv_theme joke = Some (t, name, emoji)) /\
  ((size (seen self d user_id) <= 100)%nat ->
   ~ In (jv_id joke) (rated_by d user_id) /\
   ~ In (jv_id joke) (view_history_of self user_id)).
Proof.
  intros Hp Hi Hthemes Hrated Hcall.
  destruct (seen_jokes_are_skipped self d st r user_id joke
              Hp Hi Hthemes Hrated Hcall) as [Htheme Hskip].
  split; [exact Htheme |].
  intros Hsmall. specialize (Hskip Hsmall). unfold seen in Hskip.
  split; intros Hin; apply Hskip; apply elem_of_union.
  - right. apply elem_of_list_to_set, list_elem_of_In. exact Hin.
  - left. apply elem_of_list_to_set, list_elem_of_In. exact Hin.
Qed.

End RatedJokes.

Lemma rated_jokes_do_not_return_witness :
  (exists t name emoji,
      jv_theme
        {| jv_id := 2; jv_text := "Буличка";
           jv_theme := Some (2%Z, "Школьные"%string, "🎓"%string) |}
      = Some (t, name, emoji)) /\
  ~ In 2%Z (rated_by Examples.catalog 7).
Proof.
  destruct (rated_jokes_do_not_return init Examples.catalog
              Examples.all_working Examples.exploiting 7
              {| jv_id := 2; jv_text := "Буличка";
                 jv_theme := Some (2%Z, "Школьные"%string, "🎓"%string) |})
    as [Htheme Hskip].
  - reflexivity.
  - reflexivity.
  - discriminate.
  - discriminate.
  - vm_compute. reflexivity.
  - split; [exact Htheme |]. apply Hskip. vm_compute. lia.
Defined.

(** ** get_recommended_joke under storage failures *)

Section StorageFailures.

Variables (self : recommender) (d : db) (st : storage) (r : draws) (user_id : Z).

Lemma history_update_keeps_rate (f : fault) (self' : recommender) :
  snd (_update_view_history self d f user_id) = Ok self' ->
  exploration_rate self' = exploration_rate self.
Proof.
  unfold _update_view_history.
  destruct (get_user_interactions d f user_id) as [out [ids|]]; cbn [snd];
    [| discriminate].
  intros [= <-]. reflexivity.
Qed.

Lemma preferences_result (f : fault) (preferences : dict theme_data) :
  snd (get_user_preferences d f user_id) = Some preferences ->
  preferences <> [] ->
  preferences = preferences_of_rows (preference_rows d user_id).
Proof.
  destruct f; cbn; intros [= <-] Hne; congruence.
Qed.

Lemma fallback_result (self' : recommender) :
  snd (_get_fallback_joke self' d st r user_id)
  = snd (get_random_joke d (st_fallback st) (pick_fallback r)
           (Some (view_history_of self' user_id)) None).
Proof.
  unfold _get_fallback_joke, _get_random_joke_with_exclusions.
  destruct (get_random_joke _ _ _ _ _) as [out [j|]]; reflexivity.
Qed.

Lemma exploration_finds_nothing (self' : recommender) :
  exploration_rate self' = exploration_rate self ->
  (read_fails (st_explore st) \/
   ((explore_u r < exploration_rate self)%Q ->
    snd (get_random_joke d (st_explore st) (pick_explore r)
           (Some (view_history_of self' user_id)) None) = None)) ->
  snd (_try_exploration_joke self' d st r user_id) = None.
Proof.
  intros Hrate H.
  unfold _try_exploration_joke, _get_random_joke_with_exclusions.
  rewrite Hrate.
  destruct (Qlt_le_dec (explore_u r) (exploration_rate self)) as [Hlt | Hge];
    [| reflexivity].
  assert (Hnone : snd (get_random_joke d (st_explore st) (pick_explore r)
                         (Some (view_history_of self' user_id)) None) = None).
  { destruct H as [Hf | Hq]; [| exact (Hq Hlt)].
    apply failed_query_finds_nothing. exact Hf. }
  destruct (get_random_joke _ _ _ _ _) as [out joke]. exact Hnone.
Qed.

Lemma theme_selection_outcome
    (preferences : dict theme_data) (self' : recommender) :
  snd (get_user_preferences d (st_preferences st) user_id) = Some preferences ->
  preferences <> [] ->
  snd (_update_view_history self d (st_interactions st) user_id) = Ok self' ->
  snd (_try_exploration_joke self' d st r user_id) = None ->
  let history := view_history_of self' user_id in
  let fallback :=
    snd (get_random_joke d (st_fallback st) (pick_fallback r)
           (Some history) None) in
  (_calculate_theme_probabilities preferences = [] /\
   snd (get_recommended_joke self d st r user_id) = Ok fallback) \/
  (exists chosen data name emoji,
      _choose_theme_by_probability r
        (_calculate_theme_probabilities preferences) = Ok chosen /\
      dict_get preferences chosen = Some data /\
      td_name data = Some name /\ td_emoji data = Some emoji /\
      snd (get_recommended_joke self d st r user_id)
      = Ok match snd (get_random_joke d (st_theme st) (pick_theme r)
                        (Some history) (Some chosen)) with
           | Some j =>
               Some {| jv_id := jv_id j; jv_text := jv_text j;
                       jv_theme := Some (chosen, name, emoji) |}
           | None => fallback
           end).
Proof.
  intros Hprefs Hne Hhist Hexp history fallback.
  assert (Hrows := preferences_result _ _ Hprefs Hne).
  assert (Hfb := fallback_result self').
  fold history in Hfb. fold fallback in Hfb.
  unfold get_recommended_joke, recommend_body.
  destruct (get_user_preferences d (st_preferences st) user_id) as [o1 prefs].
  cbn [snd] in Hprefs. subst prefs.
  destruct preferences as [|p ps]; [congruence |].
  destruct (_update_view_history self d (st_interactions st) user_id)
    as [o2 updated].
  cbn [snd] in Hhist. subst updated.
  destruct (_try_exploration_joke self' d st r user_id) as [o3 explored].
  cbn [snd] in Hexp. subst explored.
  destruct (_get_fallback_joke self' d st r user_id) as [o7 fb].
  cbn [snd] in Hfb. subst fb.
  destruct (_calculate_theme_probabilities (p :: ps)) as [|tp tps] eqn:Etp.
  { left. split; reflexivity. }
  right.
  destruct (draw_from_candidates r (p :: ps)) as (chosen & Hch & Hkey);
    [rewrite Etp; discriminate |].
  rewrite Etp in Hch.
  destruct (dict_get_key (p :: ps) chosen Hkey) as [data Hget].
  destruct (preferences_named (preference_rows d user_id) chosen data)
    as (name & emoji & Hname & Hemoji).
  { rewrite <- Hrows. apply dict_get_In. exact Hget. }
  exists chosen, data, name, emoji.
  split; [exact Hch |]. split; [exact Hget |].
  split; [exact Hname |]. split; [exact Hemoji |].
  rewrite Hch. unfold _search_joke_in_theme, _get_random_joke_with_exclusions.
  fold history.
  destruct (get_random_joke d (st_theme st) (pick_theme r) (Some history)
              (Some chosen)) as [o6 [j|]]; cbn [snd].
  - rewrite Hget, Hname, Hemoji. reflexivity.
  - reflexivity.
Qed.

(** C9, as the code has it.  No storage failure makes the call raise.  A
    failed read of the preferences, or a read of the interaction history
    that fails inside its connection block, ends in
    [db.get_random_joke()].  A failed candidate query finds nothing, and
    the call goes on as after an empty result.  When the preferences and
    the history are read and the exploration finds nothing, because its
    query fails or otherwise, a theme is selected: the call returns the
    joke the query in the drawn theme finds, labelled with that theme,
    and what the fallback query finds when the query in the theme finds
    nothing, as it does when it fails, or when no theme is a candidate.
    Without any approved joke the result is [None]. *)
Theorem storage_failures_never_escape :
  (exists joke, snd (get_recommended_joke self d st r user_id) = Ok joke) /\
  (read_fails (st_preferences st) \/ st_interactions st = ExecuteFails ->
   snd (get_recommended_joke self d st r user_id)
   = Ok (snd (get_random_joke d (st_plain st) (pick_plain r) None None))) /\
  (forall f pick excluded_ids theme_id,
      read_fails f ->
      snd (get_random_joke d f pick excluded_ids theme_id) = None) /\
  (forall preferences self',
      snd (get_user_preferences d (st_preferences st) user_id)
      = Some preferences ->
      preferences <> [] ->
      snd (_update_view_history self d (st_interactions st) user_id)
      = Ok self' ->
      let history := view_history_of self' user_id in
      let fallback :=
        snd (get_random_joke d (st_fallback st) (pick_fallback r)
               (Some history) None) in
      read_fails (st_explore st) \/
      ((explore_u r < exploration_rate self)%Q ->
       snd (get_random_joke d (st_explore st) (pick_explore r)
              (Some history) None) = None) ->
      ((_calculate_theme_probabilities preferences = [] /\
        snd (get_recommended_joke self d st r user_id) = Ok fallback) \/
       (exists chosen data name emoji,
           _choose_theme_by_probability r
             (_calculate_theme_probabilities preferences) = Ok chosen /\
           dict_get preferences chosen = Some data /\
           td_name data = Some name /\ td_emoji data = Some emoji /\
           snd (get_recommended_joke self d st r user_id)
           = Ok match snd (get_random_joke d (st_theme st) (pick_theme r)
                             (Some history) (Some chosen)) with
                | Some j =>
                    Some {| jv_id := jv_id j; jv_text := jv_text j;
                            jv_theme := Some (chosen, name, emoji) |}
                | None => fallback
                end)) /\
      (read_fails (st_theme st) ->
       snd (get_recommended_joke self d st r user_id) = Ok fallback)) /\
  (approved_jokes d = [] ->
   snd (get_recommended_joke self d st r user_id) = Ok None).
Proof.
  split; [apply recommend_returns |].
  split; [apply failed_reads_degrade |].
  split; [intros f pick excluded_ids theme_id;
          apply failed_query_finds_nothing |].
  split; [| intros Hnone; apply empty_catalog_recommends_nothing; exact Hnone].
  intros preferences self' Hprefs Hne Hhist history fallback Hexp.
  assert (Hnone : snd (_try_exploration_joke self' d st r user_id) = None).
  { apply exploration_finds_nothing; [| exact Hexp].
    exact (history_update_keeps_rate _ _ Hhist). }
  assert (Hsel := theme_selection_outcome preferences self'
                    Hprefs Hne Hhist Hnone).
  split; [exact Hsel |].
  intros Htheme.
  destruct Hsel as [[_ Hres] | (chosen & data & name & emoji & _ & _ & _ & _ & Hres)];
    [exact Hres |].
  rewrite Hres. fold history.
  rewrite (failed_query_finds_nothing d (st_theme st) (pick_theme r)
             (Some history) (Some chosen) Htheme).
  reflexivity.
Qed.

End StorageFailures.

Lemma storage_failures_witness :
  snd (get_recommended_joke init Examples.catalog
         {| st_preferences := ExecuteFails; st_interactions := ExecuteFails;
            st_explore := NoFault; st_theme := NoFault;
            st_fallback := NoFault; st_plain := NoFault |}
         Examples.exploiting 7)
  = Ok (Some {| jv_id := 1; jv_text := "Де спас Ито"; jv_theme := None |}) /\
  snd (get_recommended_joke init Examples.catalog
         {| st_preferences := NoFault; st_interactions := NoFault;
            st_explore := ExecuteFails; st_theme := ConnectFails;
            st_fallback := NoFault; st_plain := NoFault |}
         Examples.exploring 8)
  = Ok (Some {| jv_id := 1; jv_text := "Де спас Ито"; jv_theme := None |}) /\
  snd (get_recommended_joke init
         {| themes := themes Examples.catalog; jokes := [];
            joke_themes := []; user_preferences := ∅; interactions := [] |}
         Examples.all_working Examples.exploiting 7)
  = Ok None.
Proof.
  split; [| split].
  - apply (storage_failures_never_escape init Examples.catalog
             {| st_preferences := ExecuteFails;
                st_interactions := ExecuteFails;
                st_explore := NoFault; st_theme := NoFault;
                st_fallback := NoFault; st_plain := NoFault |}
             Examples.exploiting 7).
    right. reflexivity.
  - refine (proj2
              (proj1 (proj2 (proj2 (proj2
                 (storage_failures_never_escape init Examples.catalog
                    {| st_preferences := NoFault; st_interactions := NoFault;
                       st_explore := ExecuteFails; st_theme := ConnectFails;
                       st_fallback := NoFault; st_plain := NoFault |}
                    Examples.exploring 8))))
                 (preferences_of_rows (preference_rows Examples.catalog 8))
                 (set_user_view_history init
                    (<[8%Z := ∅]> (user_view_history init)))
                 _ _ _ _) _).
    + reflexivity.
    + discriminate.
    + reflexivity.
    + left. right. reflexivity.
    + left. reflexivity.
  - apply (storage_failures_never_escape init
             {| themes := themes Examples.catalog; jokes := [];
                joke_themes := []; user_preferences := ∅;
                interactions := [] |}
             Examples.all_working Examples.exploiting 7).
    reflexivity.
Defined.

(** C9 as stated fails: the exploration query fails, and the call goes on
    to draw a theme and returns a joke of that theme, not the joke of the
    unfiltered query, and without the message of the [except] clause. *)
Lemma failed_exploration_continues_with_themes :
  st_explore Examples.exploration_query_fails = ExecuteFails /\
  let call :=
    get_recommended_joke init Examples.catalog
      Examples.exploration_query_fails Examples.exploring 8 in
  In (MsgExploring 8) (fst (fst call)) /\
  In MsgDbError (fst (fst call)) /\
  ~ In (MsgRecommendError 8) (fst (fst call)) /\
  snd call
  = Ok (Some {| jv_id := 2; jv_text := "Буличка";
                jv_theme := Some (2%Z, "Школьные"%string, "🎓"%string) |}) /\
  snd call
  <> Ok (snd (get_random_joke Examples.catalog NoFault
                (pick_plain Examples.exploring) None None)).
Proof.
  split; [reflexivity |].
  vm_compute. repeat split.
  - left. reflexivity.
  - right. left. reflexivity.
  - intros H. repeat destruct H as [H | H]; try discriminate H. exact H.
  - discriminate.
Qed.

(** ** add_interaction, and the two calls of a rating *)

Section Interactions.

Variables (d : db) (user_id joke_id : Z) (liked : bool).

Lemma rated_pair_spec (i : interaction_row) :
  rated_pair user_id joke_id i = true <->
  i_user_id i = user_id /\ i_joke_id i = joke_id.
Proof. unfold rated_pair. rewrite andb_true_iff, !Z.eqb_eq. reflexivity. Qed.

Lemma filter_none {A} (p : A -> bool) (l : list A) :
  List.filter p (List.filter (fun x => negb (p x)) l) = [].
Proof.
  induction l as [|x l IH]; [reflexivity |]. cbn.
  destruct (p x) eqn:E; cbn; [exact IH |]. rewrite E. exact IH.
Qed.

Lemma filter_same {A} (p : A -> bool) (l : list A) :
  List.filter p (List.filter p l) = List.filter p l.
Proof.
  induction l as [|x l IH]; [reflexivity |]. cbn.
  destruct (p x) eqn:E; cbn; [rewrite E, IH; reflexivity | exact IH].
Qed.

Lemma NoDup_map_filter {A B} (g : A -> B) (p : A -> bool) (l : list A) :
  List.NoDup (List.map g l) -> List.NoDup (List.map g (List.filter p l)).
Proof.
  induction l as [|x l IH]; cbn; intros Hnd; [constructor |].
  apply List.NoDup_cons_iff in Hnd as [Hfresh Hnd].
  destruct (p x); cbn; [| apply IH; exact Hnd].
  apply List.NoDup_cons_iff. split; [| apply IH; exact Hnd].
  intros Hin. apply Hfresh. apply in_map_iff in Hin as (y & Hy & Hin).
  apply filter_In in Hin as [Hin _]. apply in_map_iff. eauto.
Qed.

(** X13.  With working storage [add_interaction] returns [True] and
    leaves exactly one row for the user and the joke, holding the new
    verdict; the rows of every other pair are kept in their order, the
    joke is among those [get_user_interactions] lists for the user, and
    a table with at most one row per pair stays so.  With failing storage
    the store is unchanged, and the method returns [False] when the
    connection cannot be opened, [None] when the statement raises, and
    [True] when the commit raises: the caller is told of a success
    although the row is rolled back.  No other table changes. *)
Theorem add_interaction_keeps_one_verdict (f : fault) :
  let call := add_interaction d f user_id joke_id liked in
  let d' := snd call in
  (f = NoFault ->
   snd (fst call) = Some true /\
   List.filter (rated_pair user_id joke_id) (interactions d')
   = [ {| i_user_id := user_id; i_joke_id := joke_id; i_liked := liked |} ] /\
   List.filter (fun i => negb (rated_pair user_id joke_id i)) (interactions d')
   = List.filter (fun i => negb (rated_pair user_id joke_id i)) (interactions d) /\
   In joke_id (rated_by d' user_id) /\
   (one_verdict_per_pair d -> one_verdict_per_pair d')) /\
  (f <> NoFault -> d' = d) /\
  (f = ConnectFails -> snd (fst call) = Some false) /\
  (f = ExecuteFails -> snd (fst call) = None) /\
  (f = CommitFails -> snd (fst call) = Some true) /\
  (themes d' = themes d /\ jokes d' = jokes d /\
   joke_themes d' = joke_themes d /\
   user_preferences d' = user_preferences d).
Proof.
  intros call d'. unfold d', call, add_interaction, writing, with_connection.
  split; [| split; [| split; [| split; [| split]]]].
  - intros ->.
    cbn [execute sql_bind fst snd set_interactions interactions commit_raises
         has_written].
    assert (Hnew : rated_pair user_id joke_id
                     {| i_user_id := user_id; i_joke_id := joke_id;
                        i_liked := liked |} = true).
    { apply rated_pair_spec. split; reflexivity. }
    split; [reflexivity | split; [| split; [| split]]].
    + rewrite List.filter_app, filter_none. cbn. rewrite Hnew. reflexivity.
    + rewrite List.filter_app, filter_same. cbn. rewrite Hnew. cbn.
      apply List.app_nil_r.
    + unfold rated_by. cbn [interactions set_interactions].
      apply in_map_iff.
      exists {| i_user_id := user_id; i_joke_id := joke_id; i_liked := liked |}.
      split; [reflexivity |]. apply filter_In. split.
      * apply in_or_app. right. left. reflexivity.
      * cbn. apply Z.eqb_refl.
    + unfold one_verdict_per_pair. cbn [interactions set_interactions]. intros Hnd.
      rewrite List.map_app. cbn [List.map].
      apply NoDup_ListNoDup, NoDup_app. split; [| split].
      * apply NoDup_ListNoDup. apply NoDup_map_filter. exact Hnd.
      * intros pair Hin Hnew'. apply list_elem_of_In in Hin.
        apply list_elem_of_singleton in Hnew'. subst pair.
        apply in_map_iff in Hin as (i & Hi & Hin).
        apply filter_In in Hin as [_ Hno]. apply negb_true_iff in Hno.
        assert (Hyes : rated_pair user_id joke_id i = true).
        { apply rated_pair_spec. cbn in Hi. split; congruence. }
        congruence.
      * apply NoDup_singleton.
  - intros Hf. destruct f; [congruence | | |]; reflexivity.
  - intros ->. reflexivity.
  - intros ->. reflexivity.
  - intros ->. reflexivity.
  - destruct f; cbn; repeat split.
Qed.

End Interactions.

Lemma add_interaction_keeps_one_verdict_witness :
  snd (fst (add_interaction Examples.catalog CommitFails 8 2 true)) = Some true /\
  snd (add_interaction Examples.catalog CommitFails 8 2 true) = Examples.catalog /\
  snd (fst (add_interaction Examples.catalog NoFault 8 2 true)) = Some true /\
  In 2%Z (rated_by (snd (add_interaction Examples.catalog NoFault 8 2 true)) 8).
Proof.
  assert (Hfails := add_interaction_keeps_one_verdict Examples.catalog 8 2 true
                      CommitFails).
  assert (Hworks := add_interaction_keeps_one_verdict Examples.catalog 8 2 true
                      NoFault).
  cbv zeta in Hfails, Hworks.
  destruct Hfails as (_ & Hsame & _ & _ & Htold & _).
  destruct Hworks as (Hstored & _).
  split; [apply Htold; reflexivity |].
  split; [apply Hsame; discriminate |].
  destruct (Hstored eq_refl) as (Hflag & _ & _ & Hrated & _).
  split; [exact Hflag | exact Hrated].
Defined.

Section Ratings.

Lemma rate_joke_effect (d : db) (user_id joke_id : Z) (liked : bool) :
  primary_keys d ->
  let d' := rate_joke d user_id joke_id liked in
  themes d' = themes d /\ jokes d' = jokes d /\
  joke_themes d' = joke_themes d /\
  interactions d'
  = List.filter (fun i => negb (rated_pair user_id joke_id i)) (interactions d)
    ++ [ {| i_user_id := user_id; i_joke_id := joke_id; i_liked := liked |} ] /\
  (forall th,
      In th (joke_theme_rows d joke_id) ->
      user_preferences d' !! (user_id, th_id th)
      = Some (rated_row (user_preferences d !! (user_id, th_id th))
                (th_weight th) liked)).
Proof.
  intros Hkeys d'. unfold d', rate_joke.
  set (d1 := snd (add_interaction d NoFault user_id joke_id liked)).
  assert (Hd1 : d1
                = set_interactions d
                    (List.filter (fun i => negb (rated_pair user_id joke_id i))
                       (interactions d)
                     ++ [ {| i_user_id := user_id; i_joke_id := joke_id;
                             i_liked := liked |} ])) by reflexivity.
  assert (Hrows : joke_theme_rows d1 joke_id = joke_theme_rows d joke_id)
    by (rewrite Hd1; reflexivity).
  destruct (update_each_theme_rows user_id liked (joke_theme_rows d joke_id)
              (joke_theme_rows_NoDup d joke_id Hkeys) (user_preferences d))
    as (prefs' & Hrun & Hseen & _).
  destruct (update_store_cases d1 NoFault NoFault user_id joke_id liked)
    as [Hsame | (prefs1 & Hrun1 & Hstore)].
  - rewrite Hsame, Hd1. repeat split.
    intros th Hin. exfalso.
    revert Hsame. unfold update_store, update_user_preference, get_joke_themes,
      method, with_connection, execute. cbn [fst snd sql_bind commit_raises].
    rewrite Hrows.
    destruct (joke_theme_rows d joke_id) as [|th0 ths]; [destruct Hin |].
    replace (user_preferences d1) with (user_preferences d)
      by (rewrite Hd1; reflexivity).
    rewrite Hrun. cbn [sql_bind snd].
    intros Hsame. apply (f_equal user_preferences) in Hsame.
    cbn [user_preferences set_user_preferences] in Hsame.
    assert (Hrow := Hseen th Hin). rewrite Hsame in Hrow.
    rewrite Hd1 in Hrow. cbn [user_preferences set_interactions] in Hrow.
    unfold rated_row in Hrow.
    destruct (user_preferences d !! (user_id, th_id th)) as [row|];
      [| discriminate].
    injection Hrow as Hrow. apply (f_equal up_interactions) in Hrow.
    cbn in Hrow. lia.
  - rewrite Hstore, Hd1. repeat split.
    intros th Hin. cbn [user_preferences set_user_preferences].
    rewrite Hrows in Hrun1.
    replace (user_preferences d1) with (user_preferences d) in Hrun1
      by (rewrite Hd1; reflexivity).
    rewrite Hrun in Hrun1. injection Hrun1 as <-. exact (Hseen th Hin).
Qed.

(** X14.  Once [add_interaction] has stored a rating of a joke, with
    working reads of the preferences and the interactions and at least
    one theme, [get_recommended_joke] does not return that joke to the
    user again, whatever the draws, as long as the history and the rated
    jokes together are at most 100. *)
Theorem rating_retires_the_joke
    (self : recommender) (d : db) (st : storage) (r : draws)
    (user_id joke_id : Z) (liked : bool) (found : joke_view) :
  st_preferences st = NoFault -> st_interactions st = NoFault ->
  themes d <> [] ->
  let d' := snd (add_interaction d NoFault user_id joke_id liked) in
  (size (seen self d' user_id) <= 100)%nat ->
  snd (get_recommended_joke self d' st r user_id) = Ok (Some found) ->
  jv_id found <> joke_id.
Proof.
  intros Hp Hi Hthemes d' Hsmall Hcall Heq.
  assert (Hrated : In joke_id (rated_by d' user_id)).
  { unfold d', rated_by. apply in_map_iff.
    exists {| i_user_id := user_id; i_joke_id := joke_id; i_liked := liked |}.
    split; [reflexivity |]. apply filter_In. split.
    - cbn. apply in_or_app. right. left. reflexivity.
    - cbn. apply Z.eqb_refl. }
  assert (Hne : rated_by d' user_id <> []).
  { intros Hnil. rewrite Hnil in Hrated. destruct Hrated. }
  destruct (seen_jokes_are_skipped self d' st r user_id found
              Hp Hi Hthemes Hne Hcall) as [_ Hskip].
  apply (Hskip Hsmall). rewrite Heq. unfold seen.
  apply elem_of_union. right.
  apply elem_of_list_to_set, list_elem_of_In. exact Hrated.
Qed.

(** X15.  The two calls [process_like_dislike] makes for a rating, made
    twice for the same user and joke with working storage, leave one row
    of [interactions] for the pair, holding the second verdict, while
    the interaction count of every theme the joke is linked to has grown
    by two: [user_preferences] counts each press, [interactions] the
    last one. *)
Theorem repeated_rating_counts_twice
    (d : db) (user_id joke_id : Z) (first second : bool) (th : joke_theme) :
  primary_keys d ->
  In th (joke_theme_rows d joke_id) ->
  let d2 := rate_joke (rate_joke d user_id joke_id first)
              user_id joke_id second in
  List.filter (rated_pair user_id joke_id) (interactions d2)
  = [ {| i_user_id := user_id; i_joke_id := joke_id; i_liked := second |} ] /\
  exists row,
    user_preferences d2 !! (user_id, th_id th) = Some row /\
    up_interactions row
    = (match user_preferences d !! (user_id, th_id th) with
       | Some before => up_interactions before
       | None => 0
       end + 2)%Z.
Proof.
  intros Hkeys Hth d2.
  destruct (rate_joke_effect d user_id joke_id first Hkeys)
    as (Ht1 & _ & Hl1 & _ & Hrow1).
  set (d1 := rate_joke d user_id joke_id first) in *.
  assert (Hkeys1 : primary_keys d1).
  { destruct Hkeys as [Hk1 Hk2]. split; [rewrite Ht1 | rewrite Hl1]; assumption. }
  assert (Hrows1 : joke_theme_rows d1 joke_id = joke_theme_rows d joke_id).
  { unfold joke_theme_rows. rewrite Ht1, Hl1. reflexivity. }
  destruct (rate_joke_effect d1 user_id joke_id second Hkeys1)
    as (_ & _ & _ & Hi2 & Hrow2).
  split.
  - unfold d2. rewrite Hi2, List.filter_app, filter_none. cbn.
    rewrite (proj2 (rated_pair_spec user_id joke_id _)) by (split; reflexivity).
    reflexivity.
  - rewrite Hrows1 in Hrow2. specialize (Hrow2 th Hth).
    rewrite (Hrow1 th Hth) in Hrow2.
    eexists. split; [exact Hrow2 |].
    unfold rated_row. cbn [up_interactions].
    destruct (user_preferences d !! (user_id, th_id th)); lia.
Qed.

End Ratings.

Lemma rating_retires_the_joke_witness :
  snd (get_recommended_joke init
         (snd (add_interaction Examples.catalog NoFault 8 1 true))
         Examples.all_working Examples.exploiting 8)
  = Ok (Some {| jv_id := 2; jv_text := "Буличка";
                jv_theme := Some (2%Z, "Школьные"%string, "🎓"%string) |}) /\
  jv_id {| jv_id := 2; jv_text := "Буличка";
           jv_theme := Some (2%Z, "Школьные"%string, "🎓"%string) |}
  <> 1%Z.
Proof.
  assert (Hcall :
            snd (get_recommended_joke init
                   (snd (add_interaction Examples.catalog NoFault 8 1 true))
                   Examples.all_working Examples.exploiting 8)
            = Ok (Some {| jv_id := 2; jv_text := "Буличка";
                          jv_theme :=
                            Some (2%Z, "Школьные"%string, "🎓"%string) |}))
    by (vm_compute; reflexivity).
  split; [exact Hcall |].
  apply (rating_retires_the_joke init Examples.catalog Examples.all_working
           Examples.exploiting 8 1 true).
  - reflexivity.
  - reflexivity.
  - discriminate.
  - vm_compute. lia.
  - exact Hcall.
Defined.

Lemma repeated_rating_counts_twice_witness :
  List.filter (rated_pair 7 1)
    (interactions (rate_joke (rate_joke Examples.catalog 7 1 true) 7 1 false))
  = [ {| i_user_id := 7; i_joke_id := 1; i_liked := false |} ] /\
  exists row,
    user_preferences (rate_joke (rate_joke Examples.catalog 7 1 true) 7 1 false)
      !! (7%Z, 1%Z) = Some row /\
    up_interactions row = 14%Z.
Proof.
  apply (repeated_rating_counts_twice Examples.catalog 7 1 true false
           {| th_id := 1; th_name := "Работа"; th_emoji := "💻";
              th_weight := Some 1%Q |}).
  - split; nodup_list.
  - left. reflexivity.
Defined.

(** ** add_favorite and get_user_favorites *)

Section Favorites.

Lemma marks_spec (user_id joke_id : Z) (fav : favorite_row) :
  marks user_id joke_id fav = true <->
  f_user_id fav = user_id /\ f_joke_id fav = joke_id.
Proof. unfold marks. rewrite andb_true_iff, !Z.eqb_eq. reflexivity. Qed.

Lemma is_favorite_marks (s : store) (user_id joke_id : Z) :
  is_favorite s user_id joke_id <->
  existsb (marks user_id joke_id) (s_favorites s) = true.
Proof.
  rewrite existsb_exists. unfold is_favorite.
  split; intros (fav & Hin & H); exists fav; (split; [exact Hin |]);
    apply marks_spec; exact H.
Qed.

Lemma favorite_after (s : store) (now user_id joke_id u j : Z) :
  is_favorite (snd (add_favorite s NoFault now user_id joke_id)) u j <->
  (if decide ((u, j) = (user_id, joke_id))
   then ~ is_favorite s user_id joke_id
   else is_favorite s u j).
Proof.
  unfold add_favorite, writing, with_connection.
  cbn [execute sql_bind].
  destruct (existsb (marks user_id joke_id) (s_favorites s)) eqn:Epresent;
    cbn [snd fst].
  - assert (Hwas : is_favorite s user_id joke_id)
      by (apply is_favorite_marks; exact Epresent).
    unfold is_favorite at 1. cbn [s_favorites set_favorites].
    destruct (decide ((u, j) = (user_id, joke_id))) as [[= -> ->] | Hne].
    + split; [| contradiction].
      intros (fav & Hin & Hu & Hj). apply filter_In in Hin as [_ Hno].
      apply negb_true_iff in Hno.
      assert (marks user_id joke_id fav = true) by (apply marks_spec; auto).
      congruence.
    + split.
      * intros (fav & Hin & Hu & Hj). apply filter_In in Hin as [Hin _].
        exists fav. auto.
      * intros (fav & Hin & Hu & Hj). exists fav. repeat split; try assumption.
        apply filter_In. split; [exact Hin |]. apply negb_true_iff.
        destruct (marks user_id joke_id fav) eqn:Em; [| reflexivity].
        apply marks_spec in Em as [Hu' Hj']. exfalso. apply Hne. congruence.
  - assert (Hwas : ~ is_favorite s user_id joke_id).
    { intros H. apply is_favorite_marks in H. congruence. }
    unfold is_favorite at 1. cbn [s_favorites set_favorites].
    destruct (decide ((u, j) = (user_id, joke_id))) as [[= -> ->] | Hne].
    + split; [intros _; exact Hwas | intros _].
      eexists. split; [apply in_or_app; right; left; reflexivity |].
      split; reflexivity.
    + split.
      * intros (fav & Hin & Hu & Hj).
        apply in_app_or in Hin as [Hin | [<- | []]].
        -- exists fav. auto.
        -- cbn in Hu, Hj. exfalso. apply Hne. congruence.
      * intros (fav & Hin & Hu & Hj). exists fav. repeat split; try assumption.
        apply in_or_app. left. exact Hin.
Qed.

Lemma insert_by_time_perm (x : Z * joke_view) (xs : list (Z * joke_view)) :
  Permutation (insert_by_time x xs) (x :: xs).
Proof.
  induction xs as [|y ys IH]; cbn; [reflexivity |].
  destruct (Z.ltb (fst x) (fst y)); [| reflexivity].
  rewrite IH. apply perm_swap.
Qed.

Lemma by_time_perm (xs : list (Z * joke_view)) :
  Permutation (List.fold_right insert_by_time [] xs) xs.
Proof.
  induction xs as [|x xs IH]; cbn; [reflexivity |].
  rewrite insert_by_time_perm, IH. reflexivity.
Qed.

Lemma favorites_listed (s : store) (user_id : Z) (v : joke_view) :
  In v (favorites_of s user_id) <->
  exists j,
    In j (s_jokes s) /\ j_is_approved (jr_joke j) = true /\
    is_favorite s user_id (j_id (jr_joke j)) /\ v = favorite_view j.
Proof.
  change (favorites_of s user_id)
    with (List.map snd
            (List.fold_right insert_by_time [] (favorite_rows s user_id))).
  rewrite in_map_iff. split.
  - intros ([time v'] & Hv & Hin). cbn in Hv. subst v'.
    apply (Permutation_in _ (by_time_perm _)) in Hin.
    unfold favorite_rows in Hin.
    apply in_flat_map in Hin as (j & Hj & Hin).
    apply in_map_iff in Hin as (fav & [= _ <-] & Hin).
    apply filter_In in Hin as [Hin Hcond].
    apply andb_true_iff in Hcond as [Hcond Happroved].
    apply andb_true_iff in Hcond as [Hid Huser].
    apply Z.eqb_eq in Hid, Huser.
    exists j. repeat split; try assumption. exists fav. auto.
  - intros (j & Hj & Happroved & (fav & Hin & Hu & Hid) & ->).
    exists (f_created_at fav, favorite_view j). split; [reflexivity |].
    apply (Permutation_in _ (Permutation_sym (by_time_perm _))).
    unfold favorite_rows. apply in_flat_map. exists j. split; [exact Hj |].
    apply in_map_iff. exists fav. split; [reflexivity |].
    apply filter_In. split; [exact Hin |].
    rewrite Happroved, Hu, Hid, !Z.eqb_refl. reflexivity.
Qed.

(** X16.  With working storage [get_user_favorites] lists exactly the
    approved rows of [jokes] the user has a row of [favorites] for; a
    joke whose rows are all unapproved is never listed.  A failing
    [connect] gives the empty list, a failing statement [None]. *)
Theorem favorites_are_the_marked_approved_jokes
    (s : store) (f : fault) (user_id : Z) :
  (f = NoFault ->
   exists views,
     snd (get_user_favorites s f user_id) = Some views /\
     (forall v,
         In v views <->
         exists j,
           In j (s_jokes s) /\ j_is_approved (jr_joke j) = true /\
           is_favorite s user_id (j_id (jr_joke j)) /\ v = favorite_view j) /\
     (forall joke_id,
         (forall j, In j (s_jokes s) -> j_id (jr_joke j) = joke_id ->
                    j_is_approved (jr_joke j) = false) ->
         ~ In joke_id (List.map jv_id views))) /\
  (f = ConnectFails -> snd (get_user_favorites s f user_id) = Some []) /\
  (f = ExecuteFails -> snd (get_user_favorites s f user_id) = None).
Proof.
  split; [| split]; intros ->; [| reflexivity | reflexivity].
  exists (favorites_of s user_id). split; [reflexivity |].
  split; [apply favorites_listed |].
  intros joke_id Hno Hin.
  apply in_map_iff in Hin as (v & Hid & Hin).
  apply favorites_listed in Hin as (j & Hj & Happroved & _ & ->).
  cbn in Hid. rewrite (Hno j Hj Hid) in Happroved. discriminate.
Qed.

(** X17.  With working storage [add_favorite] toggles the mark of the
    user on the joke and says which way: the flag returned is [True]
    exactly when there was no mark, the mark is there afterwards exactly
    when it was not before, the marks of every other pair are unchanged,
    and a second call restores the marks of the first store.  The
    favorites list changes at no other joke, and a table with at most
    one row per pair stays so.  With failing storage the store is
    unchanged, and the method returns [(False, '❌ Ошибка')] when the
    connection cannot be opened, [None] when the first statement raises,
    and, when the commit raises, the flag and the text of a working
    call: the caller is told of a change that is rolled back.  No other
    table changes. *)
Theorem add_favorite_toggles
    (s : store) (f : fault) (now user_id joke_id : Z) :
  let call := add_favorite s f now user_id joke_id in
  let s' := snd call in
  (f = NoFault ->
   (exists text,
       snd (fst call)
       = Some (negb (existsb (marks user_id joke_id) (s_favorites s)), text)) /\
   (is_favorite s' user_id joke_id <-> ~ is_favorite s user_id joke_id) /\
   (forall u j,
       (u, j) <> (user_id, joke_id) ->
       (is_favorite s' u j <-> is_favorite s u j)) /\
   (forall later u j,
       is_favorite (snd (add_favorite s' NoFault later user_id joke_id)) u j
       <-> is_favorite s u j) /\
   (forall v,
       jv_id v <> joke_id ->
       (In v (favorites_of s' user_id) <-> In v (favorites_of s user_id))) /\
   (one_mark_per_pair s -> one_mark_per_pair s')) /\
  (f <> NoFault -> s' = s) /\
  (f = ConnectFails -> snd (fst call) = Some (false, "❌ Ошибка"%string)) /\
  (f = ExecuteFails -> snd (fst call) = None) /\
  (f = CommitFails ->
   snd (fst call) = snd (fst (add_favorite s NoFault now user_id joke_id)) /\
   exists text,
     snd (fst call)
     = Some (negb (existsb (marks user_id joke_id) (s_favorites s)), text)) /\
  (s_jokes s' = s_jokes s /\ s_joke_themes s' = s_joke_themes s /\
   s_users s' = s_users s /\ s_user_preferences s' = s_user_preferences s /\
   s_interactions s' = s_interactions s /\ s_themes s' = s_themes s).
Proof.
  intros call s'. split; [| split; [| split; [| split; [| split]]]].
  - intros ->.
    split; [| split; [| split; [| split; [| split]]]].
    + unfold call, add_favorite, writing, with_connection.
      cbn [execute sql_bind].
      destruct (existsb (marks user_id joke_id) (s_favorites s));
        cbn; eexists; reflexivity.
    + unfold s', call. rewrite favorite_after.
      destruct (decide _) as [_ | Hne]; [reflexivity | congruence].
    + intros u j Hne. unfold s', call. rewrite favorite_after.
      destruct (decide _) as [He | _]; [congruence | reflexivity].
    + intros later u j. unfold s', call. rewrite favorite_after.
      destruct (decide ((u, j) = (user_id, joke_id))) as [[= -> ->] | Hne].
      * rewrite favorite_after.
        destruct (decide _) as [_ | Hne]; [| congruence].
        rewrite is_favorite_marks.
        destruct (existsb (marks user_id joke_id) (s_favorites s));
          intuition congruence.
      * rewrite favorite_after.
        destruct (decide _) as [He | _]; [congruence | reflexivity].
    + intros v Hv. rewrite !favorites_listed.
      assert (Hsame : s_jokes s' = s_jokes s).
      { unfold s', call, add_favorite, writing, with_connection.
        cbn [execute sql_bind].
        destruct (existsb (marks user_id joke_id) (s_favorites s)); reflexivity. }
      rewrite Hsame.
      split; intros (j0 & Hj & Ha & Hfav & ->); exists j0;
        repeat split; try assumption; cbn in Hv;
        unfold s', call in *; rewrite favorite_after in *;
        destruct (decide _) as [[= He] | _]; try congruence; assumption.
    + unfold one_mark_per_pair, s', call, add_favorite, writing, with_connection.
      cbn [execute sql_bind]. intros Hnd.
      destruct (existsb (marks user_id joke_id) (s_favorites s)) eqn:Epresent;
        cbn [snd s_favorites set_favorites commit_raises has_written].
      * apply NoDup_map_filter. exact Hnd.
      * rewrite List.map_app. cbn [List.map].
        apply NoDup_ListNoDup, NoDup_app. split; [| split].
        -- apply NoDup_ListNoDup. exact Hnd.
        -- intros pair Hin Hnew. apply list_elem_of_In in Hin.
           apply list_elem_of_singleton in Hnew. subst pair.
           apply in_map_iff in Hin as (fav & Hfav & Hin). cbn in Hfav.
           assert (Hyes : existsb (marks user_id joke_id) (s_favorites s) = true).
           { apply existsb_exists. exists fav. split; [exact Hin |].
             apply marks_spec. split; congruence. }
           congruence.
        -- apply NoDup_singleton.
  - intros Hf. unfold s', call, add_favorite, writing, with_connection.
    destruct f; [congruence | | |]; cbn [execute sql_bind];
      try reflexivity.
    destruct (existsb (marks user_id joke_id) (s_favorites s)); reflexivity.
  - intros ->. reflexivity.
  - intros ->. reflexivity.
  - intros ->. unfold call, add_favorite, writing, with_connection.
    cbn [execute sql_bind].
    destruct (existsb (marks user_id joke_id) (s_favorites s));
      (split; [reflexivity | eexists; reflexivity]).
  - unfold s', call, add_favorite, writing, with_connection.
    destruct f; cbn [execute sql_bind];
      try (destruct (existsb (marks user_id joke_id) (s_favorites s)));
      cbn; repeat split.
Qed.

End Favorites.

Lemma add_favorite_toggles_witness :
  snd (fst (add_favorite Scenarios.shop CommitFails 11 7 1))
  = Some (true, "⭐ Добавлено в избранное"%string) /\
  snd (add_favorite Scenarios.shop CommitFails 11 7 1) = Scenarios.shop /\
  snd (fst (add_favorite Scenarios.shop ConnectFails 11 7 1))
  = Some (false, "❌ Ошибка"%string) /\
  is_favorite (snd (add_favorite Scenarios.shop NoFault 11 7 1)) 7 2.
Proof.
  assert (Hcommit := add_favorite_toggles Scenarios.shop CommitFails 11 7 1).
  assert (Hconnect := add_favorite_toggles Scenarios.shop ConnectFails 11 7 1).
  assert (Hworks := add_favorite_toggles Scenarios.shop NoFault 11 7 1).
  cbv zeta in Hcommit, Hconnect, Hworks.
  destruct Hcommit as (_ & Hsame & _ & _ & Htold & _).
  destruct Hconnect as (_ & _ & Herror & _).
  destruct Hworks as (Htoggle & _).
  split; [exact (proj1 (Htold eq_refl)) |].
  split; [apply Hsame; discriminate |].
  split; [apply Herror; reflexivity |].
  destruct (Htoggle eq_refl) as (_ & _ & Hothers & _).
  apply Hothers; [discriminate |].
  eexists. split; [left; reflexivity | split; reflexivity].
Defined.

(** ** classify_joke and add_user_joke *)

Section Classify.

Variable lower : string -> string.

Lemma classify_unfold (joke_text : string) :
  classify_joke lower joke_text
  = match themes_mentioned (mentions (lower joke_text)) keywords with
    | [] => [5%Z]
    | t :: ts => t :: ts
    end.
Proof.
  unfold classify_joke, themes_mentioned.
  destruct (List.map fst _); reflexivity.
Qed.

Lemma themes_mentioned_spec (m : list string -> bool)
    (table : list (Z * list string)) (t : Z) :
  In t (themes_mentioned m table) <->
  exists words, In (t, words) table /\ m words = true.
Proof.
  unfold themes_mentioned. rewrite in_map_iff. split.
  - intros ([t' words] & <- & Hin). apply filter_In in Hin as [Hin Hm].
    exists words. split; assumption.
  - intros (words & Hin & Hm). exists (t, words). split; [reflexivity |].
    apply filter_In. split; assumption.
Qed.

Lemma themes_mentioned_sorted (m : list string -> bool)
    (table : list (Z * list string)) :
  StronglySorted Z.lt (List.map fst table) ->
  StronglySorted Z.lt (themes_mentioned m table).
Proof.
  unfold themes_mentioned.
  induction table as [|[t words] table IH]; cbn; intros Hs; [constructor |].
  apply StronglySorted_inv in Hs as [Hs Hall].
  destruct (m words); cbn; [| apply IH; exact Hs].
  constructor; [apply IH; exact Hs |].
  apply List.Forall_forall. intros t' Hin.
  apply in_map_iff in Hin as ([t'' words'] & <- & Hin).
  apply filter_In in Hin as [Hin _].
  eapply (proj1 (List.Forall_forall _ _) Hall).
  apply in_map_iff. exists (t'', words'). split; [reflexivity | exact Hin].
Qed.

Lemma keywords_ids : List.map fst keywords = [1; 2; 3; 4; 5]%Z.
Proof. reflexivity. Qed.

Lemma keywords_sorted : StronglySorted Z.lt (List.map fst keywords).
Proof.
  rewrite keywords_ids.
  repeat (constructor; [| repeat (constructor; try lia)]). constructor.
Qed.

Lemma unique_key {A B} (l : list (A * B)) (a : A) (b b' : B) :
  List.NoDup (List.map fst l) -> In (a, b) l -> In (a, b') l -> b = b'.
Proof.
  induction l as [|[a0 b0] l IH]; cbn; intros Hnd; [intros [] |].
  apply List.NoDup_cons_iff in Hnd as [Hfresh Hnd].
  intros [He | Hin] [He' | Hin'].
  - congruence.
  - exfalso. apply Hfresh. apply in_map_iff. exists (a, b').
    split; [cbn; congruence | exact Hin'].
  - exfalso. apply Hfresh. apply in_map_iff. exists (a, b).
    split; [cbn; congruence | exact Hin].
  - exact (IH Hnd Hin Hin').
Qed.

Lemma keywords_keys (t : Z) (words words' : list string) :
  In (t, words) keywords -> In (t, words') keywords -> words = words'.
Proof.
  apply unique_key. rewrite keywords_ids.
  repeat (apply List.NoDup_cons; [cbn; lia |]). apply List.NoDup_nil.
Qed.

Lemma keywords_default (words : list string) :
  In (5%Z, words) keywords -> words = [].
Proof.
  intros H. apply (keywords_keys 5 words []); [exact H |].
  unfold keywords. cbn [In]. do 4 right. left. reflexivity.
Qed.

(** X18.  [classify_joke] never returns the empty list; its result is in
    ascending order, without repetition, and holds only ids of the
    keyword table.  A theme other than 5 is in it exactly when one of its
    keywords occurs in the lowered text, and theme 5 exactly when no
    keyword of any theme does, in which case it is the whole result. *)
Theorem classify_joke_names_matching_themes (joke_text : string) :
  let themes := classify_joke lower joke_text in
  (themes <> [] /\ StronglySorted Z.lt themes /\
   List.Forall (fun t => In t (List.map fst keywords)) themes) /\
  (forall t words,
      In (t, words) keywords -> t <> 5%Z ->
      (In t themes <-> mentions (lower joke_text) words = true)) /\
  (In 5%Z themes <->
   forall t words,
     In (t, words) keywords -> mentions (lower joke_text) words = false) /\
  (In 5%Z themes -> themes = [5%Z]).
Proof.
  intros themes. unfold themes. rewrite classify_unfold.
  set (m := mentions (lower joke_text)).
  assert (Hsorted := themes_mentioned_sorted m keywords keywords_sorted).
  assert (Hspec := themes_mentioned_spec m keywords).
  assert (Hno5 : ~ In 5%Z (themes_mentioned m keywords)).
  { intros H. apply Hspec in H as (words & Hin & Hm).
    apply keywords_default in Hin. subst words. discriminate Hm. }
  destruct (themes_mentioned m keywords) as [|t0 ts] eqn:Eth.
  - split; [split; [discriminate | split] | split; [| split]].
    + repeat constructor.
    + constructor; [| constructor]. rewrite keywords_ids. cbn. auto 6.
    + intros t words Hin Hne. split.
      * intros [H | []]. congruence.
      * intros Hm. exfalso.
        apply (proj2 (Hspec t)). exists words. split; assumption.
    + split; [| intros _; left; reflexivity].
      intros _ t words Hin. destruct (m words) eqn:Hm; [| reflexivity].
      exfalso. apply (proj2 (Hspec t)). exists words. split; assumption.
    + reflexivity.
  - split; [split; [discriminate | split] | split; [| split]].
    + exact Hsorted.
    + apply List.Forall_forall. intros t Hin.
      apply Hspec in Hin as (words & Hin & _).
      apply in_map_iff. exists (t, words). split; [reflexivity | exact Hin].
    + intros t words Hin Hne. rewrite Hspec. split.
      * intros (words' & Hin' & Hm).
        rewrite (keywords_keys t words words' Hin Hin'). exact Hm.
      * intros Hm. exists words. split; assumption.
    + split; [intros H; contradiction |].
      intros Hnone. exfalso.
      destruct (proj1 (Hspec t0) (or_introl eq_refl)) as (words & Hin & Hm).
      rewrite (Hnone t0 words Hin) in Hm. discriminate.
    + intros H. contradiction.
Qed.

Lemma fold_max_bound (ids : list Z) (id : Z) :
  In id ids -> (id <= List.fold_right Z.max 0 ids)%Z.
Proof.
  induction ids as [|x ids IH]; cbn; [intros [] |].
  intros [-> | Hin]; [lia |]. specialize (IH Hin). lia.
Qed.

Lemma next_rowid_fresh (seq : Z) (ids : list Z) :
  ~ In (next_rowid seq ids) ids.
Proof.
  intros Hin. apply fold_max_bound in Hin. unfold next_rowid in Hin. lia.
Qed.

Lemma insert_links_result (f : fault) (joke_id : Z) (theme_ids : list Z) :
  forall links links',
    insert_links f links joke_id theme_ids = SqlOk links' ->
    links'
    = links
      ++ List.map
           (fun theme_id =>
              {| jt_joke_id := joke_id; jt_theme_id := theme_id;
                 jt_weight := Some 1%Q |})
           theme_ids.
Proof.
  induction theme_ids as [|t ts IH]; intros links links' Hrun; cbn in Hrun.
  - injection Hrun as <-. symmetry. apply List.app_nil_r.
  - destruct f; cbn in Hrun; try discriminate;
      destruct (existsb _ links); cbn in Hrun; try discriminate;
      apply IH in Hrun; rewrite Hrun, <- List.app_assoc; reflexivity.
Qed.

Lemma insert_links_succeeds (joke_id : Z) (theme_ids : list Z) :
  StronglySorted Z.lt theme_ids ->
  forall links,
    (forall jt, In jt links -> jt_joke_id jt = joke_id ->
                forall t, In t theme_ids -> (jt_theme_id jt < t)%Z) ->
    exists links', insert_links NoFault links joke_id theme_ids = SqlOk links'.
Proof.
  induction 1 as [|t ts Hs IH Hall]; intros links Hfresh; cbn.
  - eexists. reflexivity.
  - destruct (existsb _ links) eqn:Ex.
    + exfalso. apply existsb_exists in Ex as (jt & Hin & Hc).
      apply andb_true_iff in Hc as [Hj Ht]. apply Z.eqb_eq in Hj, Ht.
      specialize (Hfresh jt Hin Hj t (or_introl eq_refl)). lia.
    + cbn. apply IH. intros jt Hin Hj t' Hin'.
      apply in_app_or in Hin as [Hin | [<- | []]].
      * apply (Hfresh jt Hin Hj). right. exact Hin'.
      * cbn. exact (proj1 (List.Forall_forall _ _) Hall t' Hin').
Qed.

Lemma classify_sorted (joke_text : string) :
  StronglySorted Z.lt (classify_joke lower joke_text).
Proof.
  rewrite classify_unfold.
  assert (Hsorted := themes_mentioned_sorted (mentions (lower joke_text))
                       keywords keywords_sorted).
  destruct (themes_mentioned _ keywords); [repeat constructor | exact Hsorted].
Qed.

Lemma add_user_joke_cases (s : store) (f : fault) (text : string)
    (author_id : Z) :
  (snd (fst (add_user_joke lower s f text author_id)) = None /\
   snd (add_user_joke lower s f text author_id) = s) \/
  (exists added,
      snd (fst (add_user_joke lower s f text author_id)) = Some added /\
      aj_joke_id added = new_joke_id s /\
      ((f = CommitFails /\
        snd (add_user_joke lower s f text author_id) = s) \/
       (f <> CommitFails /\
        s_jokes (snd (add_user_joke lower s f text author_id))
        = s_jokes s ++ [pending_record s text author_id] /\
        s_joke_themes (snd (add_user_joke lower s f text author_id))
        = s_joke_themes s
          ++ List.map
               (fun theme_id =>
                  {| jt_joke_id := new_joke_id s; jt_theme_id := theme_id;
                     jt_weight := Some 1%Q |})
               (classify_joke lower text) /\
        s_themes (snd (add_user_joke lower s f text author_id)) = s_themes s /\
        s_user_preferences (snd (add_user_joke lower s f text author_id))
        = s_user_preferences s /\
        s_interactions (snd (add_user_joke lower s f text author_id))
        = s_interactions s /\
        s_favorites (snd (add_user_joke lower s f text author_id))
        = s_favorites s /\
        s_users (snd (add_user_joke lower s f text author_id)) = s_users s))).
Proof.
  unfold add_user_joke, writing, with_connection.
  destruct f; cbn [execute sql_bind]; try (left; split; reflexivity).
  all: fold (joke_ids s); fold (new_joke_id s).
  all: destruct (insert_links _ (s_joke_themes s) (new_joke_id s)
                   (classify_joke lower text)) as [links|] eqn:Erun;
    cbn [sql_bind fst snd commit_raises has_written];
    [| left; split; reflexivity].
  all: right; apply insert_links_result in Erun; subst links.
  all: eexists; split; [reflexivity |]; split; [reflexivity |].
  - right. split; [discriminate |]. repeat split.
  - left. split; reflexivity.
Qed.

(** X19.  [add_user_joke] either returns [None] and leaves the store as
    it was, or returns the id a new row of [jokes] gets, which was not in
    use.  Unless the commit raises, that row is then stored: it is
    unapproved with status pending, the themes [classify_joke] gives are
    the links added for it, and the count of [get_pending_jokes_count]
    grows by one.  When the commit raises the id is returned all the
    same, while the row and its links are rolled back and the store is
    as it was.  In every case neither [get_random_joke], under any
    arguments, nor the favorites list of any user returns a joke with
    the id returned. *)
Theorem pending_joke_is_never_served
    (s : store) (f : fault) (text : string) (author_id : Z) :
  let call := add_user_joke lower s f text author_id in
  let s' := snd call in
  match snd (fst call) with
  | None => s' = s
  | Some added =>
      ~ In (aj_joke_id added) (joke_ids s) /\
      aj_joke_id added = j_id (jr_joke (pending_record s text author_id)) /\
      (f <> CommitFails ->
       s_jokes s' = s_jokes s ++ [pending_record s text author_id] /\
       List.map jt_theme_id
         (List.filter (fun jt => Z.eqb (jt_joke_id jt) (aj_joke_id added))
            (s_joke_themes s'))
       = List.map jt_theme_id
           (List.filter (fun jt => Z.eqb (jt_joke_id jt) (aj_joke_id added))
              (s_joke_themes s))
         ++ classify_joke lower text /\
       pending_count s' = (pending_count s + 1)%Z) /\
      (f = CommitFails -> s' = s) /\
      (forall fq pick excluded_ids theme_id joke,
          snd (get_random_joke (engine_view s') fq pick excluded_ids theme_id)
          = Some joke ->
          jv_id joke <> aj_joke_id added) /\
      (forall user_id,
          ~ In (aj_joke_id added)
              (List.map jv_id (favorites_of s' user_id)))
  end.
Proof.
  intros call s'. unfold s', call.
  destruct (add_user_joke_cases s f text author_id)
    as [[-> ->] | (added & -> & Hid & Hstore)]; [reflexivity |].
  assert (Hfresh : ~ In (new_joke_id s) (joke_ids s))
    by apply next_rowid_fresh.
  assert (Hold : forall j, In j (s_jokes s) ->
                           j_id (jr_joke j) <> new_joke_id s).
  { intros j Hin Hj. apply Hfresh. rewrite <- Hj. unfold joke_ids.
    apply in_map_iff. exists j. split; [reflexivity | exact Hin]. }
  assert (Hunapproved :
            forall j, In j (s_jokes (snd (add_user_joke lower s f text author_id))) ->
                      j_id (jr_joke j) = new_joke_id s ->
                      j_is_approved (jr_joke j) = false).
  { intros j Hin Hj.
    destruct Hstore as [[_ Hsame] | (_ & Hjokes & _)].
    - rewrite Hsame in Hin. destruct (Hold j Hin Hj).
    - rewrite Hjokes in Hin.
      apply in_app_or in Hin as [Hin | [<- | []]]; [| reflexivity].
      destruct (Hold j Hin Hj). }
  rewrite Hid. split; [exact Hfresh |]. split; [reflexivity |].
  split; [| split; [| split]].
  - intros Hf.
    destruct Hstore as [[Hc _] | (_ & Hjokes & Hlinks & _)]; [congruence |].
    split; [exact Hjokes |]. split.
    + rewrite Hlinks, List.filter_app, List.map_app. f_equal.
      generalize (classify_joke lower text). clear. intros ts.
      induction ts as [|t ts IH]; [reflexivity |].
      cbn. rewrite Z.eqb_refl. cbn. f_equal. exact IH.
    + unfold pending_count, pending_jokes. rewrite Hjokes, List.filter_app.
      cbn. rewrite List.length_app. cbn. lia.
  - intros Hf.
    destruct Hstore as [[_ Hsame] | (Hc & _)]; [exact Hsame | congruence].
  - intros fq pick excluded_ids theme_id joke Hdrawn Heq.
    apply drawn_row in Hdrawn as (row & -> & Hrow & Happroved & _).
    cbn [engine_view jokes] in Hrow.
    apply in_map_iff in Hrow as (j & <- & Hj).
    rewrite (Hunapproved j Hj Heq) in Happroved. discriminate.
  - intros user_id Hin.
    apply in_map_iff in Hin as (v & Hv & Hin).
    apply favorites_listed in Hin as (j & Hj & Happroved & _ & ->).
    cbn in Hv. rewrite (Hunapproved j Hj Hv) in Happroved. discriminate.
Qed.

(** X20.  With working storage, in a store where every link of
    [joke_themes] refers to a row of [jokes], [add_user_joke] succeeds,
    and the links of the new store again all refer to rows of [jokes]. *)
Theorem add_user_joke_succeeds_on_consistent_links
    (s : store) (text : string) (author_id : Z) :
  links_refer_to_jokes s ->
  exists added,
    snd (fst (add_user_joke lower s NoFault text author_id)) = Some added /\
    aj_joke_id added = new_joke_id s /\
    links_refer_to_jokes (snd (add_user_joke lower s NoFault text author_id)).
Proof.
  intros Hrefs.
  assert (Hfresh : ~ In (new_joke_id s) (joke_ids s))
    by apply next_rowid_fresh.
  destruct (insert_links_succeeds (new_joke_id s) (classify_joke lower text)
              (classify_sorted text) (s_joke_themes s)) as [links Hrun].
  { intros jt Hin Hj. exfalso. apply Hfresh. rewrite <- Hj. exact (Hrefs jt Hin). }
  destruct (add_user_joke_cases s NoFault text author_id)
    as [[Hnone _]
       | (added & Hsome & Hid & [[Hc _] | (_ & Hjokes & Hlinks & _)])];
    [| discriminate Hc |].
  - exfalso. revert Hnone.
    unfold add_user_joke, writing, with_connection. cbn [execute sql_bind].
    fold (joke_ids s). fold (new_joke_id s). rewrite Hrun. discriminate.
  - exists added. split; [exact Hsome |]. split; [exact Hid |].
    intros jt Hin. unfold joke_ids. rewrite Hjokes, List.map_app.
    apply in_or_app. rewrite Hlinks in Hin.
    apply in_app_or in Hin as [Hin | Hin].
    + left. exact (Hrefs jt Hin).
    + right. apply in_map_iff in Hin as (t & <- & _). left. reflexivity.
Qed.

End Classify.

Lemma pending_joke_is_never_served_witness :
  snd (fst (add_user_joke Scenarios.lower_case_already Scenarios.shop
              CommitFails "кот съел отчет" 7))
  = Some {| aj_joke_id := 4; aj_author_username := "user";
            aj_author_name := "Пользователь" |} /\
  snd (add_user_joke Scenarios.lower_case_already Scenarios.shop
         CommitFails "кот съел отчет" 7)
  = Scenarios.shop /\
  pending_count
    (snd (add_user_joke Scenarios.lower_case_already Scenarios.shop
            NoFault "кот съел отчет" 7))
  = (pending_count Scenarios.shop + 1)%Z.
Proof.
  assert (Hcommit := pending_joke_is_never_served Scenarios.lower_case_already
                       Scenarios.shop CommitFails "кот съел отчет" 7).
  assert (Hworks := pending_joke_is_never_served Scenarios.lower_case_already
                      Scenarios.shop NoFault "кот съел отчет" 7).
  cbv zeta in Hcommit, Hworks.
  change (snd (fst (add_user_joke Scenarios.lower_case_already Scenarios.shop
                      CommitFails "кот съел отчет" 7)))
    with (Some {| aj_joke_id := 4; aj_author_username := "user";
                  aj_author_name := "Пользователь" |}) in Hcommit.
  change (snd (fst (add_user_joke Scenarios.lower_case_already Scenarios.shop
                      NoFault "кот съел отчет" 7)))
    with (Some {| aj_joke_id := 4; aj_author_username := "user";
                  aj_author_name := "Пользователь" |}) in Hworks.
  cbv beta iota in Hcommit, Hworks.
  destruct Hcommit as (_ & _ & _ & Hsame & _).
  destruct Hworks as (_ & _ & Hstored & _).
  split; [reflexivity |].
  split; [apply Hsame; reflexivity |].
  apply Hstored. discriminate.
Defined.

Lemma add_user_joke_succeeds_witness :
  exists added,
    snd (fst (add_user_joke Scenarios.lower_case_already Scenarios.shop NoFault
                "кот съел отчет" 7))
    = Some added /\
    aj_joke_id added = new_joke_id Scenarios.shop /\
    links_refer_to_jokes
      (snd (add_user_joke Scenarios.lower_case_already Scenarios.shop NoFault
              "кот съел отчет" 7)).
Proof.
  apply (add_user_joke_succeeds_on_consistent_links
           Scenarios.lower_case_already Scenarios.shop "кот съел отчет" 7).
  intros jt Hin. cbn in Hin.
  destruct Hin as [<- | [<- | [<- | []]]]; cbn; auto.
Defined.

(** ** get_or_create_user *)

Section Users.

Variables (s : store) (telegram_id : Z) (username : option string)
          (first_name : string) (last_name : option string).

Lemma find_registered (users : list user_row) :
  match List.find (fun u => Z.eqb (u_telegram_id u) telegram_id) users with
  | Some u => In u users /\ u_telegram_id u = telegram_id
  | None => forall u, In u users -> u_telegram_id u <> telegram_id
  end.
Proof.
  destruct (List.find _ users) as [u|] eqn:E.
  - apply find_some in E as [Hin He]. apply Z.eqb_eq in He. auto.
  - intros u Hin He. apply (find_none _ _ E) in Hin.
    apply Z.eqb_neq in Hin. contradiction.
Qed.

Lemma insert_neutral_rows_ok (user_id : Z) (theme_ids : list Z) :
  List.NoDup theme_ids ->
  forall prefs : gmap (Z * Z) pref_row,
    (forall t, In t theme_ids -> prefs !! (user_id, t) = None) ->
    exists prefs',
      insert_neutral_rows NoFault prefs user_id theme_ids = SqlOk prefs' /\
      (forall t, In t theme_ids -> prefs' !! (user_id, t) = Some neutral_row) /\
      (forall key, (forall t, In t theme_ids -> key <> (user_id, t)) ->
                   prefs' !! key = prefs !! key).
Proof.
  induction 1 as [|t ts Hfresh Hnd IH]; intros prefs Hnone; cbn.
  - exists prefs. repeat split. intros t [].
  - rewrite (Hnone t (or_introl eq_refl)). cbn.
    destruct (IH (<[(user_id, t) := {| up_score := 0; up_interactions := 0 |}]> prefs))
      as (prefs' & Hrun & Hnew & Hold).
    { intros t' Hin. rewrite lookup_insert_ne; [apply Hnone; right; exact Hin |].
      intros [= ->]. contradiction. }
    exists prefs'. split; [exact Hrun |]. split.
    + intros t' [<- | Hin]; [| exact (Hnew t' Hin)].
      rewrite Hold; [apply lookup_insert_eq |].
      intros t' Hin [= ->]. contradiction.
    + intros key Hkey. rewrite Hold.
      * apply lookup_insert_ne. intros <-. exact (Hkey t (or_introl eq_refl) eq_refl).
      * intros t' Hin. apply Hkey. right. exact Hin.
Qed.

Lemma insert_neutral_rows_conflict (f : fault) (user_id : Z)
    (theme_ids : list Z) :
  forall prefs : gmap (Z * Z) pref_row,
    (exists t, In t theme_ids /\ prefs !! (user_id, t) <> None) ->
    insert_neutral_rows f prefs user_id theme_ids = SqlError.
Proof.
  induction theme_ids as [|t ts IH]; intros prefs (t0 & Hin & Hrow); cbn.
  - destruct Hin.
  - destruct (prefs !! (user_id, t)) as [row|] eqn:Et.
    + destruct f; reflexivity.
    + destruct f; try reflexivity; cbn; apply IH; exists t0;
        (destruct Hin as [<- | Hin]; [congruence |]);
        (split; [exact Hin |]);
        (destruct (decide (t0 = t)) as [-> | Hne];
         [rewrite lookup_insert_eq; discriminate
         | rewrite lookup_insert_ne by congruence; exact Hrow]).
Qed.

Lemma known_user (u : user_row) (f : fault) :
  List.find (fun u => Z.eqb (u_telegram_id u) telegram_id) (s_users s) = Some u ->
  f = NoFault ->
  get_or_create_user s f telegram_id username first_name last_name
  = ([], Some {| ui_id := u_id u; ui_telegram_id := telegram_id;
                 ui_username := username; ui_first_name := first_name;
                 ui_last_name := last_name |}, s).
Proof.
  intros Hfind ->. unfold get_or_create_user, writing, with_connection.
  cbn [execute sql_bind]. rewrite Hfind. reflexivity.
Qed.

Lemma first_of_unique (users : list user_row) (u u' : user_row) :
  List.NoDup (List.map u_telegram_id users) ->
  In u users -> In u' users -> u_telegram_id u = u_telegram_id u' -> u = u'.
Proof.
  induction users as [|x users IH]; cbn; intros Hnd; [intros [] |].
  apply List.NoDup_cons_iff in Hnd as [Hfresh Hnd].
  intros [-> | Hin] [-> | Hin'] He.
  - reflexivity.
  - exfalso. apply Hfresh. rewrite He. apply in_map. exact Hin'.
  - exfalso. apply Hfresh. rewrite <- He. apply in_map. exact Hin.
  - exact (IH Hnd Hin Hin' He).
Qed.

(** X21.  For a telegram id that has a row in [users], with working
    storage, [get_or_create_user] returns the id of such a row (the one
    asked about when telegram ids are unique), prints nothing and leaves
    the store unchanged. *)
Theorem known_user_keeps_the_id (id : Z) :
  registered s telegram_id id ->
  let call :=
    get_or_create_user s NoFault telegram_id username first_name last_name in
  exists info,
    snd (fst call) = Some info /\
    registered s telegram_id (ui_id info) /\
    (telegram_ids_unique s -> ui_id info = id) /\
    ui_telegram_id info = telegram_id /\
    snd call = s /\ fst (fst call) = [].
Proof.
  intros (u & Hin & Htg & Hid) call. unfold call.
  assert (Hfound := find_registered (s_users s)).
  destruct (List.find _ (s_users s)) as [u0|] eqn:Efind.
  - destruct Hfound as [Hin0 Htg0].
    rewrite (known_user u0 NoFault Efind eq_refl). cbn [fst snd].
    eexists. split; [reflexivity |]. cbn [ui_id ui_telegram_id].
    split; [exists u0; auto |]. split; [| auto].
    intros Hunique. rewrite <- Hid. f_equal.
    apply (first_of_unique (s_users s)); try assumption. congruence.
  - exfalso. exact (Hfound u Hin Htg).
Qed.

Lemma created_user :
  (forall id, ~ registered s telegram_id id) ->
  (forall t, In t initial_themes ->
             s_user_preferences s !! (new_user_id s, t) = None) ->
  exists prefs',
    get_or_create_user s NoFault telegram_id username first_name last_name
    = ([NoteUserCreated first_name (new_user_id s)],
       Some {| ui_id := new_user_id s; ui_telegram_id := telegram_id;
               ui_username := username; ui_first_name := first_name;
               ui_last_name := last_name |},
       {| s_themes := s_themes s; s_jokes := s_jokes s;
          s_jokes_seq := s_jokes_seq s; s_joke_themes := s_joke_themes s;
          s_users :=
            s_users s
            ++ [ {| u_id := new_user_id s; u_telegram_id := telegram_id;
                    u_username := username; u_first_name := first_name;
                    u_last_name := last_name |} ];
          s_users_seq := new_user_id s;
          s_user_preferences := prefs';
          s_interactions := s_interactions s;
          s_favorites := s_favorites s |}) /\
    (forall t, In t initial_themes ->
               prefs' !! (new_user_id s, t) = Some neutral_row) /\
    (forall key, (forall t, In t initial_themes -> key <> (new_user_id s, t)) ->
                 prefs' !! key = s_user_preferences s !! key).
Proof.
  intros Hnew Hnone.
  assert (Hfound := find_registered (s_users s)).
  destruct (List.find _ (s_users s)) as [u0|] eqn:Efind.
  { destruct Hfound as [Hin0 Htg0]. exfalso.
    apply (Hnew (u_id u0)). exists u0. auto. }
  destruct (insert_neutral_rows_ok (new_user_id s) initial_themes)
    with (prefs := s_user_preferences s) as (prefs' & Hrun & Hrows & Hold).
  { unfold initial_themes.
    repeat (apply List.NoDup_cons; [cbn; lia |]). apply List.NoDup_nil. }
  { exact Hnone. }
  exists prefs'. split; [| split; assumption].
  unfold get_or_create_user, writing, with_connection.
  cbn [execute sql_bind]. rewrite Efind. cbn [sql_bind].
  fold (user_ids s). fold (new_user_id s). fold initial_themes.
  rewrite Hrun. reflexivity.
Qed.

(** X22.  For a telegram id without a row in [users], in a store whose
    preference rows all belong to users, with working storage,
    [get_or_create_user] returns an id that was not in use, registers the
    telegram id under it, and stores a neutral row (score 0, no
    interactions) for each of the themes 1 to 5; the rows of the other
    users are unchanged, the two consistency conditions still hold, and
    a later call for the same telegram id returns the same id and leaves
    the store unchanged. *)
Theorem new_user_starts_neutral :
  (forall id, ~ registered s telegram_id id) ->
  preferences_refer_to_users s ->
  let call :=
    get_or_create_user s NoFault telegram_id username first_name last_name in
  let s' := snd call in
  exists info,
    snd (fst call) = Some info /\
    ~ In (ui_id info) (user_ids s) /\
    registered s' telegram_id (ui_id info) /\
    (forall t, In t initial_themes ->
               s_user_preferences s' !! (ui_id info, t) = Some neutral_row) /\
    (forall user_id t,
        user_id <> ui_id info ->
        s_user_preferences s' !! (user_id, t)
        = s_user_preferences s !! (user_id, t)) /\
    preferences_refer_to_users s' /\
    (telegram_ids_unique s -> telegram_ids_unique s') /\
    (forall username' first_name' last_name',
        get_or_create_user s' NoFault telegram_id username' first_name'
          last_name'
        = ([], Some {| ui_id := ui_id info; ui_telegram_id := telegram_id;
                       ui_username := username';
                       ui_first_name := first_name';
                       ui_last_name := last_name' |}, s')).
Proof.
  intros Hnew Hrefs call s'.
  assert (Hfresh : ~ In (new_user_id s) (user_ids s))
    by apply next_rowid_fresh.
  destruct created_user as (prefs' & Hcall & Hrows & Hold);
    [exact Hnew | |].
  { intros t _. destruct (s_user_preferences s !! (new_user_id s, t)) eqn:E;
      [| reflexivity].
    exfalso. apply Hfresh. exact (Hrefs _ _ _ E). }
  unfold s', call. rewrite Hcall. cbn [fst snd].
  eexists. split; [reflexivity |]. cbn [ui_id].
  split; [exact Hfresh |]. split; [| split; [| split; [| split; [| split]]]].
  - eexists. split; [apply in_or_app; right; left; reflexivity |].
    split; reflexivity.
  - exact Hrows.
  - intros user_id t Hne. cbn [s_user_preferences]. apply Hold.
    intros t' _ [= -> _]. contradiction.
  - intros user_id t row Hrow. unfold user_ids. cbn [s_users s_user_preferences] in *.
    rewrite List.map_app. apply in_or_app.
    destruct (decide (user_id = new_user_id s)) as [-> | Hne].
    + right. left. reflexivity.
    + left. rewrite Hold in Hrow; [exact (Hrefs _ _ _ Hrow) |].
      intros t' _ [= -> _]. contradiction.
  - unfold telegram_ids_unique. cbn [s_users]. intros Hunique.
    rewrite List.map_app. cbn [List.map].
    apply NoDup_ListNoDup, NoDup_app. split; [| split].
    + apply NoDup_ListNoDup. exact Hunique.
    + intros tg Hin Hlast. apply list_elem_of_In in Hin.
      apply list_elem_of_singleton in Hlast. subst tg.
      apply in_map_iff in Hin as (u & Htg & Hin).
      apply (Hnew (u_id u)). exists u. auto.
    + apply NoDup_singleton.
  - intros username' first_name' last_name'.
    unfold get_or_create_user, writing, with_connection.
    cbn [execute sql_bind s_users].
    assert (Hfind :
              List.find (fun u => Z.eqb (u_telegram_id u) telegram_id)
                (s_users s
                 ++ [ {| u_id := new_user_id s; u_telegram_id := telegram_id;
                         u_username := username; u_first_name := first_name;
                         u_last_name := last_name |} ])
              = Some {| u_id := new_user_id s; u_telegram_id := telegram_id;
                        u_username := username; u_first_name := first_name;
                        u_last_name := last_name |}).
    { clear - Hnew. unfold registered in Hnew.
      induction (s_users s) as [|u users IH]; cbn.
      - rewrite Z.eqb_refl. reflexivity.
      - destruct (Z.eqb_spec (u_telegram_id u) telegram_id) as [He | _].
        + exfalso. apply (Hnew (u_id u)). exists u. cbn. auto.
        + apply IH. intros id (u' & Hin & H). apply (Hnew id).
          exists u'. cbn. auto. }
    rewrite Hfind. reflexivity.
Qed.

(** X23.  When [user_preferences] already holds a row of one of the
    themes 1 to 5 for the id a new user would get, the insertion of the
    neutral rows violates the primary key: once the connection is open,
    [get_or_create_user] returns [None] instead of a dict, and the store
    is unchanged (no row of [users] is added). *)
Theorem stale_preference_row_blocks_creation
    (f : fault) (t : Z) (row : pref_row) :
  (forall id, ~ registered s telegram_id id) ->
  In t initial_themes ->
  s_user_preferences s !! (new_user_id s, t) = Some row ->
  f <> ConnectFails ->
  let call :=
    get_or_create_user s f telegram_id username first_name last_name in
  snd (fst call) = None /\ snd call = s.
Proof.
  intros Hnew Hin Hrow Hf call. unfold call.
  assert (Hfound := find_registered (s_users s)).
  unfold get_or_create_user, writing, with_connection.
  destruct f; [| congruence | split; reflexivity |].
  all: cbn [execute sql_bind].
  all: destruct (List.find _ (s_users s)) as [u0|] eqn:Efind;
    [destruct Hfound as [Hin0 Htg0]; exfalso;
     apply (Hnew (u_id u0)); exists u0; auto |].
  all: cbn [sql_bind]; fold (user_ids s); fold (new_user_id s);
    fold initial_themes.
  all: rewrite (insert_neutral_rows_conflict _ (new_user_id s) initial_themes);
    [split; reflexivity | exists t; split; [exact Hin | congruence]].
Qed.

End Users.

Lemma known_user_keeps_the_id_witness :
  exists info,
    snd (fst (get_or_create_user Scenarios.shop NoFault 700 None "Ира" None))
    = Some info /\
    registered Scenarios.shop 700 (ui_id info) /\
    (telegram_ids_unique Scenarios.shop -> ui_id info = 7%Z) /\
    ui_telegram_id info = 700%Z /\
    snd (get_or_create_user Scenarios.shop NoFault 700 None "Ира" None)
    = Scenarios.shop /\
    fst (fst (get_or_create_user Scenarios.shop NoFault 700 None "Ира" None))
    = [].
Proof.
  apply (known_user_keeps_the_id Scenarios.shop 700 None "Ира" None 7).
  eexists. split; [left; reflexivity |]. split; reflexivity.
Defined.

Lemma new_user_starts_neutral_witness :
  exists info,
    snd (fst (get_or_create_user Scenarios.shop NoFault 800 None "Оля" None))
    = Some info /\
    ~ In (ui_id info) (user_ids Scenarios.shop) /\
    registered
      (snd (get_or_create_user Scenarios.shop NoFault 800 None "Оля" None))
      800 (ui_id info).
Proof.
  destruct (new_user_starts_neutral Scenarios.shop 800 None "Оля" None)
    as (info & Hcall & Hfresh & Hreg & _).
  - intros id (u & [<- | []] & Htg & _). discriminate Htg.
  - intros user_id theme_id row Hrow. cbn in Hrow.
    apply lookup_singleton_Some in Hrow as [[= <- _] _]. left. reflexivity.
  - exists info. repeat split; assumption.
Defined.

Lemma stale_preference_row_witness :
  snd (fst (get_or_create_user Scenarios.shop_with_stale_row NoFault 800 None
              "Оля" None))
  = None /\
  snd (get_or_create_user Scenarios.shop_with_stale_row NoFault 800 None
         "Оля" None)
  = Scenarios.shop_with_stale_row.
Proof.
  apply (stale_preference_row_blocks_creation Scenarios.shop_with_stale_row
           800 None "Оля" None NoFault 3
           {| up_score := 1 # 10; up_interactions := 1 |}).
  - intros id (u & [<- | []] & Htg & _). discriminate Htg.
  - right. right. left. reflexivity.
  - apply lookup_insert_eq.
  - discriminate.
Defined.

(** ** get_themes_statistics *)

Section Statistics.

Variable d : db.

Lemma remove_dups_shorter (l : list Z) :
  (length (remove_dups l) <= length l)%nat.
Proof.
  apply submseteq_length, NoDup_submseteq; [apply NoDup_remove_dups |].
  intros x Hx. rewrite elem_of_remove_dups in Hx. exact Hx.
Qed.

Lemma remove_dups_unique (l : list Z) : NoDup l -> remove_dups l = l.
Proof.
  induction 1 as [|x l Hfresh Hnd IH]; cbn; [reflexivity |].
  destruct (decide_rel elem_of x l); [contradiction |]. rewrite IH. reflexivity.
Qed.

Lemma filter_and_shorter {A} (p q : A -> bool) (l : list A) :
  (length (List.filter (fun x => p x && q x) l)
   <= length (List.filter p l))%nat.
Proof.
  induction l as [|x l IH]; cbn; [lia |].
  destruct (p x), (q x); cbn; lia.
Qed.

Lemma group_holds_every_link (theme_id : Z) :
  In theme_id (List.map t_id (themes d)) ->
  (length (List.filter (fun jt => Z.eqb theme_id (jt_theme_id jt))
             (joke_themes d))
   <= length (links_in_group d theme_id))%nat.
Proof.
  unfold links_in_group.
  induction (themes d) as [|t ts IH]; cbn; [intros [] |].
  intros [He | Hin].
  - subst theme_id. rewrite Z.eqb_refl. cbn. rewrite List.length_app. lia.
  - specialize (IH Hin). destruct (Z.eqb (t_id t) theme_id); cbn; [| exact IH].
    rewrite List.length_app. lia.
Qed.

(** X24.  With working storage [get_themes_statistics] returns at most
    one entry per row of [themes], exactly one when the theme ids are
    distinct, and in every entry the count of approved jokes is between
    0 and the total count of links.  A failing [connect] gives the empty
    list, a failing statement [None]. *)
Theorem statistics_count_approved_within_total (f : fault) :
  (f = NoFault ->
   exists stats,
     snd (get_themes_statistics d f) = Some stats /\
     List.Forall
       (fun st => (0 <= ts_approved st <= ts_total st)%Z) stats /\
     (length stats <= length (themes d))%nat /\
     (List.NoDup (List.map t_id (themes d)) ->
      length stats = length (themes d))) /\
  (f = ConnectFails -> snd (get_themes_statistics d f) = Some []) /\
  (f = ExecuteFails -> snd (get_themes_statistics d f) = None).
Proof.
  split; [| split]; intros ->; [| reflexivity | reflexivity].
  exists (statistics_rows d). split; [reflexivity |].
  unfold statistics_rows. split; [| split].
  - apply List.Forall_forall. intros st Hin.
    apply in_map_iff in Hin as (theme_id & <- & Hin). cbn.
    split; [lia |]. apply inj_le.
    apply list_elem_of_In in Hin. rewrite elem_of_remove_dups in Hin.
    apply list_elem_of_In in Hin.
    apply (Permutation_in _ (Permutation_map t_id (order_by_id_perm (themes d))))
      in Hin.
    etransitivity; [| apply group_holds_every_link; exact Hin].
    unfold approved_in_theme.
    etransitivity; [apply remove_dups_shorter |].
    rewrite List.length_map.
    etransitivity; [apply filter_and_shorter |].
    apply Nat.eq_le_incl. f_equal. apply List.filter_ext.
    intros jt. apply Z.eqb_sym.
  - rewrite List.length_map.
    etransitivity; [apply remove_dups_shorter |].
    rewrite List.length_map.
    rewrite (Permutation_length (order_by_id_perm (themes d))). lia.
  - intros Hnd.
    assert (Hnd' : NoDup (List.map t_id (order_by_id (themes d)))).
    { apply NoDup_ListNoDup.
      apply (Permutation_NoDup
               (Permutation_map t_id (Permutation_sym (order_by_id_perm _)))).
      exact Hnd. }
    rewrite List.length_map, (remove_dups_unique _ Hnd').
    rewrite List.length_map.
    apply Permutation_length, order_by_id_perm.
Qed.

End Statistics.

(** ** get_user_profile: the totals *)

Section ProfileTotals.

Lemma total_app (xs ys : list Z) : total (xs ++ ys) = (total xs + total ys)%Z.
Proof.
  unfold total. induction xs as [|x xs IH]; cbn; [reflexivity | rewrite IH; lia].
Qed.

Lemma total_perm (xs ys : list Z) : Permutation xs ys -> total xs = total ys.
Proof. unfold total. induction 1; cbn; lia. Qed.

Lemma loop_total (l : dict theme_data) :
  total_interactions (acc (loop_after l))
  = total (List.map (fun item => interactions_of (snd item)) l).
Proof.
  induction l as [|x l IH] using rev_ind; [reflexivity |].
  rewrite loop_after_snoc, List.map_app, total_app. cbn.
  rewrite IH. unfold interactions_of. lia.
Qed.

Lemma profile_read (d : db) (user_id : Z) :
  List.NoDup (List.map t_id (themes d)) -> themes d <> [] ->
  snd (get_user_profile d NoFault user_id)
  = Some (_create_user_profile
            (List.map (preference_entry d user_id) (order_by_id (themes d)))).
Proof.
  intros Hnd Hne.
  assert (Hnd' : List.NoDup (List.map t_id (order_by_id (themes d)))).
  { apply (Permutation_NoDup (l := List.map t_id (themes d))); [| exact Hnd].
    apply Permutation_map. symmetry. apply order_by_id_perm. }
  unfold get_user_profile. rewrite preferences_read. unfold preference_rows.
  rewrite (preferences_of_unique_rows d user_id _ Hnd').
  destruct (order_by_id (themes d)) as [|t ts] eqn:E; [| reflexivity].
  apply (proj1 (order_by_id_empty _)) in E. contradiction.
Qed.

(** X25.  With working storage, distinct theme ids and at least one
    theme, [get_user_profile] returns a profile with one entry per theme
    whose [total_interactions] is the sum of the interaction counts of
    its entries, which is the sum, over the themes, of the counts stored
    for the user in [user_preferences]. *)
Theorem profile_totals_the_stored_interactions (d : db) (user_id : Z) :
  List.NoDup (List.map t_id (themes d)) -> themes d <> [] ->
  exists p,
    snd (get_user_profile d NoFault user_id) = Some p /\
    Permutation (List.map tp_id (profile_themes p)) (List.map t_id (themes d)) /\
    total_interactions p = total (List.map tp_interactions (profile_themes p)) /\
    total_interactions p
    = total (List.map (stored_interactions d user_id) (themes d)).
Proof.
  intros Hnd Hne. rewrite (profile_read d user_id Hnd Hne).
  eexists. split; [reflexivity |].
  unfold _create_user_profile. cbn [profile_themes total_interactions].
  fold (loop_after
          (List.map (preference_entry d user_id) (order_by_id (themes d)))).
  rewrite loop_themes, loop_total, !List.map_map.
  assert (Hperm := order_by_id_perm (themes d)).
  split; [| split].
  - rewrite (Permutation_map tp_id (sorted_by_score_desc_perm _)).
    rewrite List.map_map. cbn. apply Permutation_map. exact Hperm.
  - apply total_perm.
    rewrite (Permutation_map tp_interactions (sorted_by_score_desc_perm _)).
    rewrite List.map_map. reflexivity.
  - rewrite <- (total_perm _ _ (Permutation_map (stored_interactions d user_id) Hperm)).
    f_equal. apply List.map_ext. intros t.
    unfold interactions_of, stored_interactions. cbn.
    destruct (user_preferences d !! (user_id, t_id t)) as [row|]; cbn;
      [| reflexivity].
    destruct (Z.eqb_spec (up_interactions row) 0); congruence.
Qed.

End ProfileTotals.

Lemma profile_totals_witness :
  exists p,
    snd (get_user_profile Examples.catalog NoFault 7) = Some p /\
    total_interactions p = 12%Z.
Proof.
  destruct (profile_totals_the_stored_interactions Examples.catalog 7)
    as (p & Hcall & _ & _ & Htotal).
  - nodup_list.
  - discriminate.
  - exists p. split; [exact Hcall |]. rewrite Htotal. reflexivity.
Defined.

Lemma profile_away_from_bounds_witness :
  exists t data,
    In (t, data)
      [(1%Z, Scenarios.liked_theme); (2%Z, Scenarios.neutral_theme)] /\
    favorite_theme
      (_create_user_profile
         [(1%Z, Scenarios.liked_theme); (2%Z, Scenarios.neutral_theme)])
    = Some t /\
    forall t' data',
      In (t', data')
        [(1%Z, Scenarios.liked_theme); (2%Z, Scenarios.neutral_theme)] ->
      (score_of data' <= score_of data)%Q.
Proof.
  destruct (profile_away_from_bounds
              [(1%Z, Scenarios.liked_theme); (2%Z, Scenarios.neutral_theme)])
    as (_ & _ & _ & Hfavorite & _).
  - discriminate.
  - intros t data [[= <- <-] | [[= <- <-] | []]]; cbn; lia.
  - apply Hfavorite. exists 1%Z, Scenarios.liked_theme.
    split; [left; reflexivity |]. vm_compute. reflexivity.
Defined.
